(** * Mattrix hybrid storage: a shallow embedding of
      [src/database.ts], [src/hybrid-storage.ts] and the [/add] and
      [/base_builders_network] handlers of [src/bot.ts]

    The relational tables are lists of rows (row order is the table's scan
    order), the GolemDB ledger is an append-only list of entities, and every
    operation of the two manager classes is a computation in a small
    state-and-exception monad over the [World] record.  What the TypeScript
    code obtains from outside the repository (the SHA-256 digest, the ISO
    rendering of a [Date], [Math.random], the Pinata upload endpoint and the
    GolemDB index) is a field of the class [Externals].  The three
    backends are taken to be reachable.  The two [INSERT]s check the
    primary key; that the values fit the columns of the schema is the
    precondition [fits] of every theorem that says what an insert does. *)

From Stdlib Require Import ZArith Ascii DecimalString DecimalZ Permutation.
From stdpp Require Import base list strings sorting.

Local Open Scope Z_scope.

Set Warnings "-register-all".

(** ** JavaScript values and [JSON.stringify] *)

Module JS.

(** The values that reach [generateHash]: records read back from
  PostgreSQL, plain object literals and strings.  Numbers are the integral
  ones the code produces ([Date.now()], sizes); an object is its list of
  own enumerable properties in property order. *)
Inductive value : Type :=
| VUndefined
| VNull
| VBool (b : bool)
| VNumber (n : Z)
| VString (s : string)
| VDate (ms : Z)
| VArray (elems : list value)
| VObject (props : list (string * value)).

(** Own-property lookup, [Get(o, k)] on a plain data object. *)
Fixpoint assoc {A : Type} (k : string) (o : list (string * A)) : option A :=
match o with
| [] => None
| (k', v) :: o' => if decide (k = k') then Some v else assoc k o'
end.

Definition keys {A : Type} (o : list (string * A)) : list string := o.*1.

(** [Number::toString] on an integral number. *)
Definition Number_toString (n : Z) : string :=
NilZero.string_of_int (Z.to_int n).

(** Decimal index names ["0"], ["1"], ... of an array or string. *)
Definition index_keys (len : nat) : list string :=
(fun i : nat => Number_toString (Z.of_nat i)) <$> seq 0 len.

Definition dquote : string := String (ascii_of_N 34) "".

Definition hex_digit (n : N) : ascii :=
ascii_of_N (if (n <? 10)%N then 48 + n else 87 + n)%N.

(** One code unit inside [QuoteJSONString]. *)
Definition quote_char (c : ascii) : string :=
let n := N_of_ascii c in
if (n =? 34)%N then String "\" dquote
else if (n =? 92)%N then "\\"
else if (n =? 8)%N then "\b"
else if (n =? 9)%N then "\t"
else if (n =? 10)%N then "\n"
else if (n =? 12)%N then "\f"
else if (n =? 13)%N then "\r"
else if (n <? 32)%N then
  "\u00" +:+ String (hex_digit (n / 16)) (String (hex_digit (n mod 16)) "")
else String c "".

Fixpoint quote_body (s : string) : string :=
match s with
| EmptyString => ""
| String c s' => quote_char c +:+ quote_body s'
end.

Definition QuoteJSONString (s : string) : string :=
dquote +:+ quote_body s +:+ dquote.

Fixpoint join (sep : string) (l : list string) : string :=
match l with
| [] => ""
| [x] => x
| x :: l' => x +:+ sep +:+ join sep l'
end.

Section Stringify.

(** [Date.prototype.toISOString], which [toJSON] calls. *)
Variable toISOString : Z -> string.

(** ["key":value] for the keys of the property list [K] that the object
  has with a serialisable value, in the order of [K]. *)
Definition members (K : list string) (ser : list (string * option string))
: list string :=
omap (fun k => match assoc k ser with
               | Some (Some s) => Some (QuoteJSONString k +:+ ":" +:+ s)
               | _ => None
               end) K.

(** [SerializeJSONProperty] with an array replacer: the property list [K]
  built from the replacer is used at every nesting depth; [None] is
  JavaScript's [undefined]. *)
Fixpoint SerializeJSONProperty (K : list string) (v : value) : option string :=
match v with
| VUndefined => None
| VNull => Some "null"
| VBool b => Some (if b then "true" else "false")
| VNumber n => Some (Number_toString n)
| VString s => Some (QuoteJSONString s)
| VDate ms => Some (QuoteJSONString (toISOString ms))
| VArray elems =>
    let parts :=
      (fix go (l : list value) : list string :=
         match l with
         | [] => []
         | x :: l' => default "null" (SerializeJSONProperty K x) :: go l'
         end) elems in
    Some ("[" +:+ join "," parts +:+ "]")
| VObject props =>
    let ser :=
      (fix go (o : list (string * value)) : list (string * option string) :=
         match o with
         | [] => []
         | (k, x) :: o' => (k, SerializeJSONProperty K x) :: go o'
         end) props in
    Some ("{" +:+ join "," (members K ser) +:+ "}")
end.

(** The serialised properties of an object, as a map over its entries. *)
Definition serialised (K : list string) (props : list (string * value))
: list (string * option string) :=
prod_map id (SerializeJSONProperty K) <$> props.

(** [Object.keys(data)]; [None] is the [TypeError] on [undefined] and
  [null]. *)
Definition Object_keys (v : value) : option (list string) :=
match v with
| VUndefined | VNull => None
| VBool _ | VNumber _ | VDate _ => Some []
| VString s => Some (index_keys (String.length s))
| VArray elems => Some (index_keys (length elems))
| VObject props => Some (keys props)
end.

(** [Array.prototype.sort] without a comparator: ascending by code
  units. *)
Definition sort_keys (l : list string) : list string :=
merge_sort String.le l.

(** [JSON.stringify(data, Object.keys(data).sort())]. *)
Definition stringify_sorted (data : value) : option (option string) :=
K ← Object_keys data;
Some (SerializeJSONProperty (sort_keys K) data).

End Stringify.

End JS.

(** ** Data model ([src/database.ts], [src/hybrid-storage.ts]) *)

(** [priority: 'low' | 'medium' | 'high'] *)
Inductive Priority : Type := low | medium | high.

Definition Priority_name (p : Priority) : string :=
  match p with low => "low" | medium => "medium" | high => "high" end.

(** A row of table [contacts]; [None] is SQL [NULL]. *)
Module ContactRow.
Record t : Type := mk {
  id : string;
  user_id : string;
  name : string;
  position : option string;
  company : option string;
  email : option string;
  phone : option string;
  linkedin : option string;
  github : option string;
  telegram : option string;
  lens : option string;
  farcaster : option string;
  ens : option string;
  location : option string;
  goal : option string;
  notes : option string;
  tags : option (list string);
  priority : Priority;
  created_at : Z;
  source : option string;
  photo_path : option string;
  photo_file_id : option string;
  photo_taken_at : option Z;
  has_facial_data : option bool
}.
End ContactRow.

(** [interface Contact].  For the optional string fields [None] is the
    [null] that a row read back from PostgreSQL carries; for [photoTakenAt]
    it is [undefined] (see [mapRowToContact]). *)
Module Contact.
Record t : Type := mk {
  id : string;
  userId : string;
  name : string;
  position : option string;
  company : option string;
  email : option string;
  phone : option string;
  linkedin : option string;
  github : option string;
  telegram : option string;
  lens : option string;
  farcaster : option string;
  ens : option string;
  location : option string;
  goal : option string;
  notes : option string;
  tags : list string;
  priority : Priority;
  createdAt : Z;
  source : option string;
  photoPath : option string;
  photoFileId : option string;
  photoTakenAt : option Z;
  hasFacialData : bool
}.
End Contact.

(** The [Partial<Contact>] argument of [addContact], restricted to the
    fields the function reads; [None] is an absent ([undefined]) field. *)
Module ContactData.
Record t : Type := mk {
  name : option string;
  position : option string;
  company : option string;
  email : option string;
  phone : option string;
  linkedin : option string;
  github : option string;
  telegram : option string;
  lens : option string;
  farcaster : option string;
  ens : option string;
  location : option string;
  goal : option string;
  notes : option string;
  tags : option (list string);
  priority : option Priority;
  source : option string;
  photoPath : option string;
  photoFileId : option string;
  photoTakenAt : option Z;
  hasFacialData : option bool
}.

(** The empty object [{}]. *)
Definition empty : t :=
  mk None None None None None None None None None None None None None None
     None None None None None None None.
End ContactData.

(** The [photoData] argument of [DatabaseContactManager.addPhotoToContact]. *)
Module PhotoData.
Record t : Type := mk {
  photoPath : option string;
  photoFileId : option string;
  photoTakenAt : option Z;
  hasFacialData : option bool
}.
End PhotoData.

(** [Omit<BaseBuilder, 'id' | 'userId' | 'createdAt'>] *)
Module BuilderData.
Record t : Type := mk {
  email : string;
  fullName : string;
  builderTypes : list string;
  buildingOnBase : string;
  location : string;
  country : string;
  baseAmbassador : string;
  discordUsername : option string;
  telegramUsername : option string;
  twitterUsername : option string;
  baseAppUsername : option string;
  githubLink : option string;
  relevantLinks : option string;
  baseCoreContact : option string;
  basename : option string;
  walletAddress : option string;
  additionalComments : option string
}.
End BuilderData.

(** [interface BaseBuilder]; a row of table [base_builders] has the same
    columns, all of the required ones [NOT NULL]. *)
Module BaseBuilder.
Record t : Type := mk {
  id : string;
  userId : string;
  data : BuilderData.t;
  createdAt : Z
}.
End BaseBuilder.

(** [dataType: 'contact' | 'base_builder' | 'image'] *)
Module DataType.
Inductive t : Type := contact | base_builder | image.

Definition name (d : t) : string :=
  match d with
  | contact => "contact"
  | base_builder => "base_builder"
  | image => "image"
  end.

#[global] Instance eq_dec : EqDecision t.
Proof. solve_decision. Defined.
End DataType.

(** [interface DataHash] *)
Module DataHash.
Record t : Type := mk {
  id : string;
  dataType : DataType.t;
  originalId : string;
  userId : string;
  sha256Hash : string;
  ipfsHash : option string;
  createdAt : Z;
  verified : bool
}.
End DataHash.

(** A GolemDB entity written by [storeHashInGolem]: the payload (the JSON of
    the [DataHash], from which the string annotations [dataType], [userId],
    [originalId], [hashId], [ipfsHash] and the numeric annotation [verified]
    are copied) and the numeric annotation [timestamp]. *)
Module Entity.
Record t : Type := mk {
  storageValue : DataHash.t;
  timestamp : Z
}.
End Entity.

(** [interface IPFSUploadResult] *)
Module IPFSUploadResult.
Record t : Type := mk {
  ipfsHash : string;
  pinataUrl : string;
  size : Z
}.
End IPFSUploadResult.

(** What [pinata.upload.public.file] answers: the stored object, or an
    exception with its message. *)
Inductive UploadResponse : Type :=
  | Uploaded (cid : string) (size : Z)
  | Rejected (message : string).

(** The exceptions the two manager classes let escape. *)
Inductive Error : Type :=
  | DataNotFoundInPostgreSQL
  | HashNotFoundInGolemDB (maxAttempts : nat)
  | PinataNotInitialized
  | PinataError (message : string)
  | UniqueViolation (table : string)
  | TypeError.

(** ** The world and the effects *)

Record World : Type := mkWorld {
  contacts : list ContactRow.t;
  base_builders : list BaseBuilder.t;
  golem : list Entity.t;
  pinata : bool;
  PINATA_GATEWAY : option string;
  clock : Z;
  draws : nat;
  queries : nat
}.

(** What the code takes from outside the repository. *)
Class Externals : Type := {
  sha256_hex : string -> string;
  toISOString : Z -> string;
  Math_random_base36 : nat -> string;
  pinata_upload_public_file : list Byte.byte -> string -> UploadResponse;
  golem_indexed : Z -> list Entity.t -> list Entity.t
}.

Inductive Outcome (A : Type) : Type :=
  | Ok (a : A)
  | Throw (e : Error)
  | OutOfFuel.
Arguments Ok {A} a.
Arguments Throw {A} e.
Arguments OutOfFuel {A}.

Definition M (A : Type) : Type := World -> Outcome A * World.

Definition ret {A : Type} (a : A) : M A := fun w => (Ok a, w).

Definition bind {A B : Type} (m : M A) (k : A -> M B) : M B :=
  fun w =>
    match m w with
    | (Ok a, w') => k a w'
    | (Throw e, w') => (Throw e, w')
    | (OutOfFuel, w') => (OutOfFuel, w')
    end.

Definition throw {A : Type} (e : Error) : M A := fun w => (Throw e, w).

Definition get : M World := fun w => (Ok w, w).

Definition put (w : World) : M unit := fun _ => (Ok tt, w).

(** The three stores of a world, and the computations that keep a
    property of them whatever their outcome. *)
Definition stores (w : World)
  : list ContactRow.t * list BaseBuilder.t * list Entity.t :=
  (contacts w, base_builders w, golem w).

Definition keeps {A : Type}
    (P : list ContactRow.t * list BaseBuilder.t * list Entity.t -> Prop)
    (m : M A) : Prop :=
  forall w : World, P (stores w) -> P (stores (snd (m w))).

Definition silent {A : Type} (m : M A) : Prop :=
  forall w : World, stores (snd (m w)) = stores w.

Declare Scope m_scope.
Delimit Scope m_scope with M.
Notation "x <- c1 ;; c2" := (bind c1 (fun x => c2))
  (at level 100, c1 at next level, right associativity) : m_scope.
Notation "c1 ;; c2" := (bind c1 (fun _ => c2))
  (at level 100, right associativity) : m_scope.
Local Open Scope m_scope.

Definition set_contacts (rows : list ContactRow.t) (w : World) : World :=
  mkWorld rows (base_builders w) (golem w) (pinata w) (PINATA_GATEWAY w)
          (clock w) (draws w) (queries w).

Definition set_base_builders (rows : list BaseBuilder.t) (w : World) : World :=
  mkWorld (contacts w) rows (golem w) (pinata w) (PINATA_GATEWAY w)
          (clock w) (draws w) (queries w).

Definition set_golem (es : list Entity.t) (w : World) : World :=
  mkWorld (contacts w) (base_builders w) es (pinata w) (PINATA_GATEWAY w)
          (clock w) (draws w) (queries w).

Definition set_clock (t : Z) (w : World) : World :=
  mkWorld (contacts w) (base_builders w) (golem w) (pinata w) (PINATA_GATEWAY w)
          t (draws w) (queries w).

Definition set_draws (n : nat) (w : World) : World :=
  mkWorld (contacts w) (base_builders w) (golem w) (pinata w) (PINATA_GATEWAY w)
          (clock w) n (queries w).

Definition set_queries (n : nat) (w : World) : World :=
  mkWorld (contacts w) (base_builders w) (golem w) (pinata w) (PINATA_GATEWAY w)
          (clock w) (draws w) n.

(** Worlds that differ at most in the clock and the query counter. *)
Definition same_stores (w w' : World) : Prop :=
  contacts w' = contacts w /\ base_builders w' = base_builders w
  /\ golem w' = golem w /\ pinata w' = pinata w
  /\ PINATA_GATEWAY w' = PINATA_GATEWAY w /\ draws w' = draws w.

(** [Date.now()] and the millisecond value of [new Date()]. *)
Definition Date_now : M Z := fun w => (Ok (clock w), w).

(** [Math.random().toString(36).substr(2, len)]: the first [len] base-36
    digits after the point of the next draw. *)
Definition Math_random_substr {ext : Externals} (len : nat) : M string :=
  fun w => (Ok (String.substring 0 len (Math_random_base36 (draws w))),
            set_draws (S (draws w)) w).

(** [await new Promise(resolve => setTimeout(resolve, ms))] *)
Definition sleep (ms : Z) : M unit :=
  fun w => (Ok tt, set_clock (clock w + ms) w).

(** [a || b] on an optional string: the empty string is falsy. *)
Definition or_string (a : option string) (b : string) : string :=
  match a with
  | Some s => if decide (s = "") then b else s
  | None => b
  end.

(** ** The fragment of SQL the queries use *)

Module Sql.

(** [LOWER] on the letters [A] to [Z], which the usual locales of
    PostgreSQL fold to [a] to [z].  What it does to other letters depends
    on the locale of the database; a theorem that depends on it is stated
    for ASCII text. *)
Definition lower_ascii (c : ascii) : ascii :=
  let n := N_of_ascii c in
  if ((65 <=? n) && (n <=? 90))%N then ascii_of_N (n + 32) else c.

Fixpoint LOWER (s : string) : string :=
  match s with
  | EmptyString => EmptyString
  | String c s' => String (lower_ascii c) (LOWER s')
  end.

(** [s LIKE p]: [%] matches any run of characters, [_] any single one,
    a backslash makes the next pattern character literal. *)
Fixpoint like_chars (p : list ascii) (s : list ascii) {struct p} : bool :=
  match p with
  | [] => match s with [] => true | _ => false end
  | c :: p' =>
      if decide (c = "%"%char) then
        (fix star (s : list ascii) : bool :=
           like_chars p' s ||
           match s with [] => false | _ :: s' => star s' end) s
      else if decide (c = "_"%char) then
        match s with [] => false | _ :: s' => like_chars p' s' end
      else if decide (c = "\"%char) then
        match p' with
        | [] => false
        | e :: p'' =>
            match s with
            | [] => false
            | x :: s' => bool_decide (x = e) && like_chars p'' s'
            end
        end
      else
        match s with
        | [] => false
        | x :: s' => bool_decide (x = c) && like_chars p' s'
        end
  end.

Definition LIKE (s p : string) : bool :=
  like_chars (String.list_ascii_of_string p) (String.list_ascii_of_string s).

(** [LOWER(col) LIKE LOWER($2)] in a [WHERE] clause: a [NULL] column
    makes the disjunct unknown, which selects nothing. *)
Definition lower_like (col : option string) (p : string) : bool :=
  match col with
  | Some s => LIKE (LOWER s) (LOWER p)
  | None => false
  end.

(** [EXISTS (SELECT 1 FROM unnest(tags) AS tag WHERE LOWER(tag) LIKE LOWER($2))] *)
Definition exists_tag_like (tags : option (list string)) (p : string) : bool :=
  match tags with
  | Some ts => existsb (fun tag => LIKE (LOWER tag) (LOWER p)) ts
  | None => false
  end.

(** A value a [TEXT] column stores: PostgreSQL text holds no NUL. *)
Definition TEXT (s : string) : Prop :=
  Ascii.zero ∉ String.list_ascii_of_string s.

(** A value a [VARCHAR(n)] column stores as it is: at most [n]
    characters.  A longer one is refused with [22001] (or cut, when only
    spaces are lost). *)
Definition VARCHAR (n : nat) (s : string) : Prop :=
  (String.length s <= n)%nat /\ TEXT s.

(** A column that may be [NULL]. *)
Definition or_null {A : Type} (P : A -> Prop) (col : option A) : Prop :=
  match col with
  | Some v => P v
  | None => True
  end.

#[global] Instance TEXT_dec s : Decision (TEXT s).
Proof. unfold TEXT. apply _. Defined.

#[global] Instance VARCHAR_dec n s : Decision (VARCHAR n s).
Proof. unfold VARCHAR. apply _. Defined.

#[global] Instance or_null_dec {A : Type} (P : A -> Prop)
    `{!forall v, Decision (P v)} col : Decision (or_null P col).
Proof. destruct col; apply _. Defined.

End Sql.

(** ** [class DatabaseContactManager] *)

Module DatabaseContactManager.

Definition mapRowToContact (row : ContactRow.t) : Contact.t :=
  {| Contact.id := ContactRow.id row;
     Contact.userId := ContactRow.user_id row;
     Contact.name := ContactRow.name row;
     Contact.position := ContactRow.position row;
     Contact.company := ContactRow.company row;
     Contact.email := ContactRow.email row;
     Contact.phone := ContactRow.phone row;
     Contact.linkedin := ContactRow.linkedin row;
     Contact.github := ContactRow.github row;
     Contact.telegram := ContactRow.telegram row;
     Contact.lens := ContactRow.lens row;
     Contact.farcaster := ContactRow.farcaster row;
     Contact.ens := ContactRow.ens row;
     Contact.location := ContactRow.location row;
     Contact.goal := ContactRow.goal row;
     Contact.notes := ContactRow.notes row;
     Contact.tags := default [] (ContactRow.tags row);
     Contact.priority := ContactRow.priority row;
     Contact.createdAt := ContactRow.created_at row;
     Contact.source := ContactRow.source row;
     Contact.photoPath := ContactRow.photo_path row;
     Contact.photoFileId := ContactRow.photo_file_id row;
     Contact.photoTakenAt := ContactRow.photo_taken_at row;
     Contact.hasFacialData := default false (ContactRow.has_facial_data row) |}.

(** The columns of [CREATE TABLE contacts]: a row whose values the
    table stores as they are. *)
Definition fits (row : ContactRow.t) : Prop :=
  Sql.VARCHAR 255 (ContactRow.id row)
  /\ Sql.VARCHAR 255 (ContactRow.user_id row)
  /\ Sql.VARCHAR 255 (ContactRow.name row)
  /\ Sql.or_null (Sql.VARCHAR 255) (ContactRow.position row)
  /\ Sql.or_null (Sql.VARCHAR 255) (ContactRow.company row)
  /\ Sql.or_null (Sql.VARCHAR 255) (ContactRow.email row)
  /\ Sql.or_null (Sql.VARCHAR 255) (ContactRow.phone row)
  /\ Sql.or_null (Sql.VARCHAR 500) (ContactRow.linkedin row)
  /\ Sql.or_null (Sql.VARCHAR 500) (ContactRow.github row)
  /\ Sql.or_null (Sql.VARCHAR 255) (ContactRow.telegram row)
  /\ Sql.or_null (Sql.VARCHAR 255) (ContactRow.lens row)
  /\ Sql.or_null (Sql.VARCHAR 255) (ContactRow.farcaster row)
  /\ Sql.or_null (Sql.VARCHAR 255) (ContactRow.ens row)
  /\ Sql.or_null (Sql.VARCHAR 255) (ContactRow.location row)
  /\ Sql.or_null Sql.TEXT (ContactRow.goal row)
  /\ Sql.or_null Sql.TEXT (ContactRow.notes row)
  /\ Sql.or_null (Forall Sql.TEXT) (ContactRow.tags row)
  /\ Sql.or_null (Sql.VARCHAR 255) (ContactRow.source row)
  /\ Sql.or_null (Sql.VARCHAR 500) (ContactRow.photo_path row)
  /\ Sql.or_null (Sql.VARCHAR 500) (ContactRow.photo_file_id row).

#[global] Instance contact_fits_dec row : Decision (fits row).
Proof. unfold fits. apply _. Defined.

(** The two [VARCHAR(500)] columns the photo [UPDATE] sets. *)
Definition photo_fits (photo_path photo_file_id : string) : Prop :=
  Sql.VARCHAR 500 photo_path /\ Sql.VARCHAR 500 photo_file_id.

#[global] Instance photo_fits_dec p f : Decision (photo_fits p f).
Proof. unfold photo_fits. apply _. Defined.

(** [INSERT INTO contacts (...) VALUES (...) RETURNING *]: [id] is the
    primary key.  The row is taken to fit the columns ([fits]). *)
Definition INSERT_contacts (row : ContactRow.t) : M ContactRow.t :=
  fun w =>
    if bool_decide (ContactRow.id row ∈ ContactRow.id <$> contacts w)
    then (Throw (UniqueViolation "contacts_pkey"), w)
    else (Ok row, set_contacts (contacts w ++ [row]) w).

(** The [contact] object literal of [addContact]. *)
Definition new_contact (userId : string) (contactData : ContactData.t)
    (id createdAt : Z) : Contact.t :=
  {| Contact.id := JS.Number_toString id;
     Contact.userId := userId;
     Contact.name := or_string (ContactData.name contactData) "Unknown";
     Contact.position := ContactData.position contactData;
     Contact.company := ContactData.company contactData;
     Contact.email := ContactData.email contactData;
     Contact.phone := ContactData.phone contactData;
     Contact.linkedin := ContactData.linkedin contactData;
     Contact.github := ContactData.github contactData;
     Contact.telegram := ContactData.telegram contactData;
     Contact.lens := ContactData.lens contactData;
     Contact.farcaster := ContactData.farcaster contactData;
     Contact.ens := ContactData.ens contactData;
     Contact.location := ContactData.location contactData;
     Contact.goal := ContactData.goal contactData;
     Contact.notes := ContactData.notes contactData;
     Contact.tags := default [] (ContactData.tags contactData);
     Contact.priority := default medium (ContactData.priority contactData);
     Contact.createdAt := createdAt;
     Contact.source := ContactData.source contactData;
     Contact.photoPath := ContactData.photoPath contactData;
     Contact.photoFileId := ContactData.photoFileId contactData;
     Contact.photoTakenAt := ContactData.photoTakenAt contactData;
     Contact.hasFacialData :=
       default false (ContactData.hasFacialData contactData) |}.

(** The [values] array of [addContact], as the row it inserts. *)
Definition values (contact : Contact.t) : ContactRow.t :=
  {| ContactRow.id := Contact.id contact;
     ContactRow.user_id := Contact.userId contact;
     ContactRow.name := Contact.name contact;
     ContactRow.position := Contact.position contact;
     ContactRow.company := Contact.company contact;
     ContactRow.email := Contact.email contact;
     ContactRow.phone := Contact.phone contact;
     ContactRow.linkedin := Contact.linkedin contact;
     ContactRow.github := Contact.github contact;
     ContactRow.telegram := Contact.telegram contact;
     ContactRow.lens := Contact.lens contact;
     ContactRow.farcaster := Contact.farcaster contact;
     ContactRow.ens := Contact.ens contact;
     ContactRow.location := Contact.location contact;
     ContactRow.goal := Contact.goal contact;
     ContactRow.notes := Contact.notes contact;
     ContactRow.tags := Some (Contact.tags contact);
     ContactRow.priority := Contact.priority contact;
     ContactRow.created_at := Contact.createdAt contact;
     ContactRow.source := Contact.source contact;
     ContactRow.photo_path := Contact.photoPath contact;
     ContactRow.photo_file_id := Contact.photoFileId contact;
     ContactRow.photo_taken_at := Contact.photoTakenAt contact;
     ContactRow.has_facial_data := Some (Contact.hasFacialData contact) |}.

Definition addContact (userId : string) (contactData : ContactData.t)
  : M Contact.t :=
  id <- Date_now ;;
  createdAt <- Date_now ;;
  let contact := new_contact userId contactData id createdAt in
  row <- INSERT_contacts (values contact) ;;
  ret (mapRowToContact row).

(** [ORDER BY created_at DESC] *)
Definition created_desc (a b : ContactRow.t) : Prop :=
  ContactRow.created_at b <= ContactRow.created_at a.

#[global] Instance created_desc_dec : RelDecision created_desc.
Proof. intros a b. unfold created_desc. apply _. Defined.

(** [SELECT * FROM contacts WHERE user_id = $1 ORDER BY created_at DESC] *)
Definition getUserContacts (userId : string) : M (list Contact.t) :=
  w <- get ;;
  let rows :=
    merge_sort created_desc
      (filter (fun r => ContactRow.user_id r = userId) (contacts w)) in
  ret (mapRowToContact <$> rows).

(** The parenthesised disjunction of the search query's [WHERE] clause. *)
Definition matches (r : ContactRow.t) (searchTerm : string) : bool :=
  Sql.lower_like (Some (ContactRow.name r)) searchTerm
  || Sql.lower_like (ContactRow.company r) searchTerm
  || Sql.lower_like (ContactRow.position r) searchTerm
  || Sql.lower_like (ContactRow.email r) searchTerm
  || Sql.lower_like (ContactRow.linkedin r) searchTerm
  || Sql.lower_like (ContactRow.github r) searchTerm
  || Sql.lower_like (ContactRow.telegram r) searchTerm
  || Sql.lower_like (ContactRow.location r) searchTerm
  || Sql.lower_like (ContactRow.source r) searchTerm
  || Sql.exists_tag_like (ContactRow.tags r) searchTerm.

Definition searchContacts (userId : string) (query : string)
  : M (list Contact.t) :=
  w <- get ;;
  let searchTerm := "%" +:+ query +:+ "%" in
  let rows :=
    merge_sort created_desc
      (filter (fun r => ContactRow.user_id r = userId
                        ∧ matches r searchTerm = true) (contacts w)) in
  ret (mapRowToContact <$> rows).

(** The [WHERE user_id = $1 AND id = $2] of [DELETE] and [UPDATE]. *)
Definition selected (userId contactId : string) (r : ContactRow.t) : Prop :=
  ContactRow.user_id r = userId ∧ ContactRow.id r = contactId.

#[global] Instance selected_dec userId contactId r :
  Decision (selected userId contactId r).
Proof. unfold selected. apply _. Defined.

(** [DELETE FROM contacts WHERE user_id = $1 AND id = $2];
    [result.rowCount > 0]. *)
Definition deleteContact (userId contactId : string) : M bool :=
  w <- get ;;
  let rowCount := length (filter (selected userId contactId) (contacts w)) in
  put (set_contacts
         (filter (fun r => ¬ selected userId contactId r) (contacts w)) w) ;;
  ret (bool_decide (0 < rowCount)%nat).

Definition UPDATE_photo (photo_path photo_file_id : option string)
    (photo_taken_at : Z) (has_facial_data : bool) (r : ContactRow.t)
  : ContactRow.t :=
  {| ContactRow.id := ContactRow.id r;
     ContactRow.user_id := ContactRow.user_id r;
     ContactRow.name := ContactRow.name r;
     ContactRow.position := ContactRow.position r;
     ContactRow.company := ContactRow.company r;
     ContactRow.email := ContactRow.email r;
     ContactRow.phone := ContactRow.phone r;
     ContactRow.linkedin := ContactRow.linkedin r;
     ContactRow.github := ContactRow.github r;
     ContactRow.telegram := ContactRow.telegram r;
     ContactRow.lens := ContactRow.lens r;
     ContactRow.farcaster := ContactRow.farcaster r;
     ContactRow.ens := ContactRow.ens r;
     ContactRow.location := ContactRow.location r;
     ContactRow.goal := ContactRow.goal r;
     ContactRow.notes := ContactRow.notes r;
     ContactRow.tags := ContactRow.tags r;
     ContactRow.priority := ContactRow.priority r;
     ContactRow.created_at := ContactRow.created_at r;
     ContactRow.source := ContactRow.source r;
     ContactRow.photo_path := photo_path;
     ContactRow.photo_file_id := photo_file_id;
     ContactRow.photo_taken_at := Some photo_taken_at;
     ContactRow.has_facial_data := Some has_facial_data |}.

(** [UPDATE contacts SET photo_path = $1, photo_file_id = $2,
    photo_taken_at = $3, has_facial_data = $4 WHERE user_id = $5 AND id = $6] *)
Definition addPhotoToContact (userId contactId : string)
    (photoData : PhotoData.t) : M bool :=
  now <- Date_now ;;
  w <- get ;;
  let rowCount := length (filter (selected userId contactId) (contacts w)) in
  let upd r :=
    if decide (selected userId contactId r)
    then UPDATE_photo (PhotoData.photoPath photoData)
                      (PhotoData.photoFileId photoData)
                      (default now (PhotoData.photoTakenAt photoData))
                      (default false (PhotoData.hasFacialData photoData)) r
    else r in
  put (set_contacts (upd <$> contacts w) w) ;;
  ret (bool_decide (0 < rowCount)%nat).

#[global] Instance Priority_eq_dec : EqDecision Priority.
Proof. solve_decision. Defined.

(** The row [getStats] returns: node-postgres delivers the [bigint] of a
    [COUNT] as its decimal string. *)
Record Stats : Type := mkStats {
  total : string;
  high_priority : string;
  medium_priority : string;
  low_priority : string;
  with_email : string;
  with_linkedin : string;
  with_github : string;
  recent_week : string;
  recent_month : string
}.

(** [COUNT(CASE WHEN cond THEN 1 END)] over the selected rows. *)
Definition COUNT (cond : ContactRow.t -> bool) (rows : list ContactRow.t)
  : nat :=
  length (filter (fun r => cond r = true) rows).

Definition bigint (n : nat) : string := JS.Number_toString (Z.of_nat n).

(** [col IS NOT NULL AND col != ''] *)
Definition filled (col : option string) : bool :=
  match col with
  | Some s => negb (bool_decide (s = ""))
  | None => false
  end.

(** [NOW() - INTERVAL 'n days'], in a session whose time zone has no
    daylight saving: a day is 86400000 ms. *)
Definition days_ago (now : Z) (n : Z) : Z := now - n * 86400000.

(** The statistics query: one [COUNT] over all rows of the owner and one
    [COUNT(CASE WHEN .. THEN 1 END)] per category. *)
Definition getStats (userId : string) : M Stats :=
  now <- Date_now ;;
  w <- get ;;
  let rows := filter (fun r => ContactRow.user_id r = userId) (contacts w) in
  let prio p r := bool_decide (ContactRow.priority r = p) in
  ret {| total := bigint (length rows);
         high_priority := bigint (COUNT (prio high) rows);
         medium_priority := bigint (COUNT (prio medium) rows);
         low_priority := bigint (COUNT (prio low) rows);
         with_email := bigint (COUNT (fun r => filled (ContactRow.email r)) rows);
         with_linkedin :=
           bigint (COUNT (fun r => filled (ContactRow.linkedin r)) rows);
         with_github := bigint (COUNT (fun r => filled (ContactRow.github r)) rows);
         recent_week :=
           bigint (COUNT (fun r => bool_decide
                                     (days_ago now 7 <= ContactRow.created_at r))
                         rows);
         recent_month :=
           bigint (COUNT (fun r => bool_decide
                                     (days_ago now 30 <= ContactRow.created_at r))
                         rows) |}.

(** [ORDER BY photo_taken_at DESC]: in descending order PostgreSQL puts
    [NULL] first. *)
Definition photo_taken_desc (a b : ContactRow.t) : Prop :=
  match ContactRow.photo_taken_at a, ContactRow.photo_taken_at b with
  | None, _ => True
  | Some _, None => False
  | Some x, Some y => y <= x
  end.

#[global] Instance photo_taken_desc_dec : RelDecision photo_taken_desc.
Proof.
  intros a b. unfold photo_taken_desc.
  destruct (ContactRow.photo_taken_at a), (ContactRow.photo_taken_at b); apply _.
Defined.

(** [photo_path IS NOT NULL OR photo_file_id IS NOT NULL] *)
Definition has_photo (r : ContactRow.t) : Prop :=
  is_Some (ContactRow.photo_path r) \/ is_Some (ContactRow.photo_file_id r).

#[global] Instance has_photo_dec r : Decision (has_photo r).
Proof. unfold has_photo. apply _. Defined.

(** [SELECT * FROM contacts WHERE user_id = $1 AND (photo_path IS NOT NULL
    OR photo_file_id IS NOT NULL) ORDER BY photo_taken_at DESC] *)
Definition getContactsWithPhotos (userId : string) : M (list Contact.t) :=
  w <- get ;;
  let rows :=
    merge_sort photo_taken_desc
      (filter (fun r => ContactRow.user_id r = userId /\ has_photo r)
              (contacts w)) in
  ret (mapRowToContact <$> rows).

End DatabaseContactManager.

(** ** [class BaseBuilderManager] *)

Module BaseBuilderManager.

Definition mapRowToBaseBuilder (row : BaseBuilder.t) : BaseBuilder.t :=
  {| BaseBuilder.id := BaseBuilder.id row;
     BaseBuilder.userId := BaseBuilder.userId row;
     BaseBuilder.data := BaseBuilder.data row;
     BaseBuilder.createdAt := BaseBuilder.createdAt row |}.

(** The columns of [CREATE TABLE base_builders]: a row whose values the
    table stores as they are. *)
Definition fits (row : BaseBuilder.t) : Prop :=
  let d := BaseBuilder.data row in
  Sql.VARCHAR 255 (BaseBuilder.id row)
  /\ Sql.VARCHAR 255 (BaseBuilder.userId row)
  /\ Sql.VARCHAR 255 (BuilderData.email d)
  /\ Sql.VARCHAR 255 (BuilderData.fullName d)
  /\ Forall Sql.TEXT (BuilderData.builderTypes d)
  /\ Sql.VARCHAR 50 (BuilderData.buildingOnBase d)
  /\ Sql.VARCHAR 255 (BuilderData.location d)
  /\ Sql.VARCHAR 255 (BuilderData.country d)
  /\ Sql.VARCHAR 10 (BuilderData.baseAmbassador d)
  /\ Sql.or_null (Sql.VARCHAR 255) (BuilderData.discordUsername d)
  /\ Sql.or_null (Sql.VARCHAR 255) (BuilderData.telegramUsername d)
  /\ Sql.or_null (Sql.VARCHAR 255) (BuilderData.twitterUsername d)
  /\ Sql.or_null (Sql.VARCHAR 255) (BuilderData.baseAppUsername d)
  /\ Sql.or_null (Sql.VARCHAR 500) (BuilderData.githubLink d)
  /\ Sql.or_null Sql.TEXT (BuilderData.relevantLinks d)
  /\ Sql.or_null (Sql.VARCHAR 500) (BuilderData.baseCoreContact d)
  /\ Sql.or_null (Sql.VARCHAR 255) (BuilderData.basename d)
  /\ Sql.or_null (Sql.VARCHAR 255) (BuilderData.walletAddress d)
  /\ Sql.or_null Sql.TEXT (BuilderData.additionalComments d).

#[global] Instance builder_fits_dec row : Decision (fits row).
Proof. unfold fits. apply _. Defined.

(** [INSERT INTO base_builders (...) VALUES (...) RETURNING *]: [id] is
    the primary key, there is no constraint on [user_id].  The row is
    taken to fit the columns ([fits]). *)
Definition INSERT_base_builders (row : BaseBuilder.t) : M BaseBuilder.t :=
  fun w =>
    if bool_decide (BaseBuilder.id row ∈ BaseBuilder.id <$> base_builders w)
    then (Throw (UniqueViolation "base_builders_pkey"), w)
    else (Ok row, set_base_builders (base_builders w ++ [row]) w).

Definition createBaseBuilder {ext : Externals} (userId : string)
    (builderData : BuilderData.t) : M BaseBuilder.t :=
  now <- Date_now ;;
  r <- Math_random_substr 9 ;;
  let id := "bb_" +:+ JS.Number_toString now +:+ "_" +:+ r in
  created_at <- Date_now ;;
  row <- INSERT_base_builders
    {| BaseBuilder.id := id;
       BaseBuilder.userId := userId;
       BaseBuilder.data := builderData;
       BaseBuilder.createdAt := created_at |} ;;
  ret (mapRowToBaseBuilder row).

(** [SELECT * FROM base_builders WHERE user_id = $1]; the first row or
    [null]. *)
Definition getBaseBuilderByUserId (userId : string)
  : M (option BaseBuilder.t) :=
  w <- get ;;
  let rows := filter (fun r => BaseBuilder.userId r = userId) (base_builders w) in
  ret (mapRowToBaseBuilder <$> head rows).

End BaseBuilderManager.

(** ** [class HybridStorageManager]

    The manager is taken after [initialize()] has succeeded: the PostgreSQL
    tables exist and [golemClient] is set; [pinata] is set when the
    environment has a [PINATA_JWT]. *)

Module HybridStorageManager.

Import JS.

Definition nullable (o : option string) : value :=
  match o with Some s => VString s | None => VNull end.

(** The object [mapRowToContact] builds, in the order of its literal. *)
Definition Contact_value (c : Contact.t) : value :=
  VObject
    [ ("id", VString (Contact.id c));
      ("userId", VString (Contact.userId c));
      ("name", VString (Contact.name c));
      ("position", nullable (Contact.position c));
      ("company", nullable (Contact.company c));
      ("email", nullable (Contact.email c));
      ("phone", nullable (Contact.phone c));
      ("linkedin", nullable (Contact.linkedin c));
      ("github", nullable (Contact.github c));
      ("telegram", nullable (Contact.telegram c));
      ("lens", nullable (Contact.lens c));
      ("farcaster", nullable (Contact.farcaster c));
      ("ens", nullable (Contact.ens c));
      ("location", nullable (Contact.location c));
      ("goal", nullable (Contact.goal c));
      ("notes", nullable (Contact.notes c));
      ("tags", VArray (VString <$> Contact.tags c));
      ("priority", VString (Priority_name (Contact.priority c)));
      ("createdAt", VDate (Contact.createdAt c));
      ("source", nullable (Contact.source c));
      ("photoPath", nullable (Contact.photoPath c));
      ("photoFileId", nullable (Contact.photoFileId c));
      ("photoTakenAt",
        match Contact.photoTakenAt c with
        | Some t => VDate t
        | None => VUndefined
        end);
      ("hasFacialData", VBool (Contact.hasFacialData c)) ].

(** The object [mapRowToBaseBuilder] builds, in the order of its literal. *)
Definition BaseBuilder_value (b : BaseBuilder.t) : value :=
  let d := BaseBuilder.data b in
  VObject
    [ ("id", VString (BaseBuilder.id b));
      ("userId", VString (BaseBuilder.userId b));
      ("email", VString (BuilderData.email d));
      ("fullName", VString (BuilderData.fullName d));
      ("builderTypes", VArray (VString <$> BuilderData.builderTypes d));
      ("buildingOnBase", VString (BuilderData.buildingOnBase d));
      ("location", VString (BuilderData.location d));
      ("country", VString (BuilderData.country d));
      ("baseAmbassador", VString (BuilderData.baseAmbassador d));
      ("discordUsername", nullable (BuilderData.discordUsername d));
      ("telegramUsername", nullable (BuilderData.telegramUsername d));
      ("twitterUsername", nullable (BuilderData.twitterUsername d));
      ("baseAppUsername", nullable (BuilderData.baseAppUsername d));
      ("githubLink", nullable (BuilderData.githubLink d));
      ("relevantLinks", nullable (BuilderData.relevantLinks d));
      ("baseCoreContact", nullable (BuilderData.baseCoreContact d));
      ("basename", nullable (BuilderData.basename d));
      ("walletAddress", nullable (BuilderData.walletAddress d));
      ("additionalComments", nullable (BuilderData.additionalComments d));
      ("createdAt", VDate (BaseBuilder.createdAt b)) ].

(** [String.prototype.includes] *)
Fixpoint includes (s sub : string) : bool :=
  String.prefix sub s
  || match s with
     | EmptyString => false
     | String _ s' => includes s' sub
     end.

Section with_externals.
Context {ext : Externals}.

(** [generateHash(data)]:
    [createHash('sha256').update(JSON.stringify(data,
    Object.keys(data).sort()), 'utf8').digest('hex')]; [None] and
    [TypeError] are the exception on [undefined] and [null]. *)
Definition digest (data : value) : option string :=
  match stringify_sorted toISOString data with
  | Some (Some jsonString) => Some (sha256_hex jsonString)
  | _ => None
  end.

Definition generateHash (data : value) : M string :=
  match digest data with
  | Some hex => ret hex
  | None => throw TypeError
  end.

(** [storeHashInGolem(hashData)]: one entity is created, nothing is
    ever updated or removed. *)
Definition storeHashInGolem (hashData : DataHash.t) : M unit :=
  timestamp <- Date_now ;;
  w <- get ;;
  put (set_golem (golem w ++ [Entity.mk hashData timestamp]) w).

Definition gateway_url (cid : string) : M string :=
  w <- get ;;
  ret ("https://" +:+ or_string (PINATA_GATEWAY w) "gateway.pinata.cloud"
       +:+ "/ipfs/" +:+ cid).

(** The condition of the inner [catch]: "If authentication fails or file
    size issues, use mock data for testing". *)
Definition uses_mock (message : string) : bool :=
  includes message "Authentication failed"
  || includes message "Not Authorized"
  || includes message "File size must be greater than 0".

Definition uploadImageToIPFS (imageBuffer : list Byte.byte)
    (filename : string) : M IPFSUploadResult.t :=
  w <- get ;;
  if negb (pinata w) then throw PinataNotInitialized else
  result <-
    match pinata_upload_public_file imageBuffer filename with
    | Uploaded cid size => ret (cid, size)
    | Rejected message =>
        if uses_mock message then
          r <- Math_random_substr 44 ;;
          let mockHash := "Qm" +:+ r in
          ret (mockHash, Z.of_nat (length imageBuffer))
        else throw (PinataError message)
    end ;;
  pinataUrl <- gateway_url (fst result) ;;
  ret {| IPFSUploadResult.ipfsHash := fst result;
         IPFSUploadResult.pinataUrl := pinataUrl;
         IPFSUploadResult.size :=
           if decide (snd result = 0) then Z.of_nat (length imageBuffer)
           else snd result |}.

(** Steps 2 of [addContact] and 3 of [addPhotoToContact]: anchor the
    hash of the IPFS hash. *)
Definition store_image_hash (userId contactId ipfsHash : string) : M unit :=
  now <- Date_now ;;
  r <- Math_random_substr 9 ;;
  h <- generateHash (VString ipfsHash) ;;
  createdAt <- Date_now ;;
  storeHashInGolem
    {| DataHash.id := "img_" +:+ Number_toString now +:+ "_" +:+ r;
       DataHash.dataType := DataType.image;
       DataHash.originalId := contactId;
       DataHash.userId := userId;
       DataHash.sha256Hash := h;
       DataHash.ipfsHash := Some ipfsHash;
       DataHash.createdAt := createdAt;
       DataHash.verified := true |}.

Definition photo_filename (contactId : string) : M string :=
  now <- Date_now ;;
  ret ("contact_" +:+ contactId +:+ "_" +:+ Number_toString now +:+ ".jpg").

Definition addContact (userId : string) (contactData : ContactData.t)
    (imageBuffer : option (list Byte.byte)) : M Contact.t :=
  contact <- DatabaseContactManager.addContact userId contactData ;;
  ipfsHash <-
    match imageBuffer with
    | Some buffer =>
        filename <- photo_filename (Contact.id contact) ;;
        ipfsResult <- uploadImageToIPFS buffer filename ;;
        photoTakenAt <- Date_now ;;
        DatabaseContactManager.addPhotoToContact userId (Contact.id contact)
          {| PhotoData.photoPath := Some (IPFSUploadResult.pinataUrl ipfsResult);
             PhotoData.photoFileId := Some (IPFSUploadResult.ipfsHash ipfsResult);
             PhotoData.photoTakenAt := Some photoTakenAt;
             PhotoData.hasFacialData := Some false |} ;;
        store_image_hash userId (Contact.id contact)
                         (IPFSUploadResult.ipfsHash ipfsResult) ;;
        ret (Some (IPFSUploadResult.ipfsHash ipfsResult))
    | None => ret None
    end ;;
  contactHash <- generateHash (Contact_value contact) ;;
  now <- Date_now ;;
  r <- Math_random_substr 9 ;;
  createdAt <- Date_now ;;
  storeHashInGolem
    {| DataHash.id := "contact_" +:+ Number_toString now +:+ "_" +:+ r;
       DataHash.dataType := DataType.contact;
       DataHash.originalId := Contact.id contact;
       DataHash.userId := userId;
       DataHash.sha256Hash := contactHash;
       DataHash.ipfsHash := ipfsHash;
       DataHash.createdAt := createdAt;
       DataHash.verified := true |} ;;
  ret contact.

Definition addBaseBuilder (userId : string) (builderData : BuilderData.t)
  : M BaseBuilder.t :=
  builder <- BaseBuilderManager.createBaseBuilder userId builderData ;;
  builderHash <- generateHash (BaseBuilder_value builder) ;;
  now <- Date_now ;;
  r <- Math_random_substr 9 ;;
  createdAt <- Date_now ;;
  storeHashInGolem
    {| DataHash.id := "builder_" +:+ Number_toString now +:+ "_" +:+ r;
       DataHash.dataType := DataType.base_builder;
       DataHash.originalId := BaseBuilder.id builder;
       DataHash.userId := userId;
       DataHash.sha256Hash := builderHash;
       DataHash.ipfsHash := None;
       DataHash.createdAt := createdAt;
       DataHash.verified := true |} ;;
  ret builder.


(** The ledger query of [verifyDataIntegrity],
    [type = "data_hash" && dataType = ".." && userId = ".." &&
    originalId = ".."], as the annotations it compares. *)
Record Query : Type := mkQuery {
  q_dataType : DataType.t;
  q_userId : string;
  q_originalId : string
}.

Definition satisfies (q : Query) (e : Entity.t) : Prop :=
  DataHash.dataType (Entity.storageValue e) = q_dataType q
  ∧ DataHash.userId (Entity.storageValue e) = q_userId q
  ∧ DataHash.originalId (Entity.storageValue e) = q_originalId q.

#[global] Instance satisfies_dec q e : Decision (satisfies q e).
Proof. unfold satisfies. apply _. Defined.

(** [golemClient.queryEntities(query)]: the matching entities among
    those the GolemDB index shows at the time of the call. *)
Definition answer (q : Query) (t : Z) (w : World) : list Entity.t :=
  filter (satisfies q) (golem_indexed t (golem w)).

Definition queryEntities (q : Query) : M (list Entity.t) :=
  w <- get ;;
  put (set_queries (S (queries w)) w) ;;
  ret (answer q (clock w) w).

(** A [while] loop: [OutOfFuel] when [fuel] iterations did not make the
    condition false. *)
Fixpoint while {S : Type} (fuel : nat) (cond : S -> bool)
    (body : S -> M S) (s : S) : M S :=
  if cond s then
    match fuel with
    | O => fun w => (OutOfFuel, w)
    | Datatypes.S fuel' => s' <- body s ;; while fuel' cond body s'
    end
  else ret s.

Definition maxAttempts : nat := 3.

(** The loop state [(results, attempts)]. *)
Definition retry_cond (s : list Entity.t * nat) : bool :=
  bool_decide (length (fst s) = 0%nat) && bool_decide (snd s < maxAttempts)%nat.

Definition retry_body (q : Query) (s : list Entity.t * nat)
  : M (list Entity.t * nat) :=
  let attempts := Datatypes.S (snd s) in
  results <- queryEntities q ;;
  (if bool_decide (length results = 0%nat)
      && bool_decide (attempts < maxAttempts)%nat
   then sleep 2000 else ret tt) ;;
  ret (results, attempts).

Record Verification : Type := mkVerification {
  isValid : bool;
  storedHash : string;
  currentHash : string
}.

(** Step 1 of [verifyDataIntegrity]: the current record, [None] when the
    relational store has none. *)
Definition current_data (userId : string) (dataType : DataType.t)
    (originalId : string) : M (option value) :=
  match dataType with
  | DataType.contact =>
      contacts <- DatabaseContactManager.getUserContacts userId ;;
      ret (Contact_value <$>
             find (fun c => bool_decide (Contact.id c = originalId)) contacts)
  | _ =>
      builder <- BaseBuilderManager.getBaseBuilderByUserId userId ;;
      ret (BaseBuilder_value <$> builder)
  end.

(** The record step 1 finds, as a function of the tables. *)
Definition current_record (userId : string) (dataType : DataType.t)
    (originalId : string) (w : World) : option value :=
  match dataType with
  | DataType.contact =>
      Contact_value <$>
        find (fun c => bool_decide (Contact.id c = originalId))
          (DatabaseContactManager.mapRowToContact <$>
             merge_sort DatabaseContactManager.created_desc
               (filter (fun r => ContactRow.user_id r = userId) (contacts w)))
  | _ =>
      BaseBuilder_value <$>
        head (filter (fun r => BaseBuilder.userId r = userId) (base_builders w))
  end.

Definition verifyDataIntegrity (fuel : nat) (userId : string)
    (dataType : DataType.t) (originalId : string) : M Verification :=
  currentData <- current_data userId dataType originalId ;;
  match currentData with
  | None => throw DataNotFoundInPostgreSQL
  | Some currentData =>
      currentHash <- generateHash currentData ;;
      let query := mkQuery dataType userId originalId in
      s <- while fuel retry_cond (retry_body query) ([], 0%nat) ;;
      match fst s with
      | [] => throw (HashNotFoundInGolemDB maxAttempts)
      | first :: _ =>
          let storedHash := DataHash.sha256Hash (Entity.storageValue first) in
          ret {| isValid := bool_decide (currentHash = storedHash);
                 storedHash := storedHash;
                 currentHash := currentHash |}
      end
  end.

Definition getUserContacts (userId : string) : M (list Contact.t) :=
  DatabaseContactManager.getUserContacts userId.

Definition searchContacts (userId query : string) : M (list Contact.t) :=
  DatabaseContactManager.searchContacts userId query.

(** The literal [{ deleted: true, contactId, timestamp: Date.now() }]. *)
Definition deletion_record (contactId : string) (timestamp : Z) : value :=
  VObject [ ("deleted", VBool true);
            ("contactId", VString contactId);
            ("timestamp", VNumber timestamp) ].

Definition deleteContact (userId contactId : string) : M bool :=
  deleted <- DatabaseContactManager.deleteContact userId contactId ;;
  (if deleted : bool then
     now <- Date_now ;;
     r <- Math_random_substr 9 ;;
     timestamp <- Date_now ;;
     h <- generateHash (deletion_record contactId timestamp) ;;
     createdAt <- Date_now ;;
     storeHashInGolem
       {| DataHash.id := "delete_" +:+ Number_toString now +:+ "_" +:+ r;
          DataHash.dataType := DataType.contact;
          DataHash.originalId := contactId;
          DataHash.userId := userId;
          DataHash.sha256Hash := h;
          DataHash.ipfsHash := None;
          DataHash.createdAt := createdAt;
          DataHash.verified := true |}
   else ret tt) ;;
  ret deleted.

Definition getBaseBuilderByUserId (userId : string)
  : M (option BaseBuilder.t) :=
  BaseBuilderManager.getBaseBuilderByUserId userId.

Definition addPhotoToContact (userId contactId : string)
    (imageBuffer : list Byte.byte) : M bool :=
  filename <- photo_filename contactId ;;
  ipfsResult <- uploadImageToIPFS imageBuffer filename ;;
  photoTakenAt <- Date_now ;;
  success <-
    DatabaseContactManager.addPhotoToContact userId contactId
      {| PhotoData.photoPath := Some (IPFSUploadResult.pinataUrl ipfsResult);
         PhotoData.photoFileId := Some (IPFSUploadResult.ipfsHash ipfsResult);
         PhotoData.photoTakenAt := Some photoTakenAt;
         PhotoData.hasFacialData := Some false |} ;;
  (if success : bool
   then store_image_hash userId contactId (IPFSUploadResult.ipfsHash ipfsResult)
   else ret tt) ;;
  ret success.

Definition getStats (userId : string) : M DatabaseContactManager.Stats :=
  DatabaseContactManager.getStats userId.

Definition getContactsWithPhotos (userId : string) : M (list Contact.t) :=
  DatabaseContactManager.getContactsWithPhotos userId.

(** [getIPFSGatewayURL(cid)] *)
Definition getIPFSGatewayURL (cid : string) : M string := gateway_url cid.

(** The query of [verifyIPFSHash],
    [type = "data_hash" && dataType = "image" && ipfsHash = ".."]:
    [storeHashInGolem] writes the [ipfsHash] annotation only when the
    field is a non-empty string. *)
Definition satisfies_image (ipfsHash : string) (e : Entity.t) : Prop :=
  DataHash.dataType (Entity.storageValue e) = DataType.image
  /\ DataHash.ipfsHash (Entity.storageValue e) = Some ipfsHash
  /\ ipfsHash <> "".

#[global] Instance satisfies_image_dec ipfsHash e :
  Decision (satisfies_image ipfsHash e).
Proof. unfold satisfies_image. apply _. Defined.

(** [verifyIPFSHash(ipfsHash)]: a single query, no retry.  The result
    [None] is the exception "IPFS hash not found in GolemDB". *)
Definition verifyIPFSHash (ipfsHash : string) : M (option Verification) :=
  currentHash <- generateHash (VString ipfsHash) ;;
  w <- get ;;
  put (set_queries (S (queries w)) w) ;;
  let results :=
    filter (satisfies_image ipfsHash) (golem_indexed (clock w) (golem w)) in
  match results with
  | [] => ret None
  | first :: _ =>
      let storedHash := DataHash.sha256Hash (Entity.storageValue first) in
      ret (Some {| isValid := bool_decide (currentHash = storedHash);
                   storedHash := storedHash;
                   currentHash := currentHash |})
  end.

End with_externals.

End HybridStorageManager.

(** ** String methods the bot uses ([String.prototype])

    A character of a string is taken as a UTF-16 code unit below 256. *)

Module JSString.

(** The code units of [WhiteSpace] and [LineTerminator] below 256: TAB,
    LF, VT, FF, CR, SP and NBSP. *)
Definition is_space (c : ascii) : bool :=
  let n := N_of_ascii c in
  ((9 <=? n) && (n <=? 13) || (n =? 32) || (n =? 160))%N.

Fixpoint trimStart (s : string) : string :=
  match s with
  | EmptyString => EmptyString
  | String c s' => if is_space c then trimStart s' else s
  end.

Fixpoint trimEnd (s : string) : string :=
  match s with
  | EmptyString => EmptyString
  | String c s' =>
      match trimEnd s' with
      | EmptyString => if is_space c then EmptyString else String c EmptyString
      | t => String c t
      end
  end.

(** [s.trim()] *)
Definition trim (s : string) : string := trimEnd (trimStart s).

(** Lower case of one code unit: [A]-[Z] and the capital letters of
    Latin-1 ([U+00C0]-[U+00DE] without the multiplication sign). *)
Definition lower_unit (c : ascii) : ascii :=
  let n := N_of_ascii c in
  if ((65 <=? n) && (n <=? 90)
      || (192 <=? n) && (n <=? 222) && negb (n =? 215))%N
  then ascii_of_N (n + 32) else c.

(** [s.toLowerCase()] *)
Fixpoint toLowerCase (s : string) : string :=
  match s with
  | EmptyString => EmptyString
  | String c s' => String (lower_unit c) (toLowerCase s')
  end.

(** [s.split(sep)] for a separator of one character. *)
Fixpoint split (sep : ascii) (s : string) : list string :=
  match s with
  | EmptyString => [EmptyString]
  | String c s' =>
      if decide (c = sep) then EmptyString :: split sep s'
      else match split sep s' with
           | x :: l => String c x :: l
           | [] => [String c EmptyString]
           end
  end.

(** [s.startsWith(p)] *)
Definition startsWith (s p : string) : bool := String.prefix p s.

(** [s.replace(c, '')] for a pattern of one character: the first
    occurrence is removed. *)
Fixpoint remove_first (c : ascii) (s : string) : string :=
  match s with
  | EmptyString => EmptyString
  | String x s' => if decide (x = c) then s' else String x (remove_first c s')
  end.

Definition LF : ascii := ascii_of_N 10.

(** A string that does not begin with white space. *)
Definition no_lead (s : string) : Prop :=
  match s with
  | EmptyString => True
  | String c _ => is_space c = false
  end.

End JSString.

(** The characters of a string. *)
Abbreviation chars := String.list_ascii_of_string.

(** ** The [/base_builders_network] handler of [src/bot.ts]

    The storage calls of the handler once the form has been parsed and
    has passed the check of its required fields ([required_fields]):
    [inl existing] is the "Already Submitted" reply, [inr builder] the
    success reply.  The template reply to a blank input, the "Missing
    Required Fields" reply and the [catch] around the calls are not
    part of it. *)

Module Bot.

(** The form passes [if (!builderData.email || !builderData.fullName ||
    !builderData.builderTypes || !builderData.buildingOnBase ||
    !builderData.location || !builderData.country)]: an array is never
    falsy, a string is when it is empty. *)
Definition required_fields (builderData : BuilderData.t) : Prop :=
  BuilderData.email builderData <> ""
  /\ BuilderData.fullName builderData <> ""
  /\ BuilderData.buildingOnBase builderData <> ""
  /\ BuilderData.location builderData <> ""
  /\ BuilderData.country builderData <> "".

#[global] Instance required_fields_dec d : Decision (required_fields d).
Proof. unfold required_fields. apply _. Defined.

Definition base_builders_network {ext : Externals} (userId : string)
    (builderData : BuilderData.t) : M (BaseBuilder.t + BaseBuilder.t) :=
  existingBuilder <- HybridStorageManager.getBaseBuilderByUserId userId ;;
  match existingBuilder with
  | Some existing => ret (inl existing)
  | None =>
      builder <- HybridStorageManager.addBaseBuilder userId builderData ;;
      ret (inr builder)
  end.

(** *** [parseContactData] and the [/add] command ([src/bot.ts]) *)

Import JSString.

(** [contact.name = v] *)
Definition set_name (v : string) (contact : ContactData.t) : ContactData.t :=
  let 'ContactData.mk name position company email phone linkedin github
      telegram lens farcaster ens location goal notes tags priority source
      photoPath photoFileId photoTakenAt hasFacialData := contact in
  ContactData.mk (Some v) position company email phone linkedin github
    telegram lens farcaster ens location goal notes tags priority source
    photoPath photoFileId photoTakenAt hasFacialData.

(** [contact.position = v] *)
Definition set_position (v : string) (contact : ContactData.t) : ContactData.t :=
  let 'ContactData.mk name position company email phone linkedin github
      telegram lens farcaster ens location goal notes tags priority source
      photoPath photoFileId photoTakenAt hasFacialData := contact in
  ContactData.mk name (Some v) company email phone linkedin github telegram
    lens farcaster ens location goal notes tags priority source photoPath
    photoFileId photoTakenAt hasFacialData.

(** [contact.company = v] *)
Definition set_company (v : string) (contact : ContactData.t) : ContactData.t :=
  let 'ContactData.mk name position company email phone linkedin github
      telegram lens farcaster ens location goal notes tags priority source
      photoPath photoFileId photoTakenAt hasFacialData := contact in
  ContactData.mk name position (Some v) email phone linkedin github telegram
    lens farcaster ens location goal notes tags priority source photoPath
    photoFileId photoTakenAt hasFacialData.

(** [contact.email = v] *)
Definition set_email (v : string) (contact : ContactData.t) : ContactData.t :=
  let 'ContactData.mk name position company email phone linkedin github
      telegram lens farcaster ens location goal notes tags priority source
      photoPath photoFileId photoTakenAt hasFacialData := contact in
  ContactData.mk name position company (Some v) phone linkedin github telegram
    lens farcaster ens location goal notes tags priority source photoPath
    photoFileId photoTakenAt hasFacialData.

(** [contact.phone = v] *)
Definition set_phone (v : string) (contact : ContactData.t) : ContactData.t :=
  let 'ContactData.mk name position company email phone linkedin github
      telegram lens farcaster ens location goal notes tags priority source
      photoPath photoFileId photoTakenAt hasFacialData := contact in
  ContactData.mk name position company email (Some v) linkedin github telegram
    lens farcaster ens location goal notes tags priority source photoPath
    photoFileId photoTakenAt hasFacialData.

(** [contact.linkedin = v] *)
Definition set_linkedin (v : string) (contact : ContactData.t) : ContactData.t :=
  let 'ContactData.mk name position company email phone linkedin github
      telegram lens farcaster ens location goal notes tags priority source
      photoPath photoFileId photoTakenAt hasFacialData := contact in
  ContactData.mk name position company email phone (Some v) github telegram
    lens farcaster ens location goal notes tags priority source photoPath
    photoFileId photoTakenAt hasFacialData.

(** [contact.github = v] *)
Definition set_github (v : string) (contact : ContactData.t) : ContactData.t :=
  let 'ContactData.mk name position company email phone linkedin github
      telegram lens farcaster ens location goal notes tags priority source
      photoPath photoFileId photoTakenAt hasFacialData := contact in
  ContactData.mk name position company email phone linkedin (Some v) telegram
    lens farcaster ens location goal notes tags priority source photoPath
    photoFileId photoTakenAt hasFacialData.

(** [contact.telegram = v] *)
Definition set_telegram (v : string) (contact : ContactData.t) : ContactData.t :=
  let 'ContactData.mk name position company email phone linkedin github
      telegram lens farcaster ens location goal notes tags priority source
      photoPath photoFileId photoTakenAt hasFacialData := contact in
  ContactData.mk name position company email phone linkedin github (Some v)
    lens farcaster ens location goal notes tags priority source photoPath
    photoFileId photoTakenAt hasFacialData.

(** [contact.lens = v] *)
Definition set_lens (v : string) (contact : ContactData.t) : ContactData.t :=
  let 'ContactData.mk name position company email phone linkedin github
      telegram lens farcaster ens location goal notes tags priority source
      photoPath photoFileId photoTakenAt hasFacialData := contact in
  ContactData.mk name position company email phone linkedin github telegram
    (Some v) farcaster ens location goal notes tags priority source photoPath
    photoFileId photoTakenAt hasFacialData.

(** [contact.farcaster = v] *)
Definition set_farcaster (v : string) (contact : ContactData.t) : ContactData.t :=
  let 'ContactData.mk name position company email phone linkedin github
      telegram lens farcaster ens location goal notes tags priority source
      photoPath photoFileId photoTakenAt hasFacialData := contact in
  ContactData.mk name position company email phone linkedin github telegram
    lens (Some v) ens location goal notes tags priority source photoPath
    photoFileId photoTakenAt hasFacialData.

(** [contact.ens = v] *)
Definition set_ens (v : string) (contact : ContactData.t) : ContactData.t :=
  let 'ContactData.mk name position company email phone linkedin github
      telegram lens farcaster ens location goal notes tags priority source
      photoPath photoFileId photoTakenAt hasFacialData := contact in
  ContactData.mk name position company email phone linkedin github telegram
    lens farcaster (Some v) location goal notes tags priority source photoPath
    photoFileId photoTakenAt hasFacialData.

(** [contact.location = v] *)
Definition set_location (v : string) (contact : ContactData.t) : ContactData.t :=
  let 'ContactData.mk name position company email phone linkedin github
      telegram lens farcaster ens location goal notes tags priority source
      photoPath photoFileId photoTakenAt hasFacialData := contact in
  ContactData.mk name position company email phone linkedin github telegram
    lens farcaster ens (Some v) goal notes tags priority source photoPath
    photoFileId photoTakenAt hasFacialData.

(** [contact.goal = v] *)
Definition set_goal (v : string) (contact : ContactData.t) : ContactData.t :=
  let 'ContactData.mk name position company email phone linkedin github
      telegram lens farcaster ens location goal notes tags priority source
      photoPath photoFileId photoTakenAt hasFacialData := contact in
  ContactData.mk name position company email phone linkedin github telegram
    lens farcaster ens location (Some v) notes tags priority source photoPath
    photoFileId photoTakenAt hasFacialData.

(** [contact.notes = v] *)
Definition set_notes (v : string) (contact : ContactData.t) : ContactData.t :=
  let 'ContactData.mk name position company email phone linkedin github
      telegram lens farcaster ens location goal notes tags priority source
      photoPath photoFileId photoTakenAt hasFacialData := contact in
  ContactData.mk name position company email phone linkedin github telegram
    lens farcaster ens location goal (Some v) tags priority source photoPath
    photoFileId photoTakenAt hasFacialData.

(** [contact.tags = v] *)
Definition set_tags (v : list string) (contact : ContactData.t) : ContactData.t :=
  let 'ContactData.mk name position company email phone linkedin github
      telegram lens farcaster ens location goal notes tags priority source
      photoPath photoFileId photoTakenAt hasFacialData := contact in
  ContactData.mk name position company email phone linkedin github telegram
    lens farcaster ens location goal notes (Some v) priority source photoPath
    photoFileId photoTakenAt hasFacialData.

(** [contact.priority = v] *)
Definition set_priority (v : Priority) (contact : ContactData.t) : ContactData.t :=
  let 'ContactData.mk name position company email phone linkedin github
      telegram lens farcaster ens location goal notes tags priority source
      photoPath photoFileId photoTakenAt hasFacialData := contact in
  ContactData.mk name position company email phone linkedin github telegram
    lens farcaster ens location goal notes tags (Some v) source photoPath
    photoFileId photoTakenAt hasFacialData.

(** [contact.source = v] *)
Definition set_source (v : string) (contact : ContactData.t) : ContactData.t :=
  let 'ContactData.mk name position company email phone linkedin github
      telegram lens farcaster ens location goal notes tags priority source
      photoPath photoFileId photoTakenAt hasFacialData := contact in
  ContactData.mk name position company email phone linkedin github telegram
    lens farcaster ens location goal notes tags priority (Some v) photoPath
    photoFileId photoTakenAt hasFacialData.

(** [value.split(',').map(tag => tag.trim()).filter(tag => tag)] *)
Definition parse_tags (value : string) : list string :=
  filter (fun tag => tag <> "") (trim <$> split "," value).

(** [['high', 'medium', 'low'].includes(value.toLowerCase())] and the
    cast that follows. *)
Definition parse_priority (value : string) : option Priority :=
  let v := toLowerCase value in
  if decide (v = "high") then Some high
  else if decide (v = "medium") then Some medium
  else if decide (v = "low") then Some low
  else None.

(** The [switch (lowerKey)] of [parseContactData]. *)
Definition assign (lowerKey value : string) (contact : ContactData.t)
  : ContactData.t :=
  if bool_decide (lowerKey = "name") then set_name value contact
  else if bool_decide (lowerKey ∈ ["position"; "title"; "job"])
  then set_position value contact
  else if bool_decide (lowerKey ∈ ["company"; "organization"])
  then set_company value contact
  else if bool_decide (lowerKey = "email") then set_email value contact
  else if bool_decide (lowerKey ∈ ["phone"; "mobile"])
  then set_phone value contact
  else if bool_decide (lowerKey = "linkedin")
  then set_linkedin
         (if startsWith value "http" then value
          else "https://linkedin.com/in/" +:+ value) contact
  else if bool_decide (lowerKey = "github")
  then set_github
         (if startsWith value "http" then value
          else "https://github.com/" +:+ remove_first "@" value) contact
  else if bool_decide (lowerKey = "telegram")
  then set_telegram (if startsWith value "@" then value else "@" +:+ value)
                    contact
  else if bool_decide (lowerKey = "lens") then set_lens value contact
  else if bool_decide (lowerKey = "farcaster")
  then set_farcaster (if startsWith value "@" then value else "@" +:+ value)
                     contact
  else if bool_decide (lowerKey = "ens") then set_ens value contact
  else if bool_decide (lowerKey ∈ ["location"; "city"])
  then set_location value contact
  else if bool_decide (lowerKey ∈ ["goal"; "objective"])
  then set_goal value contact
  else if bool_decide (lowerKey ∈ ["notes"; "note"])
  then set_notes value contact
  else if bool_decide (lowerKey ∈ ["tags"; "tag"])
  then set_tags (parse_tags value) contact
  else if bool_decide (lowerKey = "priority")
  then match parse_priority value with
       | Some p => set_priority p contact
       | None => contact
       end
  else if bool_decide (lowerKey ∈ ["source"; "event"])
  then set_source value contact
  else contact.

(** The body of the loop over the lines:
    [const [key, ...valueParts] = line.split(':')]. *)
Definition parse_line (contact : ContactData.t) (line : string)
  : ContactData.t :=
  match split ":" line with
  | key :: valueParts =>
      if bool_decide (key <> "") && bool_decide (0 < length valueParts)%nat
      then
        let value := trim (JS.join ":" valueParts) in
        let lowerKey := trim (toLowerCase key) in
        assign lowerKey value contact
      else contact
  | [] => contact
  end.

(** [text.split('\n').map(line => line.trim()).filter(line => line)] *)
Definition lines (text : string) : list string :=
  filter (fun line => line <> "") (trim <$> split LF text).

Definition parseContactData (text : string) : ContactData.t :=
  fold_left parse_line (lines text) ContactData.empty.

(** What the [/add] handler replies. *)
Inductive AddReply : Type :=
  | Template
  | QuickAdded (contact : Contact.t)
  | NameRequired
  | Added (contact : Contact.t)
  | AddError.

(** [try { .. } catch (error) { .. }] *)
Definition catch {A : Type} (m : M A) (handler : Error -> M A) : M A :=
  fun w =>
    match m w with
    | (Throw e, w') => handler e w'
    | r => r
    end.

(** The object literal of the quick format,
    [{ name: parts[0] || 'Unknown', company: parts[1] || '',
       email: parts[2] || '', priority: 'medium' }]. *)
Definition quick_contact (parts : list string) : ContactData.t :=
  set_priority medium
    (set_email (or_string (parts !! 2%nat) "")
       (set_company (or_string (parts !! 1%nat) "")
          (set_name (or_string (parts !! 0%nat) "Unknown")
             ContactData.empty))).

(** [bot.command('add', ..)] with [input = ctx.match] and
    [userId = ctx.from.id.toString()]. *)
Definition add {ext : Externals} (userId input : string) : M AddReply :=
  if bool_decide (trim input = "") then ret Template else
  catch
    (if HybridStorageManager.includes input ","
        && negb (HybridStorageManager.includes input ":")
     then
       let parts := trim <$> split "," input in
       contact <- HybridStorageManager.addContact userId
                    (quick_contact parts) None ;;
       ret (QuickAdded contact)
     else
       let contactData := parseContactData input in
       if bool_decide (or_string (ContactData.name contactData) "" = "")
       then ret NameRequired
       else
         contact <- HybridStorageManager.addContact userId contactData None ;;
         ret (Added contact))
    (fun _ => ret AddError).

(** What the parser guarantees about the handles, the links and the
    tags of its result. *)
Definition normalised (d : ContactData.t) : Prop :=
  (forall v, ContactData.telegram d = Some v -> JSString.startsWith v "@" = true)
  /\ (forall v, ContactData.farcaster d = Some v ->
        JSString.startsWith v "@" = true)
  /\ (forall v, ContactData.linkedin d = Some v ->
        JSString.startsWith v "http" = true)
  /\ (forall v, ContactData.github d = Some v ->
        JSString.startsWith v "http" = true)
  /\ (forall ts t, ContactData.tags d = Some ts -> t ∈ ts ->
        t <> "" /\ JSString.trim t = t /\ ","%char ∉ chars t).

End Bot.

(** ** A concrete environment

    Stand-ins for the outside world with which the operations can be run:
    the digest wraps its input so that it stays readable, every draw of
    [Math.random] is different and has eleven base-36 digits, Pinata
    rejects the empty file the way the service words it, and the GolemDB
    index shows every entity at once. *)

Module Demo.

Definition externals : Externals :=
  {| sha256_hex := fun s => "sha256(" +:+ s +:+ ")";
     toISOString := fun ms => "T" +:+ JS.Number_toString ms;
     Math_random_base36 := fun n =>
       JS.Number_toString (Z.of_nat n) +:+ "k3x9q0a7zt";
     pinata_upload_public_file := fun buffer filename =>
       match buffer with
       | [] => Rejected "File size must be greater than 0"
       | _ => Uploaded ("QmStored_" +:+ filename) (Z.of_nat (length buffer))
       end;
     golem_indexed := fun _ entities => entities |}.

(** A GolemDB whose index never shows anything. *)
Definition never_indexed : Externals :=
  {| sha256_hex := sha256_hex (Externals := externals);
     toISOString := toISOString (Externals := externals);
     Math_random_base36 := Math_random_base36 (Externals := externals);
     pinata_upload_public_file :=
       pinata_upload_public_file (Externals := externals);
     golem_indexed := fun _ _ => [] |}.

(** A Pinata that refuses payloads under 1 KB in words of its own. *)
Definition rejects_small : Externals :=
  {| sha256_hex := sha256_hex (Externals := externals);
     toISOString := toISOString (Externals := externals);
     Math_random_base36 := Math_random_base36 (Externals := externals);
     pinata_upload_public_file := fun buffer filename =>
       if bool_decide (length buffer < 1024)%nat
       then Rejected "File too small"
       else Uploaded ("QmStored_" +:+ filename) (Z.of_nat (length buffer));
     golem_indexed := fun _ entities => entities |}.

(** A buffer of 37 bytes. *)
Definition small_photo : list Byte.byte := replicate 37 Byte.x2a.

(** An initialised manager over empty stores. *)
Definition empty_world : World :=
  {| contacts := []; base_builders := []; golem := []; pinata := true;
     PINATA_GATEWAY := None; clock := 1700000000000; draws := 0;
     queries := 0 |}.

Definition sarah : ContactData.t :=
  {| ContactData.name := Some "Sarah Chen";
     ContactData.position := None;
     ContactData.company := Some "Ethereum Foundation";
     ContactData.email := None; ContactData.phone := None;
     ContactData.linkedin := None; ContactData.github := None;
     ContactData.telegram := None; ContactData.lens := None;
     ContactData.farcaster := None; ContactData.ens := None;
     ContactData.location := None; ContactData.goal := None;
     ContactData.notes := None; ContactData.tags := Some ["ethereum"];
     ContactData.priority := Some high; ContactData.source := None;
     ContactData.photoPath := None; ContactData.photoFileId := None;
     ContactData.photoTakenAt := None; ContactData.hasFacialData := None |}.

Definition application (fullName : string) : BuilderData.t :=
  {| BuilderData.email := "alice@ethereum.org";
     BuilderData.fullName := fullName;
     BuilderData.builderTypes := ["Developer"; "Advocate"];
     BuilderData.buildingOnBase := "Yes";
     BuilderData.location := "North America";
     BuilderData.country := "USA";
     BuilderData.baseAmbassador := "Yes";
     BuilderData.discordUsername := None;
     BuilderData.telegramUsername := Some "@aliceeth";
     BuilderData.twitterUsername := None;
     BuilderData.baseAppUsername := None;
     BuilderData.githubLink := None;
     BuilderData.relevantLinks := None;
     BuilderData.baseCoreContact := None;
     BuilderData.basename := None;
     BuilderData.walletAddress := None;
     BuilderData.additionalComments := None |}.

(** The world after running [m]. *)
Definition after {A : Type} (m : M A) (w : World) : World := snd (m w).

(** Time passing between two calls. *)
Definition later (ms : Z) (w : World) : World := set_clock (clock w + ms) w.

End Demo.

(** ** Histories of calls *)

(** The entities [storeHashInGolem] is given by the manager: flagged
    verified, and an [image] entity carries the digest of its own
    [ipfsHash]. *)
Definition written {ext : Externals} (e : Entity.t) : Prop :=
  DataHash.verified (Entity.storageValue e) = true
  /\ (DataHash.dataType (Entity.storageValue e) = DataType.image ->
      exists h : string,
        DataHash.ipfsHash (Entity.storageValue e) = Some h
        /\ HybridStorageManager.digest (JS.VString h)
           = Some (DataHash.sha256Hash (Entity.storageValue e))).

(** The photo update of the database manager, as a map over the table. *)
Definition attach (userId contactId : string) (path file : option string)
    (taken : Z) (r : ContactRow.t) : ContactRow.t :=
  if decide (DatabaseContactManager.selected userId contactId r)
  then DatabaseContactManager.UPDATE_photo path file taken false r
  else r.

(** A property of the stores that survives every write the two database
    managers and [storeHashInGolem] can make. *)
Record Closed {ext : Externals}
    (P : list ContactRow.t * list BaseBuilder.t * list Entity.t -> Prop)
  : Prop := {
  closed_insert : forall c b g r,
    P (c, b, g) -> ContactRow.id r ∉ ContactRow.id <$> c -> P (c ++ [r], b, g);
  closed_delete : forall c b g userId contactId,
    P (c, b, g) ->
    P (filter (fun r => ~ DatabaseContactManager.selected userId contactId r) c, b, g);
  closed_update : forall c b g userId contactId path file taken facial,
    P (c, b, g) ->
    P ((fun r => if decide (DatabaseContactManager.selected userId contactId r)
                 then DatabaseContactManager.UPDATE_photo path file taken facial r
                 else r) <$> c, b, g);
  closed_builder : forall c b g r,
    P (c, b, g) -> BaseBuilder.id r ∉ BaseBuilder.id <$> b -> P (c, b ++ [r], g);
  closed_append : forall c b g e,
    P (c, b, g) -> written e -> P (c, b, g ++ [e])
}.

(** The public operations of [HybridStorageManager]. *)
Module Call.
Inductive t : Type :=
  | addContact (userId : string) (contactData : ContactData.t)
      (imageBuffer : option (list Byte.byte))
  | addBaseBuilder (userId : string) (builderData : BuilderData.t)
  | verifyDataIntegrity (fuel : nat) (userId : string) (dataType : DataType.t)
      (originalId : string)
  | getUserContacts (userId : string)
  | searchContacts (userId query : string)
  | deleteContact (userId contactId : string)
  | getStats (userId : string)
  | getBaseBuilderByUserId (userId : string)
  | addPhotoToContact (userId contactId : string) (imageBuffer : list Byte.byte)
  | getContactsWithPhotos (userId : string)
  | verifyIPFSHash (ipfsHash : string).
End Call.

(** The world a call leaves behind, whether it returns or throws. *)
Definition perform {ext : Externals} (call : Call.t) (w : World) : World :=
  match call with
  | Call.addContact u d i => snd (HybridStorageManager.addContact u d i w)
  | Call.addBaseBuilder u d => snd (HybridStorageManager.addBaseBuilder u d w)
  | Call.verifyDataIntegrity n u t i =>
      snd (HybridStorageManager.verifyDataIntegrity n u t i w)
  | Call.getUserContacts u => snd (HybridStorageManager.getUserContacts u w)
  | Call.searchContacts u q => snd (HybridStorageManager.searchContacts u q w)
  | Call.deleteContact u i => snd (HybridStorageManager.deleteContact u i w)
  | Call.getStats u => snd (HybridStorageManager.getStats u w)
  | Call.getBaseBuilderByUserId u =>
      snd (HybridStorageManager.getBaseBuilderByUserId u w)
  | Call.addPhotoToContact u i b =>
      snd (HybridStorageManager.addPhotoToContact u i b w)
  | Call.getContactsWithPhotos u =>
      snd (HybridStorageManager.getContactsWithPhotos u w)
  | Call.verifyIPFSHash h => snd (HybridStorageManager.verifyIPFSHash h w)
  end.

(** A history of calls, each made [dt] ms after the previous one
    returned. *)
Definition run {ext : Externals} (history : list (Z * Call.t)) (w : World)
  : World :=
  foldl (fun w step => perform (snd step) (set_clock (clock w + fst step) w))
        w history.



(** ** Searching *)

(** A query without the pattern characters of [LIKE]. *)
Definition wildcard_free (q : string) : Prop :=
  Forall (fun c : ascii => c <> "%"%char /\ c <> "_"%char /\ c <> "\"%char)
         (String.list_ascii_of_string q).

(** Text of ASCII characters only. *)
Definition ascii_only (s : string) : Prop :=
  Forall (fun c : ascii => (N_of_ascii c < 128)%N)
         (String.list_ascii_of_string s).

#[global] Instance ascii_only_dec s : Decision (ascii_only s).
Proof. unfold ascii_only. apply _. Defined.

(** [q] occurs in [s]. *)
Definition contains (s q : string) : Prop :=
  exists a b : string, s = a +:+ q +:+ b.

(** The text the search query looks at: the nine columns of its [WHERE]
    clause that are not [NULL], and the tags. *)
Definition searched (r : ContactRow.t) : list string :=
  ContactRow.name r
  :: omap id [ ContactRow.company r; ContactRow.position r;
               ContactRow.email r; ContactRow.linkedin r;
               ContactRow.github r; ContactRow.telegram r;
               ContactRow.location r; ContactRow.source r ]
  ++ default [] (ContactRow.tags r).

(** Newest first, on contacts. *)
Definition newest_first (a b : Contact.t) : Prop :=
  Contact.createdAt b <= Contact.createdAt a.

(** A start without [PINATA_JWT]: no Pinata client. *)
Definition unconfigured_world : World :=
  {| contacts := []; base_builders := []; golem := []; pinata := false;
     PINATA_GATEWAY := None; clock := 1700000000000; draws := 0;
     queries := 0 |}.

(** * Properties *)

(** ** Canonical digest *)

Section digest.
Import JS.

Lemma assoc_Some {A : Type} (k : string) (v : A) (o : list (string * A)) :
  NoDup (keys o) -> assoc k o = Some v <-> (k, v) ∈ o.
Proof.
  unfold keys. induction o as [|[k' v'] o IH]; simpl; intros Hnd.
  - split; [discriminate | intros H; inversion H].
  - apply NoDup_cons in Hnd as [Hk' Hnd]. destruct (decide (k = k')) as [->|Hne].
    + split.
      * intros [= ->]. left.
      * intros [[= ->]|Hin]%elem_of_cons; [done|].
        exfalso. apply Hk'. apply list_elem_of_fmap. by exists (k', v).
    + rewrite IH by done. split.
      * by right.
      * intros [[= -> ->]|Hin]%elem_of_cons; [done|exact Hin].
Qed.

Lemma assoc_Permutation {A : Type} (k : string) (o1 o2 : list (string * A)) :
  NoDup (keys o1) -> o1 ≡ₚ o2 -> assoc k o1 = assoc k o2.
Proof.
  intros Hnd Hp.
  assert (Hnd2 : NoDup (keys o2)) by (unfold keys in *; by rewrite <- Hp).
  destruct (assoc k o1) as [v|] eqn:E1.
  - symmetry. apply assoc_Some; [done|]. rewrite <- Hp. by apply assoc_Some.
  - destruct (assoc k o2) as [v|] eqn:E2; [|done].
    apply assoc_Some in E2; [|done]. rewrite <- Hp in E2.
    apply assoc_Some in E2; [|done]. congruence.
Qed.

Lemma sort_keys_Permutation (l1 l2 : list string) :
  l1 ≡ₚ l2 -> sort_keys l1 = sort_keys l2.
Proof.
  intros Hp. unfold sort_keys.
  apply (StronglySorted_unique String.le).
  - apply StronglySorted_merge_sort; apply _.
  - apply StronglySorted_merge_sort; apply _.
  - by rewrite !merge_sort_Permutation.
Qed.

Variable toISO : Z -> string.

Lemma SerializeJSONProperty_object K props :
  SerializeJSONProperty toISO K (VObject props)
  = Some ("{" +:+ join "," (members K (serialised toISO K props)) +:+ "}").
Proof.
  cbn [SerializeJSONProperty].
  match goal with
  | |- context [members K ?g] => assert (Hgo : g = serialised toISO K props)
  end.
  { unfold serialised. induction props as [|[k x] props IH]; [done|].
    cbn [fmap list_fmap prod_map fst snd id]. by rewrite <- IH. }
  by rewrite Hgo.
Qed.

Lemma keys_serialised K props : keys (serialised toISO K props) = keys props.
Proof.
  unfold keys, serialised. rewrite <- list_fmap_compose.
  apply list_fmap_ext. by intros ? [].
Qed.

Lemma members_Permutation K (s1 s2 : list (string * option string)) :
  NoDup (keys s1) -> s1 ≡ₚ s2 -> members K s1 = members K s2.
Proof.
  intros Hnd Hp. unfold members. apply list_omap_ext.
  apply Forall2_same_length_lookup_2; [done|]. 
  intros i k k' Hk Hk'. rewrite Hk in Hk'. injection Hk' as <-.
  by rewrite (assoc_Permutation k s1 s2).
Qed.
End digest.

(** C3. Canonicalisation: two record objects that hold the same key/value
    pairs, whatever the insertion order of each, get the same hex digest
    from [generateHash]; the digest exists and does not depend on the state
    of the stores. *)
Theorem generateHash_insertion_order {ext : Externals}
    (o1 o2 : list (string * JS.value)) (w1 w2 : World) :
  NoDup (JS.keys o1) ->
  o1 ≡ₚ o2 ->
  exists digest : string,
    HybridStorageManager.generateHash (JS.VObject o1) w1 = (Ok digest, w1)
    /\ HybridStorageManager.generateHash (JS.VObject o2) w2 = (Ok digest, w2).
Proof.
  intros Hnd Hp.
  unfold HybridStorageManager.generateHash, HybridStorageManager.digest.
  unfold JS.stringify_sorted.
  cbn [JS.Object_keys mbind option_bind].
  rewrite !SerializeJSONProperty_object.
  assert (HK : JS.sort_keys (JS.keys o1) = JS.sort_keys (JS.keys o2)).
  { apply sort_keys_Permutation. unfold JS.keys. by rewrite Hp. }
  rewrite <- HK.
  rewrite (members_Permutation _ (JS.serialised toISOString (JS.sort_keys (JS.keys o1)) o1)
             (JS.serialised toISOString (JS.sort_keys (JS.keys o1)) o2)).
  - eexists. split; reflexivity.
  - by rewrite keys_serialised.
  - unfold JS.serialised. by apply fmap_Permutation.
Qed.

Lemma generateHash_insertion_order_witness :
  exists digest : string,
    HybridStorageManager.generateHash (ext := Demo.externals)
      (JS.VObject [ ("name", JS.VString "Sarah Chen");
                    ("company", JS.VString "Ethereum Foundation");
                    ("priority", JS.VString "high") ])
      Demo.empty_world = (Ok digest, Demo.empty_world)
    /\ HybridStorageManager.generateHash (ext := Demo.externals)
         (JS.VObject [ ("priority", JS.VString "high");
                       ("name", JS.VString "Sarah Chen");
                       ("company", JS.VString "Ethereum Foundation") ])
         (Demo.later 5 Demo.empty_world) = (Ok digest, Demo.later 5 Demo.empty_world).
Proof.
  apply (generateHash_insertion_order (ext := Demo.externals)).
  - apply (bool_decide_unpack _). vm_compute. exact I.
  - symmetry. apply (Permutation_cons_append [_; _]).
Defined.

(** ** Inserting contacts *)

Section inserting.
Context {ext : Externals}.

Lemma mapRowToContact_values (c : Contact.t) :
  DatabaseContactManager.mapRowToContact (DatabaseContactManager.values c) = c.
Proof. by destruct c. Qed.

(** The whole of [DatabaseContactManager.addContact] in one step. *)
Lemma db_addContact_unfold (userId : string) (contactData : ContactData.t)
    (w : World) :
  let c := DatabaseContactManager.new_contact userId contactData (clock w) (clock w) in
  DatabaseContactManager.addContact userId contactData w =
    if bool_decide (JS.Number_toString (clock w) ∈ ContactRow.id <$> contacts w)
    then (Throw (UniqueViolation "contacts_pkey"), w)
    else (Ok c, set_contacts (contacts w ++ [DatabaseContactManager.values c]) w).
Proof.
  intros c. unfold DatabaseContactManager.addContact, bind, Date_now.
  unfold DatabaseContactManager.INSERT_contacts.
  change (ContactRow.id (DatabaseContactManager.values
            (DatabaseContactManager.new_contact userId contactData (clock w) (clock w))))
    with (JS.Number_toString (clock w)).
  case_bool_decide; [done|].
  unfold ret. by rewrite mapRowToContact_values.
Qed.

Lemma digest_object (props : list (string * JS.value)) :
  is_Some (HybridStorageManager.digest (JS.VObject props)).
Proof.
  unfold HybridStorageManager.digest, JS.stringify_sorted.
  cbn [JS.Object_keys mbind option_bind].
  rewrite SerializeJSONProperty_object. by eexists.
Qed.

Lemma digest_string (s : string) :
  HybridStorageManager.digest (JS.VString s)
  = Some (sha256_hex (JS.QuoteJSONString s)).
Proof. reflexivity. Qed.

Lemma generateHash_Some (data : JS.value) (hex : string) (w : World) :
  HybridStorageManager.digest data = Some hex ->
  HybridStorageManager.generateHash data w = (Ok hex, w).
Proof. unfold HybridStorageManager.generateHash. by intros ->. Qed.

End inserting.

(** C9. The identifier [addContact] assigns is the decimal string of the
    clock reading in milliseconds, whoever the owner is; a second
    [addContact] in the same millisecond, by any owner and with any data
    that fits the columns, computes the same identifier and is refused by
    the primary key, leaving the table as it was. *)
Theorem addContact_id_is_Date_now (userId userId' : string)
    (contactData contactData' : ContactData.t) (w w1 w2 : World)
    (c : Contact.t) :
  DatabaseContactManager.addContact userId contactData w = (Ok c, w1) ->
  contacts w2 = contacts w1 ->
  clock w2 = clock w ->
  Contact.id c = JS.Number_toString (clock w)
  /\ (DatabaseContactManager.fits
        (DatabaseContactManager.values
           (DatabaseContactManager.new_contact userId' contactData'
              (clock w2) (clock w2))) ->
      DatabaseContactManager.addContact userId' contactData' w2
      = (Throw (UniqueViolation "contacts_pkey"), w2)).
Proof.
  rewrite !db_addContact_unfold. intros Hadd Hrows Hclock.
  case_bool_decide as Hfresh; [done|]. injection Hadd as <- <-.
  split; [done|]. intros _.
  rewrite bool_decide_true; [done|].
  rewrite Hrows, Hclock. cbn [contacts set_contacts].
  rewrite fmap_app. apply elem_of_app. right. cbn. left.
Qed.

Lemma addContact_id_is_Date_now_witness :
  Contact.id
    (DatabaseContactManager.new_contact "u1" Demo.sarah 1700000000000 1700000000000)
  = "1700000000000"
  /\ DatabaseContactManager.addContact "u2" ContactData.empty
       (Demo.after (DatabaseContactManager.addContact "u1" Demo.sarah)
                   Demo.empty_world)
     = (Throw (UniqueViolation "contacts_pkey"),
        Demo.after (DatabaseContactManager.addContact "u1" Demo.sarah)
                   Demo.empty_world).
Proof.
  destruct (addContact_id_is_Date_now "u1" "u2" Demo.sarah ContactData.empty
              Demo.empty_world
              (Demo.after (DatabaseContactManager.addContact "u1" Demo.sarah)
                          Demo.empty_world)
              (Demo.after (DatabaseContactManager.addContact "u1" Demo.sarah)
                          Demo.empty_world)
              (DatabaseContactManager.new_contact "u1" Demo.sarah
                 1700000000000 1700000000000)) as [Hid Hsecond].
  - reflexivity.
  - reflexivity.
  - reflexivity.
  - split; [exact Hid|]. apply Hsecond.
    apply (bool_decide_unpack _). vm_compute. exact I.
Defined.

(** C5 (as the code has it). A call of [addContact] whose field set lacks
    the name is not refused: when the clock reading is not yet an
    identifier of the table and the field set fits the columns, the
    contact is stored under the name ["Unknown"], the stored contact is
    returned, and one entity is appended to the ledger, of kind [contact],
    for that owner and identifier, carrying the digest of the returned
    contact; no validation error exists. *)
Theorem addContact_without_name {ext : Externals} (userId : string)
    (contactData : ContactData.t) (w : World) :
  ContactData.name contactData = None ->
  JS.Number_toString (clock w) ∉ ContactRow.id <$> contacts w ->
  DatabaseContactManager.fits
    (DatabaseContactManager.values
       (DatabaseContactManager.new_contact userId contactData
          (clock w) (clock w))) ->
  exists (c : Contact.t) (w' : World) (e : Entity.t),
    HybridStorageManager.addContact userId contactData None w = (Ok c, w')
    /\ Contact.name c = "Unknown"
    /\ Contact.userId c = userId
    /\ contacts w' = contacts w ++ [DatabaseContactManager.values c]
    /\ golem w' = golem w ++ [e]
    /\ DataHash.dataType (Entity.storageValue e) = DataType.contact
    /\ DataHash.userId (Entity.storageValue e) = userId
    /\ DataHash.originalId (Entity.storageValue e) = Contact.id c
    /\ DataHash.ipfsHash (Entity.storageValue e) = None
    /\ HybridStorageManager.digest (HybridStorageManager.Contact_value c)
       = Some (DataHash.sha256Hash (Entity.storageValue e)).
Proof.
  intros Hname Hfresh _.
  unfold HybridStorageManager.addContact.
  unfold bind at 1. rewrite db_addContact_unfold.
  rewrite bool_decide_false by done.
  set (c := DatabaseContactManager.new_contact _ _ _ _).
  destruct (digest_object
    (match HybridStorageManager.Contact_value c with
     | JS.VObject props => props | _ => [] end)) as [hex Hhex].
  unfold bind, ret at 1.
  erewrite generateHash_Some by exact Hhex.
  unfold Date_now, Math_random_substr, HybridStorageManager.storeHashInGolem,
    bind, Date_now, get, put, ret.
  cbn [clock set_contacts set_draws draws golem contacts set_golem].
  eexists _, _, _. split; [reflexivity|].
  cbn [contacts golem set_golem set_contacts Entity.storageValue
       DataHash.dataType DataHash.userId DataHash.originalId
       DataHash.ipfsHash DataHash.sha256Hash].
  split. { subst c. cbn. by rewrite Hname. }
  repeat (split; [reflexivity|]). exact Hhex.
Qed.

Lemma addContact_without_name_witness :
  exists (c : Contact.t) (w' : World) (e : Entity.t),
    HybridStorageManager.addContact (ext := Demo.externals)
      "u1" ContactData.empty None Demo.empty_world = (Ok c, w')
    /\ Contact.name c = "Unknown"
    /\ Contact.userId c = "u1"
    /\ contacts w' = contacts Demo.empty_world ++ [DatabaseContactManager.values c]
    /\ golem w' = golem Demo.empty_world ++ [e]
    /\ DataHash.dataType (Entity.storageValue e) = DataType.contact
    /\ DataHash.userId (Entity.storageValue e) = "u1"
    /\ DataHash.originalId (Entity.storageValue e) = Contact.id c
    /\ DataHash.ipfsHash (Entity.storageValue e) = None
    /\ HybridStorageManager.digest (ext := Demo.externals)
         (HybridStorageManager.Contact_value c)
       = Some (DataHash.sha256Hash (Entity.storageValue e)).
Proof.
  apply (addContact_without_name (ext := Demo.externals)
           "u1" ContactData.empty Demo.empty_world).
  - reflexivity.
  - apply (bool_decide_unpack _). vm_compute. exact I.
  - apply (bool_decide_unpack _). vm_compute. exact I.
Defined.

(** C5 as stated fails: [addContact("u1", {})] on empty stores throws
    nothing and stores a contact. *)
Lemma addContact_without_name_is_stored :
  let r := HybridStorageManager.addContact (ext := Demo.externals)
             "u1" ContactData.empty None Demo.empty_world in
  (forall e : Error, fst r <> Throw e)
  /\ (exists c : Contact.t, fst r = Ok c /\ Contact.name c = "Unknown")
  /\ ContactRow.name <$> contacts (snd r) = ["Unknown"].
Proof.
  vm_compute. split; [discriminate|]. split; [|reflexivity].
  eexists. split; reflexivity.
Qed.

(** ** Builder applications *)

Section builders.
Context {ext : Externals}.

Lemma mapRowToBaseBuilder_id (b : BaseBuilder.t) :
  BaseBuilderManager.mapRowToBaseBuilder b = b.
Proof. by destruct b. Qed.

Lemma getBaseBuilderByUserId_unfold (userId : string) (w : World) :
  HybridStorageManager.getBaseBuilderByUserId userId w
  = (Ok (head (filter (fun r => BaseBuilder.userId r = userId) (base_builders w))), w).
Proof.
  unfold HybridStorageManager.getBaseBuilderByUserId.
  unfold BaseBuilderManager.getBaseBuilderByUserId, bind, get, ret.
  do 2 f_equal. destruct (head _) as [b|]; [|done]. cbn.
  by rewrite mapRowToBaseBuilder_id.
Qed.

(** The identifier [createBaseBuilder] computes in world [w]. *)
Lemma createBaseBuilder_unfold (userId : string) (builderData : BuilderData.t)
    (w : World) :
  let id := "bb_" +:+ JS.Number_toString (clock w) +:+ "_"
            +:+ String.substring 0 9 (Math_random_base36 (draws w)) in
  let b := BaseBuilder.mk id userId builderData (clock w) in
  BaseBuilderManager.createBaseBuilder userId builderData w =
    if bool_decide (id ∈ BaseBuilder.id <$> base_builders w)
    then (Throw (UniqueViolation "base_builders_pkey"), set_draws (S (draws w)) w)
    else (Ok b, set_base_builders (base_builders w ++ [b]) (set_draws (S (draws w)) w)).
Proof.
  intros id b. unfold BaseBuilderManager.createBaseBuilder, bind, Date_now.
  unfold Math_random_substr, BaseBuilderManager.INSERT_base_builders.
  cbn [clock set_draws base_builders BaseBuilder.id draws].
  fold id. case_bool_decide; [done|]. unfold ret.
  by rewrite mapRowToBaseBuilder_id.
Qed.

Lemma head_filter_app {A : Type} (P : A -> Prop) `{!forall x, Decision (P x)}
    (l l' : list A) (x : A) :
  head (filter P l) = Some x -> head (filter P (l ++ l')) = Some x.
Proof.
  rewrite filter_app. destruct (filter P l); [done|]. by intros [= ->].
Qed.

(** [addBaseBuilder] when the generated identifier is new: one row and one
    ledger entity are appended. *)
Lemma addBaseBuilder_fresh (userId : string) (builderData : BuilderData.t)
    (w : World) :
  let id := "bb_" +:+ JS.Number_toString (clock w) +:+ "_"
            +:+ String.substring 0 9 (Math_random_base36 (draws w)) in
  let b := BaseBuilder.mk id userId builderData (clock w) in
  id ∉ BaseBuilder.id <$> base_builders w ->
  exists (w' : World) (e : Entity.t),
    HybridStorageManager.addBaseBuilder userId builderData w = (Ok b, w')
    /\ base_builders w' = base_builders w ++ [b]
    /\ golem w' = golem w ++ [e]
    /\ DataHash.dataType (Entity.storageValue e) = DataType.base_builder
    /\ DataHash.originalId (Entity.storageValue e) = id
    /\ Some (DataHash.sha256Hash (Entity.storageValue e))
       = HybridStorageManager.digest (HybridStorageManager.BaseBuilder_value b).
Proof.
  intros id b Hfresh.
  unfold HybridStorageManager.addBaseBuilder.
  unfold bind at 1. rewrite createBaseBuilder_unfold.
  rewrite bool_decide_false by done. fold id. fold b.
  destruct (digest_object
    (match HybridStorageManager.BaseBuilder_value b with
     | JS.VObject props => props | _ => [] end)) as [hex Hhex].
  unfold bind. erewrite generateHash_Some by exact Hhex.
  eexists _, _. split; [reflexivity|].
  repeat (split; [reflexivity|]). symmetry. exact Hhex.
Qed.

End builders.

(** C1 (as the code has it). [addBaseBuilder] makes no check on the owner:
    when the owner already has an application, the generated identifier
    is new and the row fits its columns, the second call succeeds and
    appends a second row for the same owner; [getBaseBuilderByUserId]
    still returns the first application unchanged.  The refusal of a
    second application is made by the caller: for a form that has passed
    its check of the required fields, the [/base_builders_network] handler
    reads the existing application first and then stores nothing. *)
Theorem addBaseBuilder_second_application {ext : Externals} (userId : string)
    (builderData : BuilderData.t) (first : BaseBuilder.t) (w : World) :
  HybridStorageManager.getBaseBuilderByUserId userId w = (Ok (Some first), w) ->
  "bb_" +:+ JS.Number_toString (clock w) +:+ "_"
    +:+ String.substring 0 9 (Math_random_base36 (draws w))
    ∉ BaseBuilder.id <$> base_builders w ->
  BaseBuilderManager.fits
    (BaseBuilder.mk
       ("bb_" +:+ JS.Number_toString (clock w) +:+ "_"
        +:+ String.substring 0 9 (Math_random_base36 (draws w)))
       userId builderData (clock w)) ->
  exists (second : BaseBuilder.t) (w' : World),
    HybridStorageManager.addBaseBuilder userId builderData w = (Ok second, w')
    /\ BaseBuilder.userId second = userId
    /\ BaseBuilder.data second = builderData
    /\ base_builders w' = base_builders w ++ [second]
    /\ HybridStorageManager.getBaseBuilderByUserId userId w' = (Ok (Some first), w')
    /\ (Bot.required_fields builderData ->
        Bot.base_builders_network userId builderData w = (Ok (inl first), w)).
Proof.
  intros Hfirst Hfresh _. rewrite getBaseBuilderByUserId_unfold in Hfirst.
  injection Hfirst as Hfirst.
  destruct (addBaseBuilder_fresh userId builderData w Hfresh)
    as (w' & e & Hadd & Hrows & _).
  eexists _, w'. split; [exact Hadd|]. repeat split.
  - exact Hrows.
  - rewrite getBaseBuilderByUserId_unfold, Hrows.
    by rewrite (head_filter_app _ _ _ first).
  - intros _. unfold Bot.base_builders_network, bind.
    rewrite getBaseBuilderByUserId_unfold. by rewrite Hfirst.
Qed.

Lemma addBaseBuilder_second_application_witness :
  let w := Demo.after (HybridStorageManager.addBaseBuilder (ext := Demo.externals)
                         "u2" (Demo.application "Alice Johnson"))
                      Demo.empty_world in
  exists (first second : BaseBuilder.t) (w' : World),
    HybridStorageManager.addBaseBuilder (ext := Demo.externals)
      "u2" (Demo.application "Alice J.") w = (Ok second, w')
    /\ BaseBuilder.userId second = "u2"
    /\ BaseBuilder.data second = Demo.application "Alice J."
    /\ base_builders w' = base_builders w ++ [second]
    /\ HybridStorageManager.getBaseBuilderByUserId "u2" w' = (Ok (Some first), w')
    /\ Bot.base_builders_network (ext := Demo.externals)
         "u2" (Demo.application "Alice J.") w = (Ok (inl first), w).
Proof.
  intros w.
  destruct (addBaseBuilder_second_application (ext := Demo.externals) "u2"
              (Demo.application "Alice J.")
              (BaseBuilder.mk "bb_1700000000000_0k3x9q0a7" "u2"
                 (Demo.application "Alice Johnson") 1700000000000) w)
    as (second & w' & Hadd & Hu & Hd & Hrows & Hget & Hbot).
  - reflexivity.
  - apply (bool_decide_unpack _). vm_compute. exact I.
  - apply (bool_decide_unpack _). vm_compute. exact I.
  - exists (BaseBuilder.mk "bb_1700000000000_0k3x9q0a7" "u2"
              (Demo.application "Alice Johnson") 1700000000000), second, w'.
    split; [exact Hadd|]. split; [exact Hu|]. split; [exact Hd|].
    split; [exact Hrows|]. split; [exact Hget|]. apply Hbot.
    apply (bool_decide_unpack _). vm_compute. exact I.
Defined.

(** C1 as stated fails: the second [addBaseBuilder("u2", ...)] throws
    nothing and the owner ends up with two stored applications. *)
Lemma addBaseBuilder_twice_stores_two :
  let w := Demo.after (HybridStorageManager.addBaseBuilder (ext := Demo.externals)
                         "u2" (Demo.application "Alice Johnson"))
                      Demo.empty_world in
  let r := HybridStorageManager.addBaseBuilder (ext := Demo.externals)
             "u2" (Demo.application "Alice J.") w in
  (forall e : Error, fst r <> Throw e)
  /\ (exists second : BaseBuilder.t, fst r = Ok second)
  /\ BaseBuilder.userId <$> base_builders (snd r) = ["u2"; "u2"].
Proof.
  vm_compute. split; [discriminate|]. split; [|reflexivity].
  eexists. reflexivity.
Qed.

(** ** Deleting contacts *)

Section deleting.
Context {ext : Externals}.

Lemma db_deleteContact_unfold (userId contactId : string) (w : World) :
  DatabaseContactManager.deleteContact userId contactId w
  = (Ok (bool_decide
           (0 < length (filter (DatabaseContactManager.selected userId contactId)
                               (contacts w)))%nat),
     set_contacts
       (filter (fun r => ~ DatabaseContactManager.selected userId contactId r)
               (contacts w)) w).
Proof. reflexivity. Qed.

Lemma deleteContact_unfold (userId contactId : string) (w : World) :
  exists (hex : string),
    HybridStorageManager.digest
      (HybridStorageManager.deletion_record contactId (clock w)) = Some hex
    /\ HybridStorageManager.deleteContact userId contactId w
       = let rows := filter (fun r => ~ DatabaseContactManager.selected userId contactId r)
                            (contacts w) in
         if bool_decide
              (0 < length (filter (DatabaseContactManager.selected userId contactId)
                                  (contacts w)))%nat
         then
           (Ok true,
            set_golem
              (golem w ++
                 [Entity.mk
                    {| DataHash.id :=
                         "delete_" +:+ JS.Number_toString (clock w) +:+ "_"
                         +:+ String.substring 0 9 (Math_random_base36 (draws w));
                       DataHash.dataType := DataType.contact;
                       DataHash.originalId := contactId;
                       DataHash.userId := userId;
                       DataHash.sha256Hash := hex;
                       DataHash.ipfsHash := None;
                       DataHash.createdAt := clock w;
                       DataHash.verified := true |}
                    (clock w)])
              (set_draws (S (draws w)) (set_contacts rows w)))
         else (Ok false, set_contacts rows w).
Proof.
  destruct (digest_object
    [ ("deleted", JS.VBool true); ("contactId", JS.VString contactId);
      ("timestamp", JS.VNumber (clock w)) ]) as [hex Hhex].
  exists hex. split; [exact Hhex|].
  unfold HybridStorageManager.deleteContact.
  unfold bind at 1. rewrite db_deleteContact_unfold.
  case_bool_decide; [|reflexivity].
  unfold bind, Date_now, Math_random_substr.
  cbn [clock set_contacts set_draws].
  erewrite generateHash_Some by exact Hhex. reflexivity.
Qed.

End deleting.

(** C6 (as the code has it). [deleteContact] never throws; when the
    relational delete removed a row it appends exactly one entity to the
    ledger, whose [originalId] is the deleted identifier, whose owner is
    the caller, whose digest is that of [{deleted, contactId, timestamp}]
    and whose data kind is [contact] (there is no tombstone kind); when
    nothing was removed the ledger is unchanged. *)
Theorem deleteContact_marker {ext : Externals} (userId contactId : string)
    (w : World) :
  exists (deleted : bool) (w' : World),
    HybridStorageManager.deleteContact userId contactId w = (Ok deleted, w')
    /\ (deleted = true <->
        exists r, r ∈ contacts w /\ DatabaseContactManager.selected userId contactId r)
    /\ if deleted then
         exists e : Entity.t,
           golem w' = golem w ++ [e]
           /\ DataHash.dataType (Entity.storageValue e) = DataType.contact
           /\ DataHash.originalId (Entity.storageValue e) = contactId
           /\ DataHash.userId (Entity.storageValue e) = userId
           /\ Some (DataHash.sha256Hash (Entity.storageValue e))
              = HybridStorageManager.digest
                  (HybridStorageManager.deletion_record contactId (clock w))
       else golem w' = golem w.
Proof.
  destruct (deleteContact_unfold userId contactId w) as (hex & Hhex & ->).
  cbv zeta. case_bool_decide as Hn.
  - eexists true, _. split; [reflexivity|]. split.
    + split; [|done]. intros _.
      destruct (filter _ (contacts w)) as [|r rows] eqn:E; [cbn in Hn; lia|].
      exists r.
      assert (Hin : r ∈ filter (DatabaseContactManager.selected userId contactId)
                               (contacts w)) by (rewrite E; left).
      apply list_elem_of_filter in Hin as [? ?]. by split.
    + eexists. repeat (split; [reflexivity|]). by rewrite Hhex.
  - eexists false, _. split; [reflexivity|]. split; [|reflexivity].
    split; [done|]. intros (r & Hr & Hsel). exfalso. apply Hn.
    assert (Hin : r ∈ filter (DatabaseContactManager.selected userId contactId) (contacts w))
      by by apply list_elem_of_filter.
    destruct (filter _ (contacts w)); [inversion Hin|cbn; lia].
Qed.

(** C6 as stated fails: after Sarah Chen is stored for owner ["u1"] and
    deleted, the one entity appended to the ledger has data kind
    ["contact"], not a tombstone kind. *)
Lemma deleteContact_marker_kind :
  let w := Demo.after (HybridStorageManager.addContact (ext := Demo.externals)
                         "u1" Demo.sarah None) Demo.empty_world in
  let r := HybridStorageManager.deleteContact (ext := Demo.externals)
             "u1" "1700000000000" w in
  fst r = Ok true
  /\ exists e : Entity.t,
       golem (snd r) = golem w ++ [e]
       /\ DataHash.originalId (Entity.storageValue e) = "1700000000000"
       /\ DataType.name (DataHash.dataType (Entity.storageValue e)) = "contact"
       /\ DataType.name (DataHash.dataType (Entity.storageValue e)) <> "tombstone".
Proof.
  vm_compute. split; [reflexivity|]. eexists.
  split; [reflexivity|]. split; [reflexivity|]. split; [reflexivity|]. discriminate.
Qed.

(** ** The retry loop of [verifyDataIntegrity] *)

Section retry.
Context {ext : Externals}.
Import HybridStorageManager.

Lemma while_done {S : Type} (fuel : nat) (cond : S -> bool) (body : S -> M S)
    (s : S) :
  cond s = false -> while fuel cond body s = ret s.
Proof. intros H. destruct fuel; cbn; by rewrite H. Qed.

Lemma while_step {S : Type} (fuel : nat) (cond : S -> bool) (body : S -> M S)
    (s : S) :
  cond s = true ->
  while (Datatypes.S fuel) cond body s = bind (body s) (while fuel cond body).
Proof. intros H. cbn. by rewrite H. Qed.

(** One iteration: one query, then the 2000 ms delay unless the answer is
    non-empty or the cap is reached. *)
Lemma retry_body_unfold (q : Query) (s : list Entity.t * nat) (w : World) :
  retry_body q s w =
    (Ok (answer q (clock w) w, S (snd s)),
     if bool_decide (length (answer q (clock w) w) = 0%nat)
        && bool_decide (S (snd s) < maxAttempts)%nat
     then set_clock (clock w + 2000) (set_queries (S (queries w)) w)
     else set_queries (S (queries w)) w).
Proof.
  unfold retry_body, queryEntities, get, put, ret, answer, bind.
  destruct (bool_decide _ && bool_decide _); reflexivity.
Qed.

(** With fuel for three iterations the loop ends, after [attempts] queries
    and [attempts - 1] delays. *)
Lemma retry_loop_bounded (fuel : nat) (q : Query) (w : World) :
  (3 <= fuel)%nat ->
  exists (results : list Entity.t) (attempts : nat) (w' : World),
    while fuel retry_cond (retry_body q) ([], 0%nat) w = (Ok (results, attempts), w')
    /\ (1 <= attempts <= 3)%nat
    /\ queries w' = (queries w + attempts)%nat
    /\ clock w' = clock w + 2000 * (Z.of_nat attempts - 1)
    /\ results = answer q (clock w') w
    /\ (results = [] -> attempts = 3%nat)
    /\ (forall k, (k < attempts - 1)%nat -> answer q (clock w + 2000 * Z.of_nat k) w = [])
    /\ same_stores w w'.
Proof.
  intros Hfuel.
  destruct fuel as [|[|[|fuel]]]; [lia..|].
  rewrite while_step by reflexivity. unfold bind at 1.
  rewrite retry_body_unfold. cbn [snd].
  destruct (answer q (clock w) w) as [|e1 r1] eqn:E1.
  - (* first answer empty: delay, second attempt *)
    cbn [length bool_decide decide_rel andb]. 
    rewrite bool_decide_true by done. rewrite bool_decide_true by (unfold maxAttempts; lia).
    cbn [andb].
    rewrite while_step by reflexivity. unfold bind at 1.
    rewrite retry_body_unfold. cbn [snd clock set_clock set_queries queries].
    set (w1 := set_clock _ _).
    destruct (answer q (clock w + 2000) w1) as [|e2 r2] eqn:E2.
    + rewrite bool_decide_true by done. rewrite bool_decide_true by (unfold maxAttempts; lia).
      cbn [andb].
      rewrite while_step by reflexivity. unfold bind at 1.
      rewrite retry_body_unfold. cbn [snd clock set_clock set_queries queries].
      set (w2 := set_clock _ _).
      rewrite (bool_decide_false (3 < maxAttempts)%nat) by (unfold maxAttempts; lia).
      rewrite andb_false_r.
      rewrite while_done.
      2:{ unfold retry_cond. cbn [snd].
          rewrite (bool_decide_false (3 < maxAttempts)%nat) by (unfold maxAttempts; lia).
          apply andb_false_r. }
      eexists _, 3%nat, _. split; [reflexivity|].
      subst w1 w2. cbn [queries clock set_queries set_clock].
      repeat split; try lia.
      intros k Hk. assert (k = 0 \/ k = 1)%nat as [-> | ->] by lia.
      * rewrite Z.mul_0_r, Z.add_0_r. exact E1.
      * rewrite Z.mul_1_r. exact E2.
    + rewrite (bool_decide_false (length (e2 :: r2) = 0%nat)) by done.
      cbn [andb].
      rewrite while_done by reflexivity.
      eexists _, 2%nat, _. split; [reflexivity|].
      subst w1. cbn [queries clock set_queries set_clock].
      repeat split; try lia; try done.
      intros k Hk. assert (k = 0)%nat as -> by lia.
      rewrite Z.mul_0_r, Z.add_0_r. exact E1.
  - rewrite (bool_decide_false (length (e1 :: r1) = 0%nat)) by done.
    cbn [andb].
    rewrite while_done by reflexivity.
    eexists _, 1%nat, _. split; [reflexivity|].
    cbn [queries clock set_queries set_clock].
    repeat split; try lia; try done.
    all: try (intros k Hk; lia).
Qed.

Lemma current_data_unfold (userId : string) (dataType : DataType.t)
    (originalId : string) (w : World) :
  current_data userId dataType originalId w
  = (Ok (current_record userId dataType originalId w), w).
Proof.
  destruct dataType; cbn; try reflexivity.
  all: unfold bind, BaseBuilderManager.getBaseBuilderByUserId, get, ret, bind.
  all: do 2 f_equal; destruct (head _) as [b|]; [|done]; cbn.
  all: by rewrite mapRowToBaseBuilder_id.
Qed.

(** [verifyDataIntegrity] as a case analysis on the current record and on
    the outcome of the retry loop. *)
Lemma verifyDataIntegrity_unfold (fuel : nat) (userId : string)
    (dataType : DataType.t) (originalId : string) (w : World) :
  verifyDataIntegrity fuel userId dataType originalId w =
    match current_record userId dataType originalId w with
    | None => (Throw DataNotFoundInPostgreSQL, w)
    | Some data =>
        match digest data with
        | None => (Throw TypeError, w)
        | Some hex =>
            match while fuel retry_cond
                    (retry_body (mkQuery dataType userId originalId))
                    ([], 0%nat) w with
            | (Ok s, w') =>
                match fst s with
                | [] => (Throw (HashNotFoundInGolemDB maxAttempts), w')
                | first :: _ =>
                    (Ok {| isValid :=
                             bool_decide
                               (hex = DataHash.sha256Hash (Entity.storageValue first));
                           storedHash := DataHash.sha256Hash (Entity.storageValue first);
                           currentHash := hex |}, w')
                end
            | (Throw e, w') => (Throw e, w')
            | (OutOfFuel, w') => (OutOfFuel, w')
            end
        end
    end.
Proof.
  unfold verifyDataIntegrity. unfold bind at 1. rewrite current_data_unfold.
  destruct (current_record _ _ _ w) as [data|]; [|reflexivity].
  unfold bind at 1. unfold generateHash.
  destruct (digest data) as [hex|]; [|reflexivity].
  unfold ret at 1. unfold bind.
  destruct (while _ _ _ _ w) as [[s| |] w']; try reflexivity.
  by destruct (fst s).
Qed.

End retry.

Section verifying.
Context {ext : Externals}.
Import HybridStorageManager.

(** More fuel does not change a finished loop. *)
Lemma while_fuel_mono {S : Type} (n m : nat) (cond : S -> bool)
    (body : S -> M S) (s s' : S) (w w' : World) :
  (n <= m)%nat ->
  while n cond body s w = (Ok s', w') ->
  while m cond body s w = (Ok s', w').
Proof.
  revert m s w. induction n as [|n IH]; intros m s w Hnm.
  - cbn. destruct (cond s) eqn:Hc; [discriminate|].
    by rewrite while_done.
  - destruct (cond s) eqn:Hc.
    + destruct m as [|m]; [lia|]. rewrite !while_step by done.
      unfold bind. destruct (body s w) as [[s1| |] w1]; try discriminate.
      apply IH. lia.
    + by rewrite !while_done.
Qed.

Lemma retry_loop_fuel (fuel : nat) (q : Query) (w : World) :
  (3 <= fuel)%nat ->
  while fuel retry_cond (retry_body q) ([], 0%nat) w
  = while 3 retry_cond (retry_body q) ([], 0%nat) w.
Proof.
  intros Hfuel.
  destruct (retry_loop_bounded 3 q w) as (results & attempts & w' & Hloop & _); [lia|].
  rewrite Hloop. by apply (while_fuel_mono 3 fuel).
Qed.

(** The records step 1 finds are plain objects, which always have a
    digest. *)
Lemma current_record_digest (userId : string) (dataType : DataType.t)
    (originalId : string) (w : World) (data : JS.value) :
  current_record userId dataType originalId w = Some data ->
  is_Some (digest data).
Proof.
  unfold current_record.
  destruct dataType.
  - destruct (find _ _) as [c|]; [|discriminate]. intros [= <-]. apply digest_object.
  - destruct (head _) as [b|]; [|discriminate]. intros [= <-]. apply digest_object.
  - destruct (head _) as [b|]; [|discriminate]. intros [= <-]. apply digest_object.
Qed.

End verifying.

(** C8. The ledger-query retry loop of [verifyDataIntegrity] terminates:
    with fuel for three iterations the call never runs out of fuel and its
    result is that of exactly three units of fuel; it issues at most 3
    queries, separated by delays of 2000 ms each (one fewer than the
    queries), and when every answer of the index is empty it stops after
    the third query, 4000 ms later, with the failure "hash not found after
    3 attempts". *)
Theorem verifyDataIntegrity_retry_bounded {ext : Externals} (fuel : nat)
    (userId : string) (dataType : DataType.t) (originalId : string) (w : World) :
  (3 <= fuel)%nat ->
  let r := HybridStorageManager.verifyDataIntegrity fuel userId dataType originalId w in
  fst r <> OutOfFuel
  /\ r = HybridStorageManager.verifyDataIntegrity 3 userId dataType originalId w
  /\ (exists attempts : nat,
        (attempts <= 3)%nat
        /\ queries (snd r) = (queries w + attempts)%nat
        /\ clock (snd r) = clock w + 2000 * Z.of_nat (attempts - 1))
  /\ ((forall t : Z,
         HybridStorageManager.answer
           (HybridStorageManager.mkQuery dataType userId originalId) t w = []) ->
      is_Some (HybridStorageManager.current_record userId dataType originalId w) ->
      fst r = Throw (HashNotFoundInGolemDB 3)
      /\ queries (snd r) = (queries w + 3)%nat
      /\ clock (snd r) = clock w + 4000).
Proof.
  intros Hfuel r. subst r.
  rewrite !verifyDataIntegrity_unfold, retry_loop_fuel by done.
  destruct (HybridStorageManager.current_record _ _ _ w) as [data|] eqn:Hrec.
  2:{ cbn. split; [done|]. split; [done|]. split.
      - exists 0%nat. cbn. split; [lia|]. split; [lia|]. lia.
      - intros _ [? [=]]. }
  destruct (current_record_digest _ _ _ _ _ Hrec) as [hex ->].
  destruct (retry_loop_bounded 3 (HybridStorageManager.mkQuery dataType userId originalId) w)
    as (results & attempts & w' & -> & Hatt & Hq & Hc & Hres & Hempty & _ & _); [lia|].
  cbn [fst].
  assert (Hbound : exists attempts0 : nat,
            (attempts0 <= 3)%nat
            /\ queries w' = (queries w + attempts0)%nat
            /\ clock w' = clock w + 2000 * Z.of_nat (attempts0 - 1)).
  { exists attempts. split; [lia|]. split; [done|]. rewrite Hc. f_equal. lia. }
  destruct results as [|first rest].
  - cbn [fst snd]. split; [done|]. split; [done|]. split; [done|].
    intros _ _. rewrite (Hempty eq_refl) in Hq, Hc.
    split; [done|]. split; [done|]. rewrite Hc. cbn. lia.
  - cbn [fst snd]. split; [done|]. split; [done|]. split; [done|].
    intros Hnone _. rewrite Hnone in Hres. discriminate.
Qed.

Lemma verifyDataIntegrity_retry_bounded_witness :
  let w := Demo.after (HybridStorageManager.addContact (ext := Demo.never_indexed)
                         "u1" Demo.sarah None) Demo.empty_world in
  let r := HybridStorageManager.verifyDataIntegrity (ext := Demo.never_indexed)
             5 "u1" DataType.contact "1700000000000" w in
  fst r <> OutOfFuel
  /\ r = HybridStorageManager.verifyDataIntegrity (ext := Demo.never_indexed)
           3 "u1" DataType.contact "1700000000000" w
  /\ (exists attempts : nat,
        (attempts <= 3)%nat
        /\ queries (snd r) = (queries w + attempts)%nat
        /\ clock (snd r) = clock w + 2000 * Z.of_nat (attempts - 1))
  /\ ((forall t : Z,
         HybridStorageManager.answer (ext := Demo.never_indexed)
           (HybridStorageManager.mkQuery DataType.contact "u1" "1700000000000") t w = []) ->
      is_Some (HybridStorageManager.current_record "u1" DataType.contact "1700000000000" w) ->
      fst r = Throw (HashNotFoundInGolemDB 3)
      /\ queries (snd r) = (queries w + 3)%nat
      /\ clock (snd r) = clock w + 4000).
Proof.
  intros w.
  apply (verifyDataIntegrity_retry_bounded (ext := Demo.never_indexed)
           5 "u1" DataType.contact "1700000000000" w).
  lia.
Defined.

(** With an index that never shows anything the three attempts are made
    and the call fails 4000 ms later. *)
Example verifyDataIntegrity_never_indexed :
  let w := Demo.after (HybridStorageManager.addContact (ext := Demo.never_indexed)
                         "u1" Demo.sarah None) Demo.empty_world in
  let r := HybridStorageManager.verifyDataIntegrity (ext := Demo.never_indexed)
             3 "u1" DataType.contact "1700000000000" w in
  fst r = Throw (HashNotFoundInGolemDB 3)
  /\ queries (snd r) = 3%nat
  /\ clock (snd r) = clock w + 4000.
Proof. vm_compute. repeat split. Qed.

Section after_delete.
Context {ext : Externals}.
Import HybridStorageManager.

Lemma find_None {A : Type} (f : A -> bool) (l : list A) :
  Forall (fun x => f x = false) l -> find f l = None.
Proof. induction 1 as [|x l Hx _ IH]; [done|]. cbn. by rewrite Hx. Qed.

(** No row of the owner with that identifier: step 1 finds nothing. *)
Lemma current_record_contact_None (userId originalId : string) (w : World) :
  (forall r, r ∈ contacts w ->
             ~ DatabaseContactManager.selected userId originalId r) ->
  current_record userId DataType.contact originalId w = None.
Proof.
  intros Hnone. unfold current_record. rewrite find_None; [done|].
  apply Forall_fmap, Forall_forall. intros r Hr.
  rewrite merge_sort_Permutation in Hr.
  apply list_elem_of_filter in Hr as [Hu Hr].
  cbn. apply bool_decide_eq_false. intros Hid.
  apply (Hnone r Hr). by split.
Qed.

Lemma deleteContact_contacts (userId contactId : string) (w w' : World)
    (deleted : bool) :
  deleteContact userId contactId w = (Ok deleted, w') ->
  contacts w'
  = filter (fun r => ~ DatabaseContactManager.selected userId contactId r) (contacts w).
Proof.
  destruct (deleteContact_unfold userId contactId w) as (hex & _ & ->).
  cbv zeta. case_bool_decide; by intros [= _ <-].
Qed.

End after_delete.

(** C7. After [deleteContact(owner, id)] has succeeded,
    [verifyDataIntegrity(owner, 'contact', id)] fails in its relational
    step with "Data not found in PostgreSQL", before any ledger query,
    whatever the ledger holds and whatever the index shows: only the
    [contacts] table left by the delete matters. *)
Theorem verifyDataIntegrity_after_delete {ext : Externals} (fuel : nat)
    (userId contactId : string) (w w1 w2 : World) :
  HybridStorageManager.deleteContact userId contactId w = (Ok true, w1) ->
  contacts w2 = contacts w1 ->
  HybridStorageManager.verifyDataIntegrity fuel userId DataType.contact contactId w2
  = (Throw DataNotFoundInPostgreSQL, w2).
Proof.
  intros Hdel Hrows. apply deleteContact_contacts in Hdel.
  rewrite verifyDataIntegrity_unfold, current_record_contact_None; [done|].
  intros r. rewrite Hrows, Hdel. by intros [? _]%list_elem_of_filter.
Qed.

Lemma verifyDataIntegrity_after_delete_witness :
  let w := Demo.after (HybridStorageManager.addContact (ext := Demo.externals)
                         "u1" Demo.sarah None) Demo.empty_world in
  let w1 := Demo.after (HybridStorageManager.deleteContact (ext := Demo.externals)
                          "u1" "1700000000000") w in
  HybridStorageManager.verifyDataIntegrity (ext := Demo.externals)
    3 "u1" DataType.contact "1700000000000" (Demo.later 60000 w1)
  = (Throw DataNotFoundInPostgreSQL, Demo.later 60000 w1).
Proof.
  intros w w1.
  apply (verifyDataIntegrity_after_delete (ext := Demo.externals)
           3 "u1" "1700000000000" w w1 (Demo.later 60000 w1)).
  - reflexivity.
  - reflexivity.
Defined.

(** ** Verifying a builder application *)

Section builder_verification.
Context {ext : Externals}.
Import HybridStorageManager.

Lemma answer_satisfies (q : Query) (t : Z) (w : World) :
  Forall (satisfies q) (answer q t w).
Proof.
  apply Forall_forall. intros e He. unfold answer in He.
  by apply list_elem_of_filter in He as [? _].
Qed.

(** Whatever the loop returns came out of a ledger query for [q]. *)
Lemma retry_loop_results (fuel : nat) (q : Query) (s s' : list Entity.t * nat)
    (w w' : World) :
  while fuel retry_cond (retry_body q) s w = (Ok s', w') ->
  Forall (satisfies q) (fst s) ->
  Forall (satisfies q) (fst s').
Proof.
  revert s w. induction fuel as [|fuel IH]; intros s w.
  - cbn. destruct (retry_cond s); [discriminate|]. by intros [= <- _].
  - destruct (retry_cond s) eqn:Hc.
    + rewrite while_step by done. unfold bind.
      rewrite retry_body_unfold. intros Hloop _.
      eapply IH; [exact Hloop|]. apply answer_satisfies.
    + rewrite while_done by done. by intros [= <- _].
Qed.

(** What the loop returns was shown by the index for the query. *)
Lemma retry_loop_shown (fuel : nat) (q : Query) (s s' : list Entity.t * nat)
    (w w' : World) :
  while fuel retry_cond (retry_body q) s w = (Ok s', w') ->
  Forall (fun e => exists t, e ∈ answer q t w) (fst s) ->
  Forall (fun e => exists t, e ∈ answer q t w) (fst s').
Proof.
  revert s w. induction fuel as [|fuel IH]; intros s w.
  - cbn. destruct (retry_cond s); [discriminate|]. by intros [= <- _].
  - destruct (retry_cond s) eqn:Hc.
    + rewrite while_step by done. unfold bind.
      rewrite retry_body_unfold. intros Hloop _.
      assert (Hans : Forall (fun e => exists t, e ∈ answer q t w)
                       (answer q (clock w) w)).
      { apply Forall_forall. intros e He. by exists (clock w). }
      destruct (bool_decide _ && bool_decide _);
        match type of Hloop with
        | while _ _ _ ?s0 ?w0 = _ => exact (IH s0 w0 Hloop Hans)
        end.
    + rewrite while_done by done. by intros [= <- _].
Qed.

End builder_verification.

(** C10. For kind [base_builder], [verifyDataIntegrity] reads the
    relational record by owner alone: whenever it returns a result, for
    whatever [originalId], [currentHash] is the digest of the first stored
    application of the owner, so two calls with two [originalId] values on
    the same table report the same [currentHash].  The [originalId] is
    used by the ledger lookup only: [storedHash] is the digest held by an
    entity that the index of the ledger showed for the query of kind
    [base_builder], that owner and that [originalId]. *)
Theorem verifyDataIntegrity_base_builder_by_owner {ext : Externals}
    (fuel : nat) (userId originalId1 originalId2 : string)
    (w1 w2 w1' w2' : World) (v1 v2 : HybridStorageManager.Verification) :
  base_builders w2 = base_builders w1 ->
  HybridStorageManager.verifyDataIntegrity
    fuel userId DataType.base_builder originalId1 w1 = (Ok v1, w1') ->
  HybridStorageManager.verifyDataIntegrity
    fuel userId DataType.base_builder originalId2 w2 = (Ok v2, w2') ->
  exists b : BaseBuilder.t,
    head (filter (fun r => BaseBuilder.userId r = userId) (base_builders w1)) = Some b
    /\ HybridStorageManager.digest (HybridStorageManager.BaseBuilder_value b)
       = Some (HybridStorageManager.currentHash v1)
    /\ HybridStorageManager.currentHash v2 = HybridStorageManager.currentHash v1
    /\ (exists (e1 : Entity.t) (t1 : Z),
          e1 ∈ golem_indexed t1 (golem w1)
          /\ HybridStorageManager.satisfies
               (HybridStorageManager.mkQuery DataType.base_builder userId
                  originalId1) e1
          /\ DataHash.sha256Hash (Entity.storageValue e1)
             = HybridStorageManager.storedHash v1)
    /\ (exists (e2 : Entity.t) (t2 : Z),
          e2 ∈ golem_indexed t2 (golem w2)
          /\ HybridStorageManager.satisfies
               (HybridStorageManager.mkQuery DataType.base_builder userId
                  originalId2) e2
          /\ DataHash.sha256Hash (Entity.storageValue e2)
             = HybridStorageManager.storedHash v2).
Proof.
  intros Hrows. rewrite !verifyDataIntegrity_unfold.
  unfold HybridStorageManager.current_record. rewrite Hrows.
  destruct (head _) as [b|]; [|discriminate]. cbn [fmap option_fmap option_map].
  destruct (HybridStorageManager.digest _) as [hex|] eqn:Hd; [|discriminate].
  destruct (HybridStorageManager.while fuel _ _ _ w1) as [[s1| |] u1] eqn:L1;
    try discriminate.
  destruct (HybridStorageManager.while fuel _ _ _ w2) as [[s2| |] u2] eqn:L2;
    try discriminate.
  apply retry_loop_shown in L1; [|constructor].
  apply retry_loop_shown in L2; [|constructor].
  destruct (fst s1) as [|e1 ?]; [discriminate|].
  destruct (fst s2) as [|e2 ?]; [discriminate|].
  intros [= <- _] [= <- _]. exists b.
  cbn [HybridStorageManager.currentHash HybridStorageManager.storedHash].
  apply Forall_cons in L1 as [(t1 & [Hq1 Hi1]%list_elem_of_filter) _].
  apply Forall_cons in L2 as [(t2 & [Hq2 Hi2]%list_elem_of_filter) _].
  split; [reflexivity|]. split; [exact Hd|]. split; [reflexivity|].
  split; [by exists e1, t1|by exists e2, t2].
Qed.

Lemma verifyDataIntegrity_base_builder_by_owner_witness :
  let w := Demo.after (HybridStorageManager.addBaseBuilder (ext := Demo.externals)
                         "u2" (Demo.application "Alice J."))
             (Demo.after (HybridStorageManager.addBaseBuilder (ext := Demo.externals)
                            "u2" (Demo.application "Alice Johnson"))
                         Demo.empty_world) in
  let r1 := HybridStorageManager.verifyDataIntegrity (ext := Demo.externals)
              3 "u2" DataType.base_builder "bb_1700000000000_0k3x9q0a7" w in
  let r2 := HybridStorageManager.verifyDataIntegrity (ext := Demo.externals)
              3 "u2" DataType.base_builder "bb_1700000000000_2k3x9q0a7" w in
  exists (v1 v2 : HybridStorageManager.Verification) (b : BaseBuilder.t),
    fst r1 = Ok v1 /\ fst r2 = Ok v2
    /\ HybridStorageManager.isValid v1 = true
    /\ HybridStorageManager.isValid v2 = false
    /\ head (filter (fun r => BaseBuilder.userId r = "u2") (base_builders w)) = Some b
    /\ HybridStorageManager.digest (ext := Demo.externals)
         (HybridStorageManager.BaseBuilder_value b)
       = Some (HybridStorageManager.currentHash v1)
    /\ HybridStorageManager.currentHash v2 = HybridStorageManager.currentHash v1
    /\ (exists (e1 : Entity.t) (t1 : Z),
          e1 ∈ golem_indexed (Externals := Demo.externals) t1 (golem w)
          /\ HybridStorageManager.satisfies
               (HybridStorageManager.mkQuery DataType.base_builder "u2"
                  "bb_1700000000000_0k3x9q0a7") e1
          /\ DataHash.sha256Hash (Entity.storageValue e1)
             = HybridStorageManager.storedHash v1)
    /\ (exists (e2 : Entity.t) (t2 : Z),
          e2 ∈ golem_indexed (Externals := Demo.externals) t2 (golem w)
          /\ HybridStorageManager.satisfies
               (HybridStorageManager.mkQuery DataType.base_builder "u2"
                  "bb_1700000000000_2k3x9q0a7") e2
          /\ DataHash.sha256Hash (Entity.storageValue e2)
             = HybridStorageManager.storedHash v2).
Proof.
  intros w r1 r2.
  destruct (fst r1) as [v1| |] eqn:E1; [|vm_compute in E1; discriminate..].
  destruct (fst r2) as [v2| |] eqn:E2; [|vm_compute in E2; discriminate..].
  destruct (verifyDataIntegrity_base_builder_by_owner (ext := Demo.externals)
              3 "u2" "bb_1700000000000_0k3x9q0a7" "bb_1700000000000_2k3x9q0a7"
              w w (snd r1) (snd r2) v1 v2) as (b & Hb & Hd & Hc & H1 & H2).
  - reflexivity.
  - rewrite <- E1. apply surjective_pairing.
  - rewrite <- E2. apply surjective_pairing.
  - exists v1, v2, b. vm_compute in E1, E2.
    injection E1 as <-. injection E2 as <-. repeat split; assumption.
Defined.

(** ** Owner isolation *)

Section isolation.
Context {ext : Externals}.
Import HybridStorageManager.

(** The rows of one owner. *)
Abbreviation owned userId rows :=
  (filter (fun r : ContactRow.t => ContactRow.user_id r = userId) rows).

Lemma getUserContacts_unfold (userId : string) (w : World) :
  getUserContacts userId w
  = (Ok (DatabaseContactManager.mapRowToContact <$>
           merge_sort DatabaseContactManager.created_desc (owned userId (contacts w))),
     w).
Proof. reflexivity. Qed.

Lemma searchContacts_unfold (userId query : string) (w : World) :
  searchContacts userId query w
  = (Ok (DatabaseContactManager.mapRowToContact <$>
           merge_sort DatabaseContactManager.created_desc
             (filter (fun r => DatabaseContactManager.matches r ("%" +:+ query +:+ "%") = true)
                     (owned userId (contacts w)))),
     w).
Proof.
  unfold searchContacts, DatabaseContactManager.searchContacts, bind, get, ret.
  do 4 f_equal. rewrite list_filter_filter.
  apply list_filter_iff. intros r. tauto.
Qed.

Lemma selected_owned (userId contactId : string) (rows : list ContactRow.t) :
  filter (DatabaseContactManager.selected userId contactId) rows
  = filter (fun r => ContactRow.id r = contactId) (owned userId rows).
Proof.
  rewrite list_filter_filter. apply list_filter_iff. intros r.
  unfold DatabaseContactManager.selected. tauto.
Qed.

Lemma not_selected_other (userId other contactId : string)
    (rows : list ContactRow.t) :
  userId <> other ->
  owned other (filter (fun r => ~ DatabaseContactManager.selected userId contactId r) rows)
  = owned other rows.
Proof.
  intros Hne. rewrite list_filter_filter. apply list_filter_iff. intros r.
  unfold DatabaseContactManager.selected. split; [tauto|].
  intros Hr. split; [done|]. intros [Hu _]. congruence.
Qed.

(** The retry loop neither reads nor writes the [contacts] table. *)
Lemma retry_loop_frame (rows : list ContactRow.t) (fuel : nat) (q : Query)
    (s : list Entity.t * nat) (w : World) :
  while fuel retry_cond (retry_body q) s (set_contacts rows w)
  = (fst (while fuel retry_cond (retry_body q) s w),
     set_contacts rows (snd (while fuel retry_cond (retry_body q) s w))).
Proof.
  revert s w. induction fuel as [|fuel IH]; intros s w.
  - cbn. by destruct (retry_cond s).
  - destruct (retry_cond s) eqn:Hc.
    + rewrite !while_step by done. unfold bind.
      rewrite !retry_body_unfold.
      change (answer q (clock (set_contacts rows w)) (set_contacts rows w))
        with (answer q (clock w) w).
      destruct (bool_decide _ && bool_decide _).
      * apply (IH _ (set_clock (clock w + 2000) (set_queries (S (queries w)) w))).
      * apply (IH _ (set_queries (S (queries w)) w)).
    + by rewrite !while_done.
Qed.

Lemma current_record_owned (userId originalId : string) (w : World)
    (rows : list ContactRow.t) :
  owned userId rows = owned userId (contacts w) ->
  current_record userId DataType.contact originalId (set_contacts rows w)
  = current_record userId DataType.contact originalId w.
Proof. unfold current_record. cbn [contacts set_contacts]. by intros ->. Qed.

End isolation.

(** C4. Owner isolation.  Replace the [contacts] table by any table that
    has the same rows for [owner] (the rows of other owners may be added,
    removed or changed at will, also rows that carry the identifiers of
    [owner]'s contacts): what [owner] gets from [getUserContacts],
    [searchContacts], [verifyDataIntegrity] and [deleteContact] is the
    same.  Every contact listed or found belongs to [owner], and
    [deleteContact] by [owner] leaves the rows of any [other] owner as
    they were. *)
Theorem owner_isolation {ext : Externals} (owner other contactId query : string)
    (fuel : nat) (w : World) (rows : list ContactRow.t) :
  owner <> other ->
  filter (fun r => ContactRow.user_id r = owner) rows
  = filter (fun r => ContactRow.user_id r = owner) (contacts w) ->
  let w' := set_contacts rows w in
  fst (HybridStorageManager.getUserContacts owner w')
  = fst (HybridStorageManager.getUserContacts owner w)
  /\ fst (HybridStorageManager.searchContacts owner query w')
     = fst (HybridStorageManager.searchContacts owner query w)
  /\ fst (HybridStorageManager.verifyDataIntegrity fuel owner DataType.contact contactId w')
     = fst (HybridStorageManager.verifyDataIntegrity fuel owner DataType.contact contactId w)
  /\ fst (HybridStorageManager.deleteContact owner contactId w')
     = fst (HybridStorageManager.deleteContact owner contactId w)
  /\ filter (fun r => ContactRow.user_id r = other)
       (contacts (snd (HybridStorageManager.deleteContact owner contactId w)))
     = filter (fun r => ContactRow.user_id r = other) (contacts w)
  /\ (forall (l : list Contact.t) (c : Contact.t),
        fst (HybridStorageManager.getUserContacts owner w) = Ok l
        \/ fst (HybridStorageManager.searchContacts owner query w) = Ok l ->
        c ∈ l -> Contact.userId c = owner).
Proof.
  intros Hne Hrows w'. subst w'.
  rewrite !getUserContacts_unfold, !searchContacts_unfold.
  cbn [fst contacts set_contacts]. rewrite Hrows.
  split; [reflexivity|]. split; [reflexivity|]. split; [|split; [|split]].
  - rewrite !verifyDataIntegrity_unfold, current_record_owned by done.
    destruct (HybridStorageManager.current_record _ _ _ w) as [data|]; [|done].
    destruct (HybridStorageManager.digest data) as [hex|]; [|done].
    rewrite retry_loop_frame.
    destruct (HybridStorageManager.while _ _ _ _ w) as [[s| |] u]; try done.
    cbn [fst snd]. by destruct (fst s).
  - destruct (deleteContact_unfold owner contactId w) as (hex & Hhex & ->).
    destruct (deleteContact_unfold owner contactId (set_contacts rows w))
      as (hex' & Hhex' & ->).
    cbv zeta. cbn [contacts set_contacts]. rewrite !selected_owned, Hrows.
    by case_bool_decide.
  - destruct (deleteContact_unfold owner contactId w) as (hex & Hhex & ->).
    cbv zeta. case_bool_decide; cbn [snd contacts set_contacts set_golem set_draws];
      by apply not_selected_other.
  - intros l c Hl Hc.
    assert (Hin : exists r, c = DatabaseContactManager.mapRowToContact r
                            /\ ContactRow.user_id r = owner) .
    { destruct Hl as [[= <-]|[= <-]];
        apply list_elem_of_fmap in Hc as (r & -> & Hr);
        rewrite merge_sort_Permutation in Hr; exists r; split; try done.
      - by apply list_elem_of_filter in Hr as [? _].
      - apply list_elem_of_filter in Hr as [_ Hr].
        by apply list_elem_of_filter in Hr as [? _]. }
    destruct Hin as (r & -> & Hr). exact Hr.
Qed.

Lemma owner_isolation_witness :
  let w := Demo.after (HybridStorageManager.addContact (ext := Demo.externals)
                         "u1" Demo.sarah None) Demo.empty_world in
  let colliding :=
    DatabaseContactManager.values
      (DatabaseContactManager.new_contact "u2" ContactData.empty
         1700000000000 1700000009999) in
  let w' := set_contacts (colliding :: contacts w) w in
  fst (HybridStorageManager.getUserContacts "u1" w')
  = fst (HybridStorageManager.getUserContacts "u1" w)
  /\ fst (HybridStorageManager.searchContacts "u1" "unknown" w')
     = fst (HybridStorageManager.searchContacts "u1" "unknown" w)
  /\ fst (HybridStorageManager.verifyDataIntegrity (ext := Demo.externals)
            3 "u1" DataType.contact "1700000000000" w')
     = fst (HybridStorageManager.verifyDataIntegrity (ext := Demo.externals)
              3 "u1" DataType.contact "1700000000000" w)
  /\ fst (HybridStorageManager.deleteContact (ext := Demo.externals)
            "u1" "1700000000000" w')
     = fst (HybridStorageManager.deleteContact (ext := Demo.externals)
              "u1" "1700000000000" w)
  /\ filter (fun r => ContactRow.user_id r = "u2")
       (contacts (snd (HybridStorageManager.deleteContact (ext := Demo.externals)
                         "u1" "1700000000000" w)))
     = filter (fun r => ContactRow.user_id r = "u2") (contacts w)
  /\ (forall (l : list Contact.t) (c : Contact.t),
        fst (HybridStorageManager.getUserContacts "u1" w) = Ok l
        \/ fst (HybridStorageManager.searchContacts "u1" "unknown" w) = Ok l ->
        c ∈ l -> Contact.userId c = "u1").
Proof.
  intros w colliding.
  apply (owner_isolation (ext := Demo.externals) "u1" "u2" "1700000000000"
           "unknown" 3 w (colliding :: contacts w)).
  - discriminate.
  - reflexivity.
Defined.

(** Two owners whose contacts carry the same identifier: each sees and
    deletes only their own. *)
Example colliding_identifiers :
  let w := Demo.after (HybridStorageManager.addContact (ext := Demo.externals)
                         "u1" Demo.sarah None) Demo.empty_world in
  let colliding :=
    DatabaseContactManager.values
      (DatabaseContactManager.new_contact "u2" ContactData.empty
         1700000000000 1700000009999) in
  let w' := set_contacts (colliding :: contacts w) w in
  fst (HybridStorageManager.getUserContacts "u1" w')
  = Ok [DatabaseContactManager.new_contact "u1" Demo.sarah
          1700000000000 1700000000000]
  /\ fst (HybridStorageManager.getUserContacts "u2" w')
     = Ok [DatabaseContactManager.new_contact "u2" ContactData.empty
             1700000000000 1700000009999]
  /\ fst (HybridStorageManager.searchContacts "u1" "unknown" w') = Ok []
  /\ contacts (snd (HybridStorageManager.deleteContact (ext := Demo.externals)
                      "u2" "1700000000000" w'))
     = contacts w.
Proof. vm_compute. repeat split. Qed.

(** ** Rejected uploads *)

Section uploads.
Context {ext : Externals}.
Import HybridStorageManager.

(** The synthetic locator of the [catch] branch in world [w]. *)
Lemma uploadImageToIPFS_rejected (imageBuffer : list Byte.byte)
    (filename message : string) (w : World) :
  pinata w = true ->
  pinata_upload_public_file imageBuffer filename = Rejected message ->
  uploadImageToIPFS imageBuffer filename w =
    if uses_mock message then
      let mockHash := "Qm" +:+ String.substring 0 44 (Math_random_base36 (draws w)) in
      (Ok {| IPFSUploadResult.ipfsHash := mockHash;
             IPFSUploadResult.pinataUrl :=
               "https://" +:+ or_string (PINATA_GATEWAY w) "gateway.pinata.cloud"
               +:+ "/ipfs/" +:+ mockHash;
             IPFSUploadResult.size := Z.of_nat (length imageBuffer) |},
       set_draws (S (draws w)) w)
    else (Throw (PinataError message), w).
Proof.
  intros Hp Hr. unfold uploadImageToIPFS. unfold bind at 1. unfold get.
  rewrite Hp, Hr. cbn [negb].
  destruct (uses_mock message); [|reflexivity].
  unfold bind, Math_random_substr, gateway_url, get, ret, bind.
  cbn [fst snd PINATA_GATEWAY set_draws].
  do 2 f_equal. f_equal. by case_decide.
Qed.

Lemma db_addPhotoToContact_rows (userId contactId : string)
    (photoData : PhotoData.t) (w w' : World) (success : bool) (r : ContactRow.t) :
  DatabaseContactManager.addPhotoToContact userId contactId photoData w
  = (Ok success, w') ->
  r ∈ contacts w' ->
  DatabaseContactManager.selected userId contactId r ->
  ContactRow.photo_path r = PhotoData.photoPath photoData
  /\ ContactRow.photo_file_id r = PhotoData.photoFileId photoData.
Proof.
  unfold DatabaseContactManager.addPhotoToContact, bind, Date_now, get, put, ret.
  intros [= _ <-]. cbn [contacts set_contacts].
  intros (r0 & -> & _)%list_elem_of_fmap.
  case_decide as Hsel; [done|]. intros Hsel'. by destruct Hsel.
Qed.

Lemma db_addPhotoToContact_Ok (userId contactId : string)
    (photoData : PhotoData.t) (w : World) :
  exists (success : bool) (w' : World),
    DatabaseContactManager.addPhotoToContact userId contactId photoData w
    = (Ok success, w')
    /\ clock w' = clock w /\ draws w' = draws w /\ golem w' = golem w.
Proof.
  unfold DatabaseContactManager.addPhotoToContact, bind, Date_now, get, put, ret.
  eexists _, _. split; [reflexivity|]. done.
Qed.

Lemma store_image_hash_Ok (userId contactId ipfsHash : string) (w : World) :
  exists w' : World,
    store_image_hash userId contactId ipfsHash w = (Ok tt, w')
    /\ contacts w' = contacts w.
Proof.
  unfold store_image_hash, bind, Date_now, Math_random_substr.
  erewrite generateHash_Some by apply digest_string.
  eexists. split; reflexivity.
Qed.

Lemma db_addPhotoToContact_unfold (userId contactId : string)
    (photoData : PhotoData.t) (w : World) :
  DatabaseContactManager.addPhotoToContact userId contactId photoData w
  = (Ok (bool_decide
           (0 < length (filter (DatabaseContactManager.selected userId contactId)
                               (contacts w)))%nat),
     set_contacts
       ((fun r =>
           if decide (DatabaseContactManager.selected userId contactId r)
           then DatabaseContactManager.UPDATE_photo
                  (PhotoData.photoPath photoData) (PhotoData.photoFileId photoData)
                  (default (clock w) (PhotoData.photoTakenAt photoData))
                  (default false (PhotoData.hasFacialData photoData)) r
           else r) <$> contacts w) w).
Proof. reflexivity. Qed.

Lemma attach_new_row (userId contactId : string) (path file : option string)
    (taken : Z) (rows : list ContactRow.t) (row : ContactRow.t) :
  contactId ∉ ContactRow.id <$> rows ->
  DatabaseContactManager.selected userId contactId row ->
  attach userId contactId path file taken <$> (rows ++ [row])
  = rows ++ [DatabaseContactManager.UPDATE_photo path file taken false row].
Proof.
  intros Hfresh Hsel. rewrite fmap_app. f_equal.
  - induction rows as [|r rows IH]; [done|].
    cbn [fmap list_fmap] in *. apply not_elem_of_cons in Hfresh as [Hr Hrows].
    rewrite (IH Hrows). f_equal. unfold attach.
    rewrite decide_False; [done|]. by intros [_ Hi].
  - cbn. unfold attach. by rewrite decide_True.
Qed.

(** [addContact] with photo bytes when the upload is answered by the
    mock locator. *)
Lemma addContact_mocked (userId : string) (contactData : ContactData.t)
    (imageBuffer : list Byte.byte) (message : string) (w : World) :
  pinata w = true ->
  (forall filename : string,
     pinata_upload_public_file imageBuffer filename = Rejected message) ->
  uses_mock message = true ->
  JS.Number_toString (clock w) ∉ ContactRow.id <$> contacts w ->
  let c := DatabaseContactManager.new_contact userId contactData
             (clock w) (clock w) in
  let mockHash :=
    "Qm" +:+ String.substring 0 44 (Math_random_base36 (draws w)) in
  let mockUrl :=
    "https://" +:+ or_string (PINATA_GATEWAY w) "gateway.pinata.cloud"
    +:+ "/ipfs/" +:+ mockHash in
  exists (w' : World) (e_img e_c : Entity.t),
    addContact userId contactData (Some imageBuffer) w = (Ok c, w')
    /\ contacts w'
       = contacts w ++
           [DatabaseContactManager.UPDATE_photo (Some mockUrl) (Some mockHash)
              (clock w) false (DatabaseContactManager.values c)]
    /\ golem w' = golem w ++ [e_img; e_c]
    /\ DataHash.dataType (Entity.storageValue e_img) = DataType.image
    /\ DataHash.ipfsHash (Entity.storageValue e_img) = Some mockHash
    /\ DataHash.dataType (Entity.storageValue e_c) = DataType.contact.
Proof.
  intros Hp Hrej Hmock Hfresh c mockHash mockUrl.
  unfold addContact. unfold bind at 1. rewrite db_addContact_unfold. cbv zeta.
  rewrite bool_decide_false by done.
  fold c. set (w0 := set_contacts _ w).
  unfold bind at 1. unfold bind at 1.
  unfold photo_filename at 1. unfold bind at 1, Date_now at 1, ret at 1.
  unfold bind at 1.
  rewrite (uploadImageToIPFS_rejected _ _ message) by auto.
  rewrite Hmock. cbv zeta.
  unfold bind at 1, Date_now at 1.
  unfold bind at 1.
  rewrite db_addPhotoToContact_unfold.
  cbn [PhotoData.photoPath PhotoData.photoFileId PhotoData.photoTakenAt
       PhotoData.hasFacialData default IPFSUploadResult.pinataUrl
       IPFSUploadResult.ipfsHash].
  unfold bind at 1.
  unfold store_image_hash at 1. unfold bind at 1, Date_now at 1.
  unfold bind at 1, Math_random_substr at 1.
  unfold bind at 1. erewrite generateHash_Some by apply digest_string.
  unfold bind at 1, Date_now at 1.
  unfold storeHashInGolem at 1. unfold bind at 1, Date_now at 1.
  unfold bind at 1, get at 1. unfold put at 1.
  unfold ret at 1.
  destruct (digest_object
    (match Contact_value c with JS.VObject props => props | _ => [] end))
    as [hex Hhex].
  unfold bind at 1. erewrite generateHash_Some by exact Hhex.
  unfold bind, Date_now, Math_random_substr, storeHashInGolem, bind, Date_now,
    get, put, ret.
  cbn [clock set_draws golem set_golem contacts set_contacts draws
       PINATA_GATEWAY w0].
  eexists _, _, _. split; [reflexivity|].
  cbn [contacts golem set_golem set_draws set_contacts Entity.storageValue
       DataHash.dataType DataHash.ipfsHash].
  split.
  - subst w0. cbn [contacts set_contacts clock].
    apply (attach_new_row userId (Contact.id c)); [exact Hfresh|done].
  - subst w0. cbn [golem set_contacts]. rewrite <- app_assoc. done.
Qed.

End uploads.

(** C2 (as the code has it). When Pinata rejects the payload, the outcome
    depends on the message of the rejection.  If it contains none of
    "Authentication failed", "Not Authorized" and "File size must be
    greater than 0", [addPhotoToContact] fails with that upload error and
    leaves every store as it was, and [addContact] with photo bytes, for a
    new identifier and a field set that fits the columns, fails with it
    after the contact row has been inserted, the photo fields being those
    of the field set and the ledger untouched.  If it contains one of them
    (an authentication failure, an empty file), the upload is treated as
    done with the mock locator: ["Qm"] followed by the base-36 digits of
    one draw of [Math.random], 44 of them at most.  Then, the locator and
    its gateway address fitting their columns, neither operation fails:
    [addPhotoToContact] sets the photo reference of the contact to the
    mock locator, and [addContact] with photo bytes stores the contact
    with the mock locator as its photo reference and anchors an [image]
    digest for it. *)
Theorem rejected_upload {ext : Externals} (userId contactId : string)
    (contactData : ContactData.t) (imageBuffer : list Byte.byte)
    (message : string) (w : World) :
  pinata w = true ->
  (forall filename : string,
     pinata_upload_public_file imageBuffer filename = Rejected message) ->
  let c := DatabaseContactManager.new_contact userId contactData
             (clock w) (clock w) in
  let mockHash :=
    "Qm" +:+ String.substring 0 44 (Math_random_base36 (draws w)) in
  let mockUrl :=
    "https://" +:+ or_string (PINATA_GATEWAY w) "gateway.pinata.cloud"
    +:+ "/ipfs/" +:+ mockHash in
  if HybridStorageManager.uses_mock message then
    DatabaseContactManager.photo_fits mockUrl mockHash ->
    (exists (success : bool) (w' : World),
       HybridStorageManager.addPhotoToContact userId contactId imageBuffer w
       = (Ok success, w')
       /\ forall r : ContactRow.t,
            r ∈ contacts w' ->
            DatabaseContactManager.selected userId contactId r ->
            ContactRow.photo_file_id r = Some mockHash)
    /\ (JS.Number_toString (clock w) ∉ ContactRow.id <$> contacts w ->
        DatabaseContactManager.fits (DatabaseContactManager.values c) ->
        exists (w' : World) (e_img e_c : Entity.t),
          HybridStorageManager.addContact userId contactData (Some imageBuffer) w
          = (Ok c, w')
          /\ contacts w'
             = contacts w ++
                 [DatabaseContactManager.UPDATE_photo (Some mockUrl)
                    (Some mockHash) (clock w) false
                    (DatabaseContactManager.values c)]
          /\ golem w' = golem w ++ [e_img; e_c]
          /\ DataHash.dataType (Entity.storageValue e_img) = DataType.image
          /\ DataHash.ipfsHash (Entity.storageValue e_img) = Some mockHash
          /\ DataHash.dataType (Entity.storageValue e_c) = DataType.contact)
  else
    HybridStorageManager.addPhotoToContact userId contactId imageBuffer w
    = (Throw (PinataError message), w)
    /\ (JS.Number_toString (clock w) ∉ ContactRow.id <$> contacts w ->
        DatabaseContactManager.fits (DatabaseContactManager.values c) ->
        HybridStorageManager.addContact userId contactData (Some imageBuffer) w
        = (Throw (PinataError message),
           set_contacts (contacts w ++ [DatabaseContactManager.values c]) w)).
Proof.
  intros Hp Hrej c mockHash mockUrl.
  destruct (HybridStorageManager.uses_mock message) eqn:Hmock.
  - intros _. split.
    + unfold HybridStorageManager.addPhotoToContact.
      unfold bind at 1. unfold HybridStorageManager.photo_filename at 1.
      unfold bind at 1, Date_now at 1, ret at 1.
      unfold bind at 1.
      rewrite (uploadImageToIPFS_rejected _ _ message) by auto.
      rewrite Hmock. cbv zeta.
      unfold bind at 1, Date_now at 1.
      set (photoData := PhotoData.mk _ _ _ _).
      unfold bind at 1.
      destruct (db_addPhotoToContact_Ok userId contactId photoData
                  (set_draws (S (draws w)) w)) as (success & w1 & Hdb & _).
      rewrite Hdb.
      assert (Hrows : forall r, r ∈ contacts w1 ->
                DatabaseContactManager.selected userId contactId r ->
                ContactRow.photo_file_id r = Some mockHash).
      { intros r Hr Hsel.
        by destruct (db_addPhotoToContact_rows _ _ _ _ _ _ r Hdb Hr Hsel) as [_ ->]. }
      destruct success.
      * unfold bind.
        destruct (store_image_hash_Ok userId contactId mockHash w1)
          as (w2 & Hst & Hc).
        cbn [IPFSUploadResult.ipfsHash]. fold mockHash. rewrite Hst.
        exists true, w2. split; [reflexivity|]. by rewrite Hc.
      * exists false, w1. split; [reflexivity|]. exact Hrows.
    + intros Hfresh _.
      by apply (addContact_mocked userId contactData imageBuffer message w).
  - split.
    + unfold HybridStorageManager.addPhotoToContact.
      unfold bind at 1. unfold HybridStorageManager.photo_filename at 1.
      unfold bind at 1, Date_now at 1, ret at 1.
      unfold bind at 1.
      rewrite (uploadImageToIPFS_rejected _ _ message) by auto.
      by rewrite Hmock.
    + intros Hfresh _. unfold HybridStorageManager.addContact.
      unfold bind at 1. rewrite db_addContact_unfold.
      rewrite bool_decide_false by done.
      unfold bind at 1. unfold bind at 1.
      unfold HybridStorageManager.photo_filename at 1.
      unfold bind at 1, Date_now at 1, ret at 1.
      unfold bind at 1.
      rewrite (uploadImageToIPFS_rejected _ _ message) by auto.
      by rewrite Hmock.
Qed.

Lemma rejected_upload_witness :
  let w := Demo.later 1
             (Demo.after (HybridStorageManager.addContact (ext := Demo.externals)
                            "u1" Demo.sarah None) Demo.empty_world) in
  let c := DatabaseContactManager.new_contact "u1" Demo.sarah
             (clock w) (clock w) in
  let mockHash :=
    "Qm" +:+ String.substring 0 44
               (Math_random_base36 (Externals := Demo.externals) (draws w)) in
  let mockUrl := "https://gateway.pinata.cloud/ipfs/" +:+ mockHash in
  (HybridStorageManager.addPhotoToContact (ext := Demo.rejects_small)
     "u1" "1700000000000" Demo.small_photo w
   = (Throw (PinataError "File too small"), w)
   /\ HybridStorageManager.addContact (ext := Demo.rejects_small)
        "u1" Demo.sarah (Some Demo.small_photo) w
      = (Throw (PinataError "File too small"),
         set_contacts (contacts w ++ [DatabaseContactManager.values c]) w))
  /\ (exists (success : bool) (w' : World),
        HybridStorageManager.addPhotoToContact (ext := Demo.externals)
          "u1" "1700000000000" [] w = (Ok success, w')
        /\ forall r : ContactRow.t,
             r ∈ contacts w' ->
             DatabaseContactManager.selected "u1" "1700000000000" r ->
             ContactRow.photo_file_id r = Some mockHash)
  /\ (exists (w' : World) (e_img e_c : Entity.t),
        HybridStorageManager.addContact (ext := Demo.externals)
          "u1" Demo.sarah (Some []) w = (Ok c, w')
        /\ contacts w'
           = contacts w ++
               [DatabaseContactManager.UPDATE_photo (Some mockUrl)
                  (Some mockHash) (clock w) false
                  (DatabaseContactManager.values c)]
        /\ golem w' = golem w ++ [e_img; e_c]
        /\ DataHash.dataType (Entity.storageValue e_img) = DataType.image
        /\ DataHash.ipfsHash (Entity.storageValue e_img) = Some mockHash
        /\ DataHash.dataType (Entity.storageValue e_c) = DataType.contact).
Proof.
  intros w c mockHash mockUrl.
  assert (Hnew : JS.Number_toString (clock w) ∉ ContactRow.id <$> contacts w).
  { apply (bool_decide_unpack _). vm_compute. exact I. }
  assert (Hfits : DatabaseContactManager.fits (DatabaseContactManager.values c)).
  { apply (bool_decide_unpack _). vm_compute. exact I. }
  split.
  - destruct (rejected_upload (ext := Demo.rejects_small) "u1" "1700000000000"
                Demo.sarah Demo.small_photo "File too small" w)
      as [Hphoto Hadd].
    + reflexivity.
    + intros filename. reflexivity.
    + split; [exact Hphoto|]. by apply Hadd.
  - pose proof (rejected_upload (ext := Demo.externals) "u1" "1700000000000"
                  Demo.sarah [] "File size must be greater than 0" w
                  eq_refl (fun _ => eq_refl)) as Hmock.
    cbv zeta in Hmock.
    change (HybridStorageManager.uses_mock "File size must be greater than 0")
      with true in Hmock.
    cbv iota in Hmock.
    destruct Hmock as [Hphoto Hadd].
    + apply (bool_decide_unpack _). vm_compute. exact I.
    + split; [exact Hphoto|]. by apply Hadd.
Defined.

(** C2 as stated fails: Pinata rejects the empty buffer ("File size must
    be greater than 0"), yet [addPhotoToContact] returns [true] and the
    contact's photo reference is set to a locator nothing was stored
    under, anchored in the ledger as an [image] digest. *)
Lemma empty_photo_gets_mock_locator :
  let w := Demo.after (HybridStorageManager.addContact (ext := Demo.externals)
                         "u1" Demo.sarah None) Demo.empty_world in
  let r := HybridStorageManager.addPhotoToContact (ext := Demo.externals)
             "u1" "1700000000000" [] w in
  (forall filename : string,
     pinata_upload_public_file (Externals := Demo.externals) [] filename
     = Rejected "File size must be greater than 0")
  /\ fst r = Ok true
  /\ ContactRow.photo_file_id <$> contacts (snd r) = [Some "Qm1k3x9q0a7zt"]
  /\ ContactRow.photo_path <$> contacts (snd r)
     = [Some "https://gateway.pinata.cloud/ipfs/Qm1k3x9q0a7zt"]
  /\ length (golem (snd r)) = S (length (golem w)).
Proof. vm_compute. repeat split. Qed.

(** ** Properties kept by every operation *)


Section keeping.
Context {ext : Externals}.
Import HybridStorageManager.

Variable P : list ContactRow.t * list BaseBuilder.t * list Entity.t -> Prop.

Lemma keeps_silent {A : Type} (m : M A) : silent m -> keeps P m.
Proof. intros Hs w Hw. by rewrite Hs. Qed.

Lemma keeps_bind {A B : Type} (m : M A) (k : A -> M B) :
  keeps P m -> (forall a, keeps P (k a)) -> keeps P (bind m k).
Proof.
  intros Hm Hk w Hw. unfold bind. specialize (Hm w Hw).
  destruct (m w) as [[a| |] w']; cbn in *; [by apply Hk|done..].
Qed.

(** The continuation only runs on values the first step can return. *)
Lemma keeps_bind_value {A B : Type} (m : M A) (k : A -> M B) :
  keeps P m ->
  (forall a, (exists w, fst (m w) = Ok a) -> keeps P (k a)) ->
  keeps P (bind m k).
Proof.
  intros Hm Hk w Hw. unfold bind. specialize (Hm w Hw).
  destruct (m w) as [[a| |] w'] eqn:E; cbn in *; [|done..].
  apply Hk; [|done]. exists w. by rewrite E.
Qed.

Lemma keeps_ret {A : Type} (a : A) : keeps P (ret a).
Proof. by intros w. Qed.

Lemma keeps_throw {A : Type} (e : Error) : keeps P (throw (A := A) e).
Proof. by intros w. Qed.

Lemma keeps_while {S : Type} (fuel : nat) (cond : S -> bool) (body : S -> M S)
    (s : S) :
  (forall s, keeps P (body s)) -> keeps P (while fuel cond body s).
Proof.
  intros Hb. revert s. induction fuel as [|fuel IH]; intros s; cbn.
  - destruct (cond s); by intros w.
  - destruct (cond s); [|apply keeps_ret]. by apply keeps_bind.
Qed.

Lemma silent_Date_now : silent Date_now.
Proof. by intros w. Qed.
Lemma silent_Math_random_substr len : silent (Math_random_substr len).
Proof. by intros w. Qed.
Lemma silent_sleep ms : silent (sleep ms).
Proof. by intros w. Qed.
Lemma silent_get : silent get.
Proof. by intros w. Qed.
Lemma silent_queryEntities q : silent (queryEntities q).
Proof. by intros w. Qed.
Lemma silent_generateHash data : silent (generateHash data).
Proof. intros w. unfold generateHash. by destruct (digest data). Qed.
Lemma silent_gateway_url cid : silent (gateway_url cid).
Proof. by intros w. Qed.
Lemma silent_photo_filename contactId : silent (photo_filename contactId).
Proof. by intros w. Qed.
Lemma silent_db_getUserContacts u : silent (DatabaseContactManager.getUserContacts u).
Proof. by intros w. Qed.
Lemma silent_db_searchContacts u q : silent (DatabaseContactManager.searchContacts u q).
Proof. by intros w. Qed.
Lemma silent_db_getStats u : silent (DatabaseContactManager.getStats u).
Proof. by intros w. Qed.
Lemma silent_db_getContactsWithPhotos u :
  silent (DatabaseContactManager.getContactsWithPhotos u).
Proof. by intros w. Qed.
Lemma silent_db_getBaseBuilderByUserId u :
  silent (BaseBuilderManager.getBaseBuilderByUserId u).
Proof. by intros w. Qed.
Lemma silent_current_data u t i : silent (current_data u t i).
Proof. intros w. by rewrite current_data_unfold. Qed.
Lemma silent_uploadImageToIPFS buffer filename :
  silent (uploadImageToIPFS buffer filename).
Proof.
  intros w. unfold uploadImageToIPFS, bind, get.
  destruct (pinata w); [|done]. cbn [negb].
  destruct (pinata_upload_public_file buffer filename) as [cid size|message];
    [done|].
  by destruct (uses_mock message).
Qed.
Lemma silent_verifyIPFSHash h : silent (verifyIPFSHash h).
Proof.
  intros w. unfold verifyIPFSHash, bind, get, put.
  rewrite (generateHash_Some _ _ _ (digest_string h)).
  by destruct (filter _ _).
Qed.

Hypothesis HP : Closed P.

Lemma keeps_storeHashInGolem hashData :
  (forall t, written (Entity.mk hashData t)) -> keeps P (storeHashInGolem hashData).
Proof. intros Hwr w Hw. by apply (closed_append P HP). Qed.

Lemma keeps_db_addContact u d : keeps P (DatabaseContactManager.addContact u d).
Proof.
  intros w Hw. rewrite db_addContact_unfold. cbv zeta.
  case_bool_decide; [done|]. by apply (closed_insert P HP).
Qed.

Lemma keeps_db_deleteContact u i : keeps P (DatabaseContactManager.deleteContact u i).
Proof. intros w Hw. by apply (closed_delete P HP). Qed.

Lemma keeps_db_addPhotoToContact u i photoData :
  keeps P (DatabaseContactManager.addPhotoToContact u i photoData).
Proof. intros w Hw. by apply (closed_update P HP). Qed.

Lemma keeps_createBaseBuilder u d : keeps P (BaseBuilderManager.createBaseBuilder u d).
Proof.
  intros w Hw. rewrite createBaseBuilder_unfold. cbv zeta.
  case_bool_decide; [done|]. by apply (closed_builder P HP).
Qed.

Ltac keeps_leaf :=
  first
    [ apply keeps_ret
    | apply keeps_throw
    | apply keeps_db_addContact
    | apply keeps_db_deleteContact
    | apply keeps_db_addPhotoToContact
    | apply keeps_createBaseBuilder
    | apply keeps_silent;
      first [ apply silent_Date_now | apply silent_Math_random_substr
            | apply silent_sleep | apply silent_get | apply silent_queryEntities
            | apply silent_generateHash | apply silent_gateway_url
            | apply silent_photo_filename | apply silent_db_getUserContacts
            | apply silent_db_searchContacts | apply silent_db_getStats
            | apply silent_db_getContactsWithPhotos
            | apply silent_db_getBaseBuilderByUserId | apply silent_current_data
            | apply silent_uploadImageToIPFS | apply silent_verifyIPFSHash ] ].

(** Walk down a chain of binds; what is left are the steps that write. *)
Ltac keeps_chain :=
  cbv beta;
  first
    [ keeps_leaf
    | match goal with
      | |- keeps _ (store_image_hash _ _ _) => idtac
      | |- keeps _ (storeHashInGolem _) => idtac
      | |- keeps _ (while _ _ _ _) => idtac
      end
    | apply keeps_bind; [keeps_chain | intros ?; keeps_chain]
    | match goal with
      | |- keeps _ (if ?b then _ else _) => destruct b; keeps_chain
      | |- keeps _ (match ?x with _ => _ end) => destruct x; keeps_chain
      end
    | idtac ].

Lemma keeps_store_image_hash u i ipfsHash : keeps P (store_image_hash u i ipfsHash).
Proof.
  unfold store_image_hash.
  apply keeps_bind; [keeps_leaf|intros now].
  apply keeps_bind; [keeps_leaf|intros r].
  apply keeps_bind_value; [keeps_leaf|]. intros h [w Hh].
  rewrite (generateHash_Some _ _ _ (digest_string ipfsHash)) in Hh.
  injection Hh as <-.
  apply keeps_bind; [keeps_leaf|intros createdAt].
  apply keeps_storeHashInGolem. intros t. split; [done|].
  intros _. exists ipfsHash. split; [done|]. apply digest_string.
Qed.

Lemma keeps_addContact u d i : keeps P (addContact u d i).
Proof.
  unfold addContact. keeps_chain.
  - apply keeps_store_image_hash.
  - apply keeps_storeHashInGolem. by intros t.
Qed.

Lemma keeps_addBaseBuilder u d : keeps P (addBaseBuilder u d).
Proof.
  unfold addBaseBuilder. keeps_chain.
  apply keeps_storeHashInGolem. by intros t.
Qed.

Lemma keeps_retry_body q s : keeps P (retry_body q s).
Proof. unfold retry_body. keeps_chain. Qed.

Lemma keeps_verifyDataIntegrity n u t i : keeps P (verifyDataIntegrity n u t i).
Proof.
  unfold verifyDataIntegrity. keeps_chain.
  apply keeps_while. apply keeps_retry_body.
Qed.

Lemma keeps_deleteContact u i : keeps P (deleteContact u i).
Proof.
  unfold deleteContact. keeps_chain.
  apply keeps_storeHashInGolem. by intros t.
Qed.

Lemma keeps_addPhotoToContact u i b : keeps P (addPhotoToContact u i b).
Proof.
  unfold addPhotoToContact. keeps_chain. apply keeps_store_image_hash.
Qed.

(** Every public operation keeps every closed property, whether it
    returns or throws. *)
Lemma perform_keeps (call : Call.t) (w : World) :
  P (stores w) -> P (stores (perform call w)).
Proof.
  destruct call; cbn [perform].
  - apply keeps_addContact.
  - apply keeps_addBaseBuilder.
  - apply keeps_verifyDataIntegrity.
  - apply keeps_silent, silent_db_getUserContacts.
  - apply keeps_silent, silent_db_searchContacts.
  - apply keeps_deleteContact.
  - apply keeps_silent, silent_db_getStats.
  - apply keeps_silent, silent_db_getBaseBuilderByUserId.
  - apply keeps_addPhotoToContact.
  - apply keeps_silent, silent_db_getContactsWithPhotos.
  - apply keeps_silent, silent_verifyIPFSHash.
Qed.

End keeping.

Section invariants.
Context {ext : Externals}.

Lemma run_keeps (P : list ContactRow.t * list BaseBuilder.t * list Entity.t -> Prop)
    (history : list (Z * Call.t)) (w : World) :
  Closed P -> P (stores w) -> P (stores (run history w)).
Proof.
  intros HP. revert w. induction history as [|[dt call] history IH]; intros w Hw.
  - exact Hw.
  - cbn. apply IH. by apply perform_keeps.
Qed.

Lemma Closed_prefix (g0 : list Entity.t) :
  Closed (fun s => g0 `prefix_of` s.2).
Proof.
  split; cbn; try done.
  intros c b g e Hg _. by apply prefix_app_r.
Qed.

Lemma Closed_keys :
  Closed (fun s => NoDup (ContactRow.id <$> s.1.1)
                   /\ NoDup (BaseBuilder.id <$> s.1.2)).
Proof.
  split; cbn.
  - intros c b g r [Hc Hb] Hr. split; [|done].
    rewrite fmap_app. apply NoDup_app. split; [done|]. split.
    + intros x Hx [->|[]%elem_of_nil]%elem_of_cons. done.
    + apply NoDup_singleton.
  - intros c b g u i [Hc Hb]. split; [|done].
    eapply sublist_NoDup; [exact Hc|].
    apply fmap_sublist, sublist_filter.
  - intros c b g u i path file taken facial [Hc Hb]. split; [|done].
    rewrite <- list_fmap_compose.
    erewrite list_fmap_ext; [exact Hc|].
    intros k r _. cbn. by case_decide.
  - intros c b g r [Hc Hb] Hr. split; [done|].
    rewrite fmap_app. apply NoDup_app. split; [done|]. split.
    + intros x Hx [->|[]%elem_of_nil]%elem_of_cons. done.
    + apply NoDup_singleton.
  - done.
Qed.

Lemma Closed_written : Closed (fun s => Forall written s.2).
Proof.
  split; cbn; try done.
  intros c b g e Hg He. apply Forall_app. split; [done|]. by constructor.
Qed.

End invariants.

(** The ledger is append-only: whatever calls are made, with whatever
    outcome, the entities that were in GolemDB stay where they are, in
    their order, and new ones come after them. *)
Theorem ledger_append_only {ext : Externals} (history : list (Z * Call.t))
    (w : World) :
  golem w `prefix_of` golem (run history w).
Proof. by apply (run_keeps _ history w (Closed_prefix (golem w))). Qed.

(** The primary keys hold: from tables whose identifiers are pairwise
    different, no history of calls produces two contacts, or two builder
    applications, with the same identifier. *)
Theorem identifiers_stay_unique {ext : Externals} (history : list (Z * Call.t))
    (w : World) :
  NoDup (ContactRow.id <$> contacts w) ->
  NoDup (BaseBuilder.id <$> base_builders w) ->
  NoDup (ContactRow.id <$> contacts (run history w))
  /\ NoDup (BaseBuilder.id <$> base_builders (run history w)).
Proof.
  intros Hc Hb. by apply (run_keeps _ history w Closed_keys).
Qed.

Lemma identifiers_stay_unique_witness :
  let history :=
    [ (0, Call.addContact "u1" Demo.sarah None);
      (0, Call.addContact "u2" ContactData.empty None);
      (1, Call.addContact "u2" ContactData.empty None);
      (5, Call.addBaseBuilder "u2" (Demo.application "Alice Johnson"));
      (5, Call.deleteContact "u1" "1700000000000") ] in
  NoDup (ContactRow.id <$> contacts (run (ext := Demo.externals) history Demo.empty_world))
  /\ NoDup (BaseBuilder.id <$>
              base_builders (run (ext := Demo.externals) history Demo.empty_world)).
Proof.
  intros history.
  apply (identifiers_stay_unique (ext := Demo.externals) history Demo.empty_world).
  - apply NoDup_nil_2.
  - apply NoDup_nil_2.
Defined.

(** [verifyIPFSHash] cannot report a mismatch.  On a ledger that holds
    only what the manager wrote (before and during any history of calls),
    and with an index that shows only stored entities, a call that finds
    the hash answers [isValid = true] with [storedHash = currentHash],
    both the digest of the hash string itself: the check tells whether
    the hash was anchored, nothing about the bytes behind it. *)
Theorem verifyIPFSHash_never_invalid {ext : Externals}
    (history : list (Z * Call.t)) (w w' : World) (ipfsHash : string)
    (v : HybridStorageManager.Verification) :
  Forall written (golem w) ->
  (forall t es e, e ∈ golem_indexed t es -> e ∈ es) ->
  HybridStorageManager.verifyIPFSHash ipfsHash (run history w) = (Ok (Some v), w') ->
  HybridStorageManager.isValid v = true
  /\ HybridStorageManager.storedHash v = sha256_hex (JS.QuoteJSONString ipfsHash)
  /\ HybridStorageManager.currentHash v = sha256_hex (JS.QuoteJSONString ipfsHash).
Proof.
  intros Hw Hsound.
  assert (Hrun : Forall written (golem (run history w)))
    by by apply (run_keeps _ history w Closed_written).
  unfold HybridStorageManager.verifyIPFSHash, bind, get, put.
  rewrite (generateHash_Some _ _ _ (digest_string ipfsHash)).
  cbn [clock golem set_queries].
  destruct (filter _ _) as [|first rest] eqn:E; [discriminate|].
  assert (Hin : first ∈ filter (HybridStorageManager.satisfies_image ipfsHash)
                  (golem_indexed (clock (run history w)) (golem (run history w))))
    by (rewrite E; left).
  apply list_elem_of_filter in Hin as [(Himg & Hh & _) Hin].
  apply Hsound in Hin.
  rewrite Forall_forall in Hrun. destruct (Hrun _ Hin) as [_ Hanch].
  destruct (Hanch Himg) as (h & Hh' & Hd).
  rewrite Hh in Hh'. injection Hh' as <-.
  rewrite digest_string in Hd. injection Hd as Hd.
  intros [= <- _]. cbn. rewrite <- Hd. split; [|done].
  by apply bool_decide_eq_true.
Qed.

Lemma verifyIPFSHash_never_invalid_witness :
  let history :=
    [ (0, Call.addContact "u1" Demo.sarah None);
      (9, Call.addPhotoToContact "u1" "1700000000000" Demo.small_photo) ] in
  let h := "QmStored_contact_1700000000000_1700000000009.jpg" in
  exists (v : HybridStorageManager.Verification),
    fst (HybridStorageManager.verifyIPFSHash (ext := Demo.externals) h
           (run (ext := Demo.externals) history Demo.empty_world)) = Ok (Some v)
    /\ HybridStorageManager.isValid v = true
    /\ HybridStorageManager.storedHash v
       = sha256_hex (Externals := Demo.externals) (JS.QuoteJSONString h)
    /\ HybridStorageManager.currentHash v
       = sha256_hex (Externals := Demo.externals) (JS.QuoteJSONString h).
Proof.
  intros history h.
  destruct (HybridStorageManager.verifyIPFSHash (ext := Demo.externals) h
              (run (ext := Demo.externals) history Demo.empty_world))
    as [[[v|]| |] w'] eqn:E; try (vm_compute in E; discriminate).
  exists v. split; [reflexivity|].
  apply (verifyIPFSHash_never_invalid (ext := Demo.externals)
           history Demo.empty_world w' h v).
  - constructor.
  - intros t es e He. exact He.
  - exact E.
Defined.

(** ** Adding, then verifying *)

Section anchoring.
Context {ext : Externals}.
Import HybridStorageManager.

(** [addContact] without a photo, when the clock reading is a new
    identifier. *)
Lemma addContact_plain (userId : string) (contactData : ContactData.t)
    (w w1 : World) (c : Contact.t) :
  addContact userId contactData None w = (Ok c, w1) ->
  c = DatabaseContactManager.new_contact userId contactData (clock w) (clock w)
  /\ (JS.Number_toString (clock w) ∉ ContactRow.id <$> contacts w)
  /\ contacts w1 = contacts w ++ [DatabaseContactManager.values c]
  /\ base_builders w1 = base_builders w
  /\ exists e : Entity.t,
       golem w1 = golem w ++ [e]
       /\ DataHash.dataType (Entity.storageValue e) = DataType.contact
       /\ DataHash.userId (Entity.storageValue e) = userId
       /\ DataHash.originalId (Entity.storageValue e) = Contact.id c
       /\ DataHash.ipfsHash (Entity.storageValue e) = None
       /\ digest (Contact_value c) = Some (DataHash.sha256Hash (Entity.storageValue e)).
Proof.
  unfold addContact. unfold bind at 1. rewrite db_addContact_unfold. cbv zeta.
  case_bool_decide as Hfresh; [discriminate|].
  set (c0 := DatabaseContactManager.new_contact _ _ _ _).
  destruct (digest_object
    (match Contact_value c0 with JS.VObject props => props | _ => [] end))
    as [hex Hhex].
  unfold bind. unfold ret at 1.
  erewrite generateHash_Some by exact Hhex.
  unfold Date_now, Math_random_substr, storeHashInGolem, bind, Date_now, get, put, ret.
  cbn [clock set_contacts set_draws draws golem contacts base_builders set_golem].
  intros [= <- <-]. cbn [contacts golem base_builders].
  split; [done|]. split; [done|]. split; [done|]. split; [done|].
  eexists. split; [reflexivity|]. cbn. repeat split. by rewrite <- Hhex.
Qed.

Lemma find_Some_unique {A : Type} (f : A -> bool) (l : list A) (x : A) :
  x ∈ l -> f x = true -> (forall y, y ∈ l -> f y = true -> y = x) ->
  find f l = Some x.
Proof.
  intros Hx Hfx Huniq. destruct (find f l) as [y|] eqn:E.
  - apply find_some in E as [Hy Hfy]. f_equal. apply Huniq; [|done].
    by apply list_elem_of_In.
  - apply find_none with (x := x) in E; [congruence|]. by apply list_elem_of_In.
Qed.

(** The record step 1 finds when the owner has exactly one row with the
    identifier. *)
Lemma current_record_row (userId originalId : string) (w : World)
    (r : ContactRow.t) :
  r ∈ contacts w ->
  ContactRow.user_id r = userId ->
  ContactRow.id r = originalId ->
  (forall r', r' ∈ contacts w -> ContactRow.id r' = originalId -> r' = r) ->
  current_record userId DataType.contact originalId w
  = Some (Contact_value (DatabaseContactManager.mapRowToContact r)).
Proof.
  intros Hr Hu Hi Huniq. unfold current_record.
  rewrite (find_Some_unique _ _ (DatabaseContactManager.mapRowToContact r)); [done|..].
  - apply list_elem_of_fmap. exists r. split; [done|].
    rewrite merge_sort_Permutation. by apply list_elem_of_filter.
  - by apply bool_decide_eq_true.
  - intros y (r' & -> & Hr')%list_elem_of_fmap Hy.
    rewrite merge_sort_Permutation in Hr'.
    apply list_elem_of_filter in Hr' as [_ Hr'].
    apply bool_decide_eq_true in Hy. f_equal. by apply Huniq.
Qed.

(** With an index that shows only stored entities, what the loop returns
    is stored and matches the query. *)
Lemma retry_loop_stored (fuel : nat) (q : Query) (s s' : list Entity.t * nat)
    (w w' : World) :
  (forall t es e, e ∈ golem_indexed t es -> e ∈ es) ->
  while fuel retry_cond (retry_body q) s w = (Ok s', w') ->
  Forall (fun e => satisfies q e /\ e ∈ golem w) (fst s) ->
  Forall (fun e => satisfies q e /\ e ∈ golem w) (fst s').
Proof.
  intros Hsound. revert s w. induction fuel as [|fuel IH]; intros s w.
  - cbn. destruct (retry_cond s); [discriminate|]. by intros [= <- _].
  - destruct (retry_cond s) eqn:Hc.
    + rewrite while_step by done. unfold bind.
      rewrite retry_body_unfold. intros Hloop _.
      assert (Hans : Forall (fun e => satisfies q e /\ e ∈ golem w)
                       (answer q (clock w) w)).
      { apply Forall_forall. intros e [? He]%list_elem_of_filter.
        split; [done|]. by eapply Hsound. }
      destruct (bool_decide _ && bool_decide _);
        match type of Hloop with
        | while _ _ _ ?s0 ?w0 = _ => exact (IH s0 w0 Hloop Hans)
        end.
    + rewrite while_done by done. by intros [= <- _].
Qed.

(** What a successful contact verification compares: the digest of the
    owner's row against the digest of a stored entity matching the
    query. *)
Lemma verifyDataIntegrity_contact_Ok (fuel : nat) (userId originalId : string)
    (w w' : World) (r : ContactRow.t) (v : Verification) :
  (forall t es e, e ∈ golem_indexed t es -> e ∈ es) ->
  r ∈ contacts w ->
  ContactRow.user_id r = userId ->
  ContactRow.id r = originalId ->
  (forall r', r' ∈ contacts w -> ContactRow.id r' = originalId -> r' = r) ->
  verifyDataIntegrity fuel userId DataType.contact originalId w = (Ok v, w') ->
  digest (Contact_value (DatabaseContactManager.mapRowToContact r))
  = Some (currentHash v)
  /\ isValid v = bool_decide (currentHash v = storedHash v)
  /\ exists e : Entity.t,
       e ∈ golem w
       /\ satisfies (mkQuery DataType.contact userId originalId) e
       /\ DataHash.sha256Hash (Entity.storageValue e) = storedHash v.
Proof.
  intros Hsound Hr Hu Hi Huniq. rewrite verifyDataIntegrity_unfold.
  rewrite (current_record_row _ _ _ r) by done.
  destruct (digest _) as [hex|]; [|discriminate].
  destruct (while _ _ _ _ w) as [[s| |] u] eqn:Hloop; try discriminate.
  apply retry_loop_stored in Hloop; [|done|constructor].
  destruct (fst s) as [|e rest]; [discriminate|].
  apply Forall_cons in Hloop as [[Hq He] _].
  intros [= <- _]. cbn. split; [done|]. split; [done|]. by exists e.
Qed.

End anchoring.

(** Anchoring round trip.  A contact added without a photo verifies:
    if the ledger held no entity for that owner and identifier before,
    and the index shows only stored entities, then a later
    [verifyDataIntegrity] on the same table and ledger either answers
    [isValid = true] with equal digests, or, when the index has shown
    nothing in three attempts, fails with "hash not found"; it never
    reports a mismatch. *)
Theorem addContact_then_verify {ext : Externals} (fuel : nat)
    (userId : string) (contactData : ContactData.t) (c : Contact.t)
    (w w1 w2 : World) :
  (3 <= fuel)%nat ->
  (forall t es e, e ∈ golem_indexed t es -> e ∈ es) ->
  (forall e, e ∈ golem w ->
     ~ HybridStorageManager.satisfies
         (HybridStorageManager.mkQuery DataType.contact userId
            (JS.Number_toString (clock w))) e) ->
  HybridStorageManager.addContact userId contactData None w = (Ok c, w1) ->
  contacts w2 = contacts w1 ->
  golem w2 = golem w1 ->
  let r := HybridStorageManager.verifyDataIntegrity
             fuel userId DataType.contact (Contact.id c) w2 in
  fst r = Throw (HashNotFoundInGolemDB 3)
  \/ exists hex : string,
       HybridStorageManager.digest (HybridStorageManager.Contact_value c) = Some hex
       /\ fst r = Ok {| HybridStorageManager.isValid := true;
                        HybridStorageManager.storedHash := hex;
                        HybridStorageManager.currentHash := hex |}.
Proof.
  intros Hfuel Hsound Hstale Hadd Hrows Hgolem r.
  apply addContact_plain in Hadd
    as (Hc & Hfresh & Hrows1 & _ & e & Hg1 & Hdt & Hu & Ho & _ & Hd).
  assert (Hid : Contact.id c = JS.Number_toString (clock w)) by by rewrite Hc.
  assert (Hrow : DatabaseContactManager.values c ∈ contacts w2).
  { rewrite Hrows, Hrows1. apply elem_of_app. right. left. }
  assert (Huniq : forall r', r' ∈ contacts w2 ->
            ContactRow.id r' = Contact.id c -> r' = DatabaseContactManager.values c).
  { intros r'. rewrite Hrows, Hrows1.
    intros [Hr'|[->|[]%elem_of_nil]%elem_of_cons]%elem_of_app Hid'; [|done].
    exfalso. apply Hfresh. rewrite <- Hid, <- Hid'.
    apply list_elem_of_fmap. by exists r'. }
  destruct (fst r) as [v| |] eqn:Hr.
  - right. exists (DataHash.sha256Hash (Entity.storageValue e)). split; [done|].
    destruct (verifyDataIntegrity_contact_Ok fuel userId (Contact.id c) w2 (snd r)
                (DatabaseContactManager.values c) v)
      as (Hcur & Hval & e' & He' & Hq' & Hst); try done.
    { by rewrite Hc. }
    { rewrite <- Hr. apply surjective_pairing. }
    rewrite mapRowToContact_values, Hd in Hcur. injection Hcur as Hcur.
    assert (e' = e) as ->.
    { rewrite Hgolem, Hg1 in He'.
      apply elem_of_app in He' as [He'|[->|[]%elem_of_nil]%elem_of_cons]; [|done].
      exfalso. apply (Hstale e' He'). by rewrite <- Hid. }
    destruct v as [valid stored current]. cbn in *. subst.
    by rewrite bool_decide_true.
  - left. subst r. rewrite verifyDataIntegrity_unfold in Hr.
    rewrite (current_record_row _ _ _ (DatabaseContactManager.values c)) in Hr;
      [|done|by rewrite Hc|done|done].
    rewrite mapRowToContact_values, Hd, retry_loop_fuel in Hr by done.
    destruct (retry_loop_bounded 3
                (HybridStorageManager.mkQuery DataType.contact userId (Contact.id c)) w2)
      as (results & attempts & w' & Hloop & _); [lia|].
    rewrite Hloop in Hr. cbn [fst] in Hr.
    destruct results; [done|discriminate].
  - exfalso. subst r. rewrite verifyDataIntegrity_unfold in Hr.
    rewrite (current_record_row _ _ _ (DatabaseContactManager.values c)) in Hr;
      [|done|by rewrite Hc|done|done].
    rewrite mapRowToContact_values, Hd, retry_loop_fuel in Hr by done.
    destruct (retry_loop_bounded 3
                (HybridStorageManager.mkQuery DataType.contact userId (Contact.id c)) w2)
      as (results & attempts & w' & Hloop & _); [lia|].
    rewrite Hloop in Hr. cbn [fst] in Hr.
    destruct results; discriminate.
Qed.

Lemma addContact_then_verify_witness :
  let w1 := Demo.after (HybridStorageManager.addContact (ext := Demo.externals)
                          "u1" Demo.sarah None) Demo.empty_world in
  let c := DatabaseContactManager.new_contact "u1" Demo.sarah
             1700000000000 1700000000000 in
  let r := HybridStorageManager.verifyDataIntegrity (ext := Demo.externals)
             3 "u1" DataType.contact (Contact.id c) (Demo.later 500 w1) in
  fst r = Throw (HashNotFoundInGolemDB 3)
  \/ exists hex : string,
       HybridStorageManager.digest (ext := Demo.externals)
         (HybridStorageManager.Contact_value c) = Some hex
       /\ fst r = Ok {| HybridStorageManager.isValid := true;
                        HybridStorageManager.storedHash := hex;
                        HybridStorageManager.currentHash := hex |}.
Proof.
  intros w1 c.
  apply (addContact_then_verify (ext := Demo.externals) 3 "u1" Demo.sarah c
           Demo.empty_world w1 (Demo.later 500 w1)).
  - lia.
  - intros t es e He. exact He.
  - intros e He. inversion He.
  - reflexivity.
  - reflexivity.
  - reflexivity.
Defined.

(** ** Canonical strings that part ways *)

Section diverging.
Import JS.


Lemma string_app_nil_r (a : string) : a +:+ "" = a.
Proof.
  induction a as [|x a IH]; [reflexivity|].
  change (String x (a +:+ "") = String x a). by rewrite IH.
Qed.







End diverging.

Section photo_digest.
Context {ext : Externals}.
Import JS HybridStorageManager.


Lemma digest_VObject (props : list (string * value)) :
  digest (VObject props)
  = Some (sha256_hex
            ("{" +:+
             join "," (members (sort_keys (keys props))
                               (serialised toISOString (sort_keys (keys props)) props))
             +:+ "}")).
Proof.
  unfold digest, stringify_sorted. cbn [Object_keys mbind option_bind].
  by rewrite SerializeJSONProperty_object.
Qed.

Lemma digest_Contact (c : Contact.t) :
  digest (Contact_value c)
  = Some (sha256_hex
            ("{" +:+
             join ","
               (members
                  (sort_keys (keys (match Contact_value c with
                                    | VObject props => props | _ => [] end)))
                  (serialised toISOString
                     (sort_keys (keys (match Contact_value c with
                                       | VObject props => props | _ => [] end)))
                     (match Contact_value c with
                      | VObject props => props | _ => [] end)))
             +:+ "}")).
Proof. apply digest_VObject. Qed.




End photo_digest.

(** ** A photo attached to an anchored contact *)

Section photo_verification.
Context {ext : Externals}.
Import HybridStorageManager.

Lemma uploadImageToIPFS_Ok (buffer : list Byte.byte) (filename : string)
    (w w' : World) (res : IPFSUploadResult.t) :
  uploadImageToIPFS buffer filename w = (Ok res, w') ->
  stores w' = stores w /\ clock w' = clock w.
Proof.
  unfold uploadImageToIPFS, bind, get.
  destruct (pinata w); [|discriminate]. cbn [negb].
  destruct (pinata_upload_public_file buffer filename) as [cid size|message].
  - by intros [= _ <-].
  - destruct (uses_mock message); [|discriminate]. by intros [= _ <-].
Qed.

Lemma store_image_hash_effect (userId contactId ipfsHash : string) (w : World) :
  exists (w' : World) (e : Entity.t),
    store_image_hash userId contactId ipfsHash w = (Ok tt, w')
    /\ contacts w' = contacts w
    /\ golem w' = golem w ++ [e]
    /\ DataHash.dataType (Entity.storageValue e) = DataType.image.
Proof.
  unfold store_image_hash, bind, Date_now, Math_random_substr.
  erewrite generateHash_Some by apply digest_string.
  eexists _, _. split; [reflexivity|]. done.
Qed.

(** A successful [addPhotoToContact]: the owner's rows with the
    identifier get a photo reference, one [image] entity is appended. *)
Lemma addPhotoToContact_true (userId contactId : string)
    (buffer : list Byte.byte) (w w1 : World) :
  addPhotoToContact userId contactId buffer w = (Ok true, w1) ->
  exists (path file : string) (e : Entity.t),
    contacts w1
    = attach userId contactId (Some path) (Some file) (clock w) <$> contacts w
    /\ golem w1 = golem w ++ [e]
    /\ DataHash.dataType (Entity.storageValue e) = DataType.image.
Proof.
  unfold addPhotoToContact. unfold bind at 1.
  unfold photo_filename at 1. unfold bind at 1, Date_now at 1, ret at 1.
  unfold bind at 1.
  destruct (uploadImageToIPFS _ _ w) as [[res| |] w0] eqn:Hup; try discriminate.
  apply uploadImageToIPFS_Ok in Hup as [Hst Hck].
  injection Hst as Hc Hb Hg.
  unfold bind at 1, Date_now at 1.
  unfold bind at 1.
  rewrite db_addPhotoToContact_unfold.
  cbn [PhotoData.photoPath PhotoData.photoFileId PhotoData.photoTakenAt
       PhotoData.hasFacialData default].
  case_bool_decide; [|by intros [= ? _]].
  unfold bind.
  match goal with
  | |- context [store_image_hash ?u ?i ?h ?w'] =>
      destruct (store_image_hash_effect u i h w') as (w2 & e & -> & Hc2 & Hg2 & Hd)
  end.
  intros [= <-]. exists (IPFSUploadResult.pinataUrl res), (IPFSUploadResult.ipfsHash res), e.
  rewrite Hc2, Hg2. cbn [contacts golem set_contacts]. rewrite Hc, Hg, Hck.
  done.
Qed.

End photo_verification.



Section photo_on_add.
Context {ext : Externals}.
Import HybridStorageManager.


End photo_on_add.



(** ** Reads, deletes and their composition *)

(** Verification is read-only: whatever the arguments, the fuel and the
    outcome, [verifyDataIntegrity] and [verifyIPFSHash] leave the contacts
    table, the applications table and the ledger exactly as they were;
    a mismatch is reported, never repaired. *)
Theorem verification_is_read_only {ext : Externals} (fuel : nat)
    (userId : string) (dataType : DataType.t) (originalId ipfsHash : string)
    (w : World) :
  stores (snd (HybridStorageManager.verifyDataIntegrity
                 fuel userId dataType originalId w)) = stores w
  /\ stores (snd (HybridStorageManager.verifyIPFSHash ipfsHash w)) = stores w.
Proof.
  split.
  - by apply (keeps_verifyDataIntegrity (fun s => s = stores w)).
  - apply silent_verifyIPFSHash.
Qed.

Section deleting_twice.
Context {ext : Externals}.

Lemma set_contacts_same (w : World) : set_contacts (contacts w) w = w.
Proof. by destruct w. Qed.

Lemma filter_not_selected_id (userId contactId : string)
    (rows : list ContactRow.t) :
  (forall r, r ∈ rows -> ~ DatabaseContactManager.selected userId contactId r) ->
  filter (fun r => ~ DatabaseContactManager.selected userId contactId r) rows = rows
  /\ filter (DatabaseContactManager.selected userId contactId) rows = [].
Proof.
  intros Hno. induction rows as [|r rows IH]; [done|].
  destruct IH as [IH1 IH2]. { intros r' Hr'. apply Hno. by right. }
  assert (Hr : ~ DatabaseContactManager.selected userId contactId r)
    by (apply Hno; left).
  rewrite !filter_cons. rewrite decide_True by done. rewrite decide_False by done.
  by rewrite IH1, IH2.
Qed.

(** Deleting what the owner does not have changes nothing at all. *)
Lemma deleteContact_absent (userId contactId : string) (w : World) :
  (forall r, r ∈ contacts w -> ~ DatabaseContactManager.selected userId contactId r) ->
  HybridStorageManager.deleteContact userId contactId w = (Ok false, w).
Proof.
  intros Hno. destruct (deleteContact_unfold userId contactId w) as (hex & _ & ->).
  cbv zeta. destruct (filter_not_selected_id _ _ _ Hno) as [-> ->].
  rewrite bool_decide_false by (cbn; lia). by rewrite set_contacts_same.
Qed.

End deleting_twice.

(** [deleteContact] is idempotent: once a delete has returned, a second
    delete of the same identifier by the same owner, at any later time and
    whatever the ledger holds by then, returns [false], appends no marker
    and leaves the whole world unchanged. *)
Theorem deleteContact_twice {ext : Externals} (userId contactId : string)
    (deleted : bool) (w w1 w2 : World) :
  HybridStorageManager.deleteContact userId contactId w = (Ok deleted, w1) ->
  contacts w2 = contacts w1 ->
  HybridStorageManager.deleteContact userId contactId w2 = (Ok false, w2).
Proof.
  intros Hdel Hrows. apply deleteContact_contacts in Hdel.
  apply deleteContact_absent. intros r. rewrite Hrows, Hdel.
  by intros [? _]%list_elem_of_filter.
Qed.

Lemma deleteContact_twice_witness :
  let w := Demo.after (HybridStorageManager.addContact (ext := Demo.externals)
                         "u1" Demo.sarah None) Demo.empty_world in
  let w1 := Demo.after (HybridStorageManager.deleteContact (ext := Demo.externals)
                          "u1" "1700000000000") w in
  HybridStorageManager.deleteContact (ext := Demo.externals)
    "u1" "1700000000000" (Demo.later 1000 w1)
  = (Ok false, Demo.later 1000 w1).
Proof.
  intros w w1.
  apply (deleteContact_twice (ext := Demo.externals) "u1" "1700000000000" true
           w w1 (Demo.later 1000 w1)).
  - reflexivity.
  - reflexivity.
Defined.

(** Adding then deleting: when [addContact] has returned contact [c],
    [deleteContact] for its identifier by the same owner returns [true],
    puts the contacts table back to what it was before the add, and the
    ledger has grown by the contact digest and the deletion marker. *)
Theorem addContact_then_deleteContact {ext : Externals} (userId : string)
    (contactData : ContactData.t) (c : Contact.t) (w w1 : World) :
  HybridStorageManager.addContact userId contactData None w = (Ok c, w1) ->
  exists (w2 : World) (anchor marker : Entity.t),
    HybridStorageManager.deleteContact userId (Contact.id c) w1 = (Ok true, w2)
    /\ contacts w2 = contacts w
    /\ golem w2 = golem w ++ [anchor; marker]
    /\ DataHash.originalId (Entity.storageValue anchor) = Contact.id c
    /\ DataHash.originalId (Entity.storageValue marker) = Contact.id c.
Proof.
  intros Hadd.
  apply addContact_plain in Hadd
    as (Hc & Hfresh & Hrows1 & _ & e & Hg1 & _ & _ & Ho & _ & _).
  assert (Hid : Contact.id c = JS.Number_toString (clock w)) by by rewrite Hc.
  assert (Hu : Contact.userId c = userId) by by rewrite Hc.
  destruct (deleteContact_unfold userId (Contact.id c) w1) as (hex & _ & ->).
  cbv zeta. rewrite Hrows1, !filter_app.
  assert (Hno : forall r, r ∈ contacts w ->
            ~ DatabaseContactManager.selected userId (Contact.id c) r).
  { intros r Hr [_ Hi]. apply Hfresh. rewrite <- Hid, <- Hi.
    apply list_elem_of_fmap. by exists r. }
  destruct (filter_not_selected_id _ _ _ Hno) as [-> ->].
  assert (Hsel : DatabaseContactManager.selected userId (Contact.id c)
                   (DatabaseContactManager.values c)) by done.
  rewrite !filter_cons, !filter_nil.
  rewrite decide_True by done. rewrite decide_False by tauto.
  rewrite bool_decide_true by (cbn; lia).
  eexists _, e, _. split; [reflexivity|].
  cbn [contacts golem set_golem set_draws set_contacts].
  rewrite app_nil_r, Hg1, <- app_assoc. done.
Qed.

Lemma addContact_then_deleteContact_witness :
  let w1 := Demo.after (HybridStorageManager.addContact (ext := Demo.externals)
                          "u1" Demo.sarah None) Demo.empty_world in
  let c := DatabaseContactManager.new_contact "u1" Demo.sarah
             1700000000000 1700000000000 in
  exists (w2 : World) (anchor marker : Entity.t),
    HybridStorageManager.deleteContact (ext := Demo.externals)
      "u1" (Contact.id c) w1 = (Ok true, w2)
    /\ contacts w2 = contacts Demo.empty_world
    /\ golem w2 = golem Demo.empty_world ++ [anchor; marker]
    /\ DataHash.originalId (Entity.storageValue anchor) = Contact.id c
    /\ DataHash.originalId (Entity.storageValue marker) = Contact.id c.
Proof.
  intros w1 c.
  apply (addContact_then_deleteContact (ext := Demo.externals) "u1" Demo.sarah c
           Demo.empty_world w1).
  reflexivity.
Defined.

(** ** Listing and searching *)

Section like.
Import Sql.

Lemma list_ascii_app (a b : string) :
  String.list_ascii_of_string (a +:+ b)
  = String.list_ascii_of_string a ++ String.list_ascii_of_string b.
Proof.
  induction a as [|x a IH]; [done|].
  change (String x a +:+ b) with (String x (a +:+ b)). cbn. by rewrite IH.
Qed.

Lemma string_of_list_app (a b : list ascii) :
  String.string_of_list_ascii (a ++ b)
  = String.string_of_list_ascii a +:+ String.string_of_list_ascii b.
Proof.
  induction a as [|x a IH]; [done|]. cbn.
  change (String x ?s +:+ ?t) with (String x (s +:+ t)). by rewrite IH.
Qed.

Lemma LOWER_app (a b : string) : LOWER (a +:+ b) = LOWER a +:+ LOWER b.
Proof.
  induction a as [|x a IH]; [done|].
  change (String x a +:+ b) with (String x (a +:+ b)). cbn [LOWER].
  change (String ?y ?s +:+ ?t) with (String y (s +:+ t)). by rewrite IH.
Qed.

Lemma lower_ascii_idem (c : ascii) : lower_ascii (lower_ascii c) = lower_ascii c.
Proof. by destruct c as [[] [] [] [] [] [] [] []]. Qed.

Lemma LOWER_idem (s : string) : LOWER (LOWER s) = LOWER s.
Proof. induction s as [|c s IH]; [done|]. cbn. by rewrite lower_ascii_idem, IH. Qed.

Lemma lower_ascii_wildcard (c : ascii) :
  c <> "%"%char /\ c <> "_"%char /\ c <> "\"%char ->
  lower_ascii c <> "%"%char /\ lower_ascii c <> "_"%char
  /\ lower_ascii c <> "\"%char.
Proof. by destruct c as [[] [] [] [] [] [] [] []]. Qed.

Lemma wildcard_free_LOWER (q : string) :
  wildcard_free q -> wildcard_free (LOWER q).
Proof.
  unfold wildcard_free. induction q as [|c q IH]; [done|]. cbn.
  intros [Hc Hq]%Forall_cons. constructor; [by apply lower_ascii_wildcard | by apply IH].
Qed.

Lemma like_percent (p s : list ascii) :
  like_chars ("%"%char :: p) s
  = like_chars p s
    || match s with
       | [] => false
       | _ :: s' => like_chars ("%"%char :: p) s'
       end.
Proof. by destruct s. Qed.

Lemma like_percent_iff (p s : list ascii) :
  like_chars ("%"%char :: p) s = true
  <-> exists a t, s = a ++ t /\ like_chars p t = true.
Proof.
  induction s as [|x s IH]; rewrite like_percent, orb_true_iff.
  - split.
    + intros [H|H]; [by exists [], [] | done].
    + intros (a & t & Hs & H). symmetry in Hs.
      apply app_eq_nil in Hs as [-> ->]. by left.
  - rewrite IH. split.
    + intros [H | (a & t & -> & H)]; [by exists [], (x :: s) | by exists (x :: a), t].
    + intros (a & t & Hs & H). destruct a as [|y a]; cbn in Hs.
      * subst t. by left.
      * injection Hs as -> ->. right. by exists a, t.
Qed.

Lemma like_underscore (p s : list ascii) :
  like_chars ("_"%char :: p) s
  = match s with [] => false | _ :: s' => like_chars p s' end.
Proof. reflexivity. Qed.

Lemma like_literal (c : ascii) (p s : list ascii) :
  c <> "%"%char /\ c <> "_"%char /\ c <> "\"%char ->
  like_chars (c :: p) s
  = match s with
    | [] => false
    | x :: s' => bool_decide (x = c) && like_chars p s'
    end.
Proof.
  intros (H1 & H2 & H3). cbn [like_chars].
  destruct (decide (c = "%"%char)); [done|].
  destruct (decide (c = "_"%char)); [done|].
  destruct (decide (c = "\"%char)); [done|]. done.
Qed.

Lemma like_literals (q rest s : list ascii) :
  Forall (fun c : ascii => c <> "%"%char /\ c <> "_"%char /\ c <> "\"%char) q ->
  like_chars (q ++ rest) s = true
  <-> exists t, s = q ++ t /\ like_chars rest t = true.
Proof.
  intros Hq. revert s. induction Hq as [|c q Hc Hq IH]; intros s.
  - cbn. split; [by exists s | by intros (t & -> & H)].
  - cbn [app]. rewrite like_literal by done. destruct s as [|x s].
    + split; [done | by intros (t & ? & _)].
    + rewrite andb_true_iff, bool_decide_eq_true, IH. split.
      * intros (-> & t & -> & H). by exists t.
      * intros (t & [= -> ->] & H). split; [done | by exists t].
Qed.

Lemma like_any (s : list ascii) : like_chars ["%"%char] s = true.
Proof. apply like_percent_iff. exists s, []. by rewrite app_nil_r. Qed.

Lemma like_substring (q s : list ascii) :
  Forall (fun c : ascii => c <> "%"%char /\ c <> "_"%char /\ c <> "\"%char) q ->
  like_chars ("%"%char :: q ++ ["%"%char]) s = true
  <-> exists a b, s = a ++ q ++ b.
Proof.
  intros Hq. rewrite like_percent_iff. split.
  - intros (a & t & -> & H). apply like_literals in H as (b & -> & _); [|done].
    by exists a, b.
  - intros (a & b & ->). exists a, (q ++ b). split; [done|].
    apply like_literals; [done|]. exists b. split; [done | apply like_any].
Qed.

Lemma pattern_chars (q : string) :
  String.list_ascii_of_string ("%" +:+ q +:+ "%")
  = "%"%char :: String.list_ascii_of_string q ++ ["%"%char].
Proof.
  change ("%" +:+ q +:+ "%") with (String "%"%char (q +:+ "%")).
  cbn [String.list_ascii_of_string]. by rewrite list_ascii_app.
Qed.

Lemma LOWER_pattern (q : string) :
  LOWER ("%" +:+ q +:+ "%") = "%" +:+ LOWER q +:+ "%".
Proof. by rewrite !LOWER_app. Qed.

Lemma contains_chars (s q : string) :
  contains s q
  <-> exists a b, String.list_ascii_of_string s
                  = a ++ String.list_ascii_of_string q ++ b.
Proof.
  split.
  - intros (a & b & ->). exists (String.list_ascii_of_string a),
      (String.list_ascii_of_string b). by rewrite !list_ascii_app.
  - intros (a & b & H). exists (String.string_of_list_ascii a),
      (String.string_of_list_ascii b).
    rewrite <- (String.string_of_list_ascii_of_string s), H.
    by rewrite !string_of_list_app, String.string_of_list_ascii_of_string.
Qed.

(** A query without pattern characters is a case-insensitive substring
    test. *)
Lemma LIKE_substring (s q : string) :
  wildcard_free q ->
  LIKE (LOWER s) (LOWER ("%" +:+ q +:+ "%")) = true
  <-> contains (LOWER s) (LOWER q).
Proof.
  intros Hq%wildcard_free_LOWER. rewrite LOWER_pattern, contains_chars.
  unfold LIKE. rewrite pattern_chars. by apply like_substring.
Qed.

Lemma lower_like_iff (col : option string) (p : string) :
  lower_like col p = true
  <-> exists s, col = Some s /\ LIKE (LOWER s) (LOWER p) = true.
Proof.
  destruct col as [s|]; cbn.
  - split; [by exists s | by intros (? & [= <-] & ?)].
  - split; [done | by intros (? & ? & _)].
Qed.

Lemma exists_tag_like_iff (tags : option (list string)) (p : string) :
  exists_tag_like tags p = true
  <-> exists s, s ∈ default [] tags /\ LIKE (LOWER s) (LOWER p) = true.
Proof.
  destruct tags as [ts|]; cbn.
  - rewrite existsb_exists. by setoid_rewrite list_elem_of_In.
  - split; [done | by intros (? & ?%elem_of_nil & _)].
Qed.

Lemma matches_searched (r : ContactRow.t) (p : string) :
  DatabaseContactManager.matches r p = true
  <-> exists s, s ∈ searched r /\ LIKE (LOWER s) (LOWER p) = true.
Proof.
  split.
  - unfold DatabaseContactManager.matches. rewrite !orb_true_iff.
    intros H.
    repeat match type of H with _ \/ _ => destruct H as [H|H] end;
      first [ apply lower_like_iff in H as (s & Hs & H)
            | apply exists_tag_like_iff in H as (s & Hs & H) ];
      exists s; (split; [|exact H]); unfold searched.
    1: { injection Hs as <-. left. }
    1-8: right; apply elem_of_app; left; apply list_elem_of_omap;
         exists (Some s); (split; [|done]); rewrite <- Hs;
         repeat constructor.
    right. apply elem_of_app. by right.
  - intros (s & Hin & H). unfold searched in Hin.
    apply elem_of_cons in Hin as [-> | Hin].
    { unfold DatabaseContactManager.matches. cbn [lower_like]. by rewrite H. }
    apply elem_of_app in Hin as [Hin | Hin].
    + apply list_elem_of_omap in Hin as (o & Ho & Hid). cbn in Hid. subst o.
      assert (F : forall col, col = Some s -> lower_like col p = true).
      { intros col ->. exact H. }
      unfold DatabaseContactManager.matches.
      repeat (apply elem_of_cons in Ho as [Ho | Ho];
              [symmetry in Ho; rewrite (F _ Ho), ?orb_true_r; reflexivity|]).
      by apply elem_of_nil in Ho.
    + assert (F : exists_tag_like (ContactRow.tags r) p = true).
      { apply exists_tag_like_iff. by exists s. }
      unfold DatabaseContactManager.matches. by rewrite F, ?orb_true_r.
Qed.

End like.

Section listing.
Context {ext : Externals}.
Import HybridStorageManager.

#[local] Instance created_desc_trans :
  Transitive DatabaseContactManager.created_desc.
Proof. intros a b c. unfold DatabaseContactManager.created_desc. lia. Qed.

#[local] Instance created_desc_total :
  Total DatabaseContactManager.created_desc.
Proof. intros a b. unfold DatabaseContactManager.created_desc. lia. Qed.

Lemma sorted_rows_newest_first (rows : list ContactRow.t) :
  StronglySorted newest_first
    (DatabaseContactManager.mapRowToContact <$>
       merge_sort DatabaseContactManager.created_desc rows).
Proof.
  eapply StronglySorted_fmap; [|apply StronglySorted_merge_sort; apply _].
  intros x y H. exact H.
Qed.

Lemma listed_rows (userId : string) (w : World) :
  getUserContacts userId w
  = (Ok (DatabaseContactManager.mapRowToContact <$>
           merge_sort DatabaseContactManager.created_desc
             (filter (fun r => ContactRow.user_id r = userId) (contacts w))),
     w).
Proof. reflexivity. Qed.

Lemma searched_rows (userId query : string) (w : World) :
  searchContacts userId query w
  = (Ok (DatabaseContactManager.mapRowToContact <$>
           merge_sort DatabaseContactManager.created_desc
             (filter (fun r => DatabaseContactManager.matches r
                                 ("%" +:+ query +:+ "%") = true)
                (filter (fun r => ContactRow.user_id r = userId) (contacts w)))),
     w).
Proof. apply searchContacts_unfold. Qed.

End listing.

(** [getUserContacts] returns the contacts of the owner's rows, all of
    them and no others (with multiplicity), newest first, and leaves the
    world as it is. *)
Theorem getUserContacts_newest_first (userId : string)
    (w : World) :
  exists l : list Contact.t,
    HybridStorageManager.getUserContacts userId w = (Ok l, w)
    /\ l ≡ₚ DatabaseContactManager.mapRowToContact <$>
             filter (fun r => ContactRow.user_id r = userId) (contacts w)
    /\ StronglySorted newest_first l.
Proof.
  eexists. split; [apply listed_rows|]. split.
  - by rewrite merge_sort_Permutation.
  - apply sorted_rows_newest_first.
Qed.

(** Insert then list: the contact [addContact] returned is in the owner's
    list afterwards, and the list of every other owner is the one they had
    before. *)
Theorem addContact_then_listed {ext : Externals} (userId other : string)
    (contactData : ContactData.t) (c : Contact.t) (w w1 : World) :
  HybridStorageManager.addContact userId contactData None w = (Ok c, w1) ->
  other <> userId ->
  exists l : list Contact.t,
    HybridStorageManager.getUserContacts userId w1 = (Ok l, w1)
    /\ c ∈ l
    /\ fst (HybridStorageManager.getUserContacts other w1)
       = fst (HybridStorageManager.getUserContacts other w).
Proof.
  intros Hadd Hne.
  apply addContact_plain in Hadd as (Hc & _ & Hrows & _).
  assert (Hu : Contact.userId c = userId) by by rewrite Hc.
  eexists. split; [apply listed_rows|]. rewrite !listed_rows, Hrows, !filter_app.
  rewrite !filter_cons, !filter_nil. cbn [fst].
  rewrite decide_True by exact Hu.
  rewrite decide_False by (cbn; by rewrite Hu).
  split; [|by rewrite app_nil_r].
  rewrite merge_sort_Permutation, fmap_app. apply elem_of_app. right.
  cbn. rewrite mapRowToContact_values. left.
Qed.

Lemma addContact_then_listed_witness :
  let c := DatabaseContactManager.new_contact "u1" Demo.sarah
             1700000000000 1700000000000 in
  let w1 := Demo.after (HybridStorageManager.addContact (ext := Demo.externals)
                          "u1" Demo.sarah None) Demo.empty_world in
  exists l : list Contact.t,
    HybridStorageManager.getUserContacts "u1" w1 = (Ok l, w1)
    /\ c ∈ l
    /\ fst (HybridStorageManager.getUserContacts "u2" w1)
       = fst (HybridStorageManager.getUserContacts "u2" Demo.empty_world).
Proof.
  intros c w1.
  apply (addContact_then_listed (ext := Demo.externals) "u1" "u2" Demo.sarah c
           Demo.empty_world w1).
  - reflexivity.
  - discriminate.
Defined.

(** The empty query selects everything: [searchContacts userId ""] is
    [getUserContacts userId], the same contacts in the same order. *)
Theorem searchContacts_empty_query (userId : string)
    (w : World) :
  HybridStorageManager.searchContacts userId "" w
  = HybridStorageManager.getUserContacts userId w.
Proof.
  rewrite searched_rows, listed_rows. do 4 f_equal.
  induction (filter _ (contacts w)) as [|r rows IH]; [done|].
  rewrite filter_cons, IH. rewrite decide_True; [done|].
  apply matches_searched. exists (ContactRow.name r). split; [left|].
  apply LIKE_substring; [constructor|]. by exists "", (Sql.LOWER (ContactRow.name r)).
Qed.

(** The query is compared without regard to case: two queries that differ
    only in the case of their ASCII letters return the same contacts in
    the same order. *)
Theorem searchContacts_case_insensitive (userId : string)
    (query1 query2 : string) (w : World) :
  Sql.LOWER query1 = Sql.LOWER query2 ->
  HybridStorageManager.searchContacts userId query1 w
  = HybridStorageManager.searchContacts userId query2 w.
Proof.
  intros Hq. rewrite !searched_rows. do 4 f_equal.
  apply list_filter_iff. intros r.
  rewrite !matches_searched. by rewrite !LOWER_pattern, Hq.
Qed.

Lemma searchContacts_case_insensitive_witness :
  HybridStorageManager.searchContacts "u1" "Sarah"
    (Demo.after (HybridStorageManager.addContact (ext := Demo.externals)
                   "u1" Demo.sarah None) Demo.empty_world)
  = HybridStorageManager.searchContacts "u1" "sARAH"
      (Demo.after (HybridStorageManager.addContact (ext := Demo.externals)
                     "u1" Demo.sarah None) Demo.empty_world).
Proof.
  apply (searchContacts_case_insensitive
           "u1" "Sarah" "sARAH").
  reflexivity.
Defined.

(** For a query without [%], [_] and backslash, [searchContacts] returns
    every contact of the owner's rows in which the query occurs, up to
    the case of the letters [A] to [Z], in one of the searched columns or
    in a tag.  When the query and the searched text of the owner's rows
    are ASCII, it returns exactly those contacts. *)
Theorem searchContacts_substring (userId query : string)
    (w : World) :
  wildcard_free query ->
  exists l : list Contact.t,
    HybridStorageManager.searchContacts userId query w = (Ok l, w)
    /\ (forall r : ContactRow.t,
          r ∈ contacts w ->
          ContactRow.user_id r = userId ->
          (exists s, s ∈ searched r
                     /\ contains (Sql.LOWER s) (Sql.LOWER query)) ->
          DatabaseContactManager.mapRowToContact r ∈ l)
    /\ (ascii_only query ->
        (forall r : ContactRow.t,
           r ∈ contacts w -> ContactRow.user_id r = userId ->
           Forall ascii_only (searched r)) ->
        forall c : Contact.t,
          c ∈ l ->
          exists r : ContactRow.t,
            r ∈ contacts w
            /\ ContactRow.user_id r = userId
            /\ c = DatabaseContactManager.mapRowToContact r
            /\ exists s, s ∈ searched r
                         /\ contains (Sql.LOWER s) (Sql.LOWER query)).
Proof.
  intros Hq. eexists. split; [apply searched_rows|]. split.
  - intros r Hr Hu (s & Hs & Hc).
    rewrite merge_sort_Permutation. apply list_elem_of_fmap.
    exists r. split; [done|].
    apply list_elem_of_filter. split; [|by apply list_elem_of_filter].
    apply matches_searched. exists s. split; [done|]. by apply LIKE_substring.
  - intros _ _ c. rewrite merge_sort_Permutation, list_elem_of_fmap.
    intros (r & -> & Hr). apply list_elem_of_filter in Hr as [Hm Hr].
    apply list_elem_of_filter in Hr as [Hu Hr].
    exists r. repeat split; [done..|].
    apply matches_searched in Hm as (s & Hs & Hm).
    exists s. split; [done|]. by apply LIKE_substring.
Qed.

Lemma searchContacts_substring_witness :
  let w := Demo.after (HybridStorageManager.addContact (ext := Demo.externals)
                         "u1" Demo.sarah None) Demo.empty_world in
  exists l : list Contact.t,
    HybridStorageManager.searchContacts "u1" "sar" w = (Ok l, w)
    /\ (forall r : ContactRow.t,
          r ∈ contacts w ->
          ContactRow.user_id r = "u1" ->
          (exists s, s ∈ searched r
                     /\ contains (Sql.LOWER s) (Sql.LOWER "sar")) ->
          DatabaseContactManager.mapRowToContact r ∈ l)
    /\ (forall c : Contact.t,
          c ∈ l ->
          exists r : ContactRow.t,
            r ∈ contacts w
            /\ ContactRow.user_id r = "u1"
            /\ c = DatabaseContactManager.mapRowToContact r
            /\ exists s, s ∈ searched r
                         /\ contains (Sql.LOWER s) (Sql.LOWER "sar")).
Proof.
  intros w.
  destruct (searchContacts_substring "u1" "sar" w) as (l & Hl & Hif & Honly).
  - repeat constructor; discriminate.
  - exists l. split; [exact Hl|]. split; [exact Hif|]. apply Honly.
    + apply (bool_decide_unpack _). vm_compute. exact I.
    + assert (Hascii : Forall (fun r => Forall ascii_only (searched r))
                              (contacts w)).
      { apply (bool_decide_unpack _). vm_compute. exact I. }
      intros r Hr _. revert r Hr. by apply Forall_forall.
Defined.

(** The query is a [LIKE] pattern, not literal text: an underscore in it
    stands for any one character.  A contact of the owner whose name
    contains, up to case, [before], then any character [x], then [after]
    is returned for the query [before_after]. *)
Theorem searchContacts_underscore (userId : string)
    (before after : string) (x : ascii) (r : ContactRow.t) (w : World) :
  wildcard_free before -> wildcard_free after ->
  r ∈ contacts w -> ContactRow.user_id r = userId ->
  contains (Sql.LOWER (ContactRow.name r))
           (Sql.LOWER (before +:+ String x after)) ->
  exists l : list Contact.t,
    HybridStorageManager.searchContacts userId (before +:+ "_" +:+ after) w
    = (Ok l, w)
    /\ DatabaseContactManager.mapRowToContact r ∈ l.
Proof.
  intros Hb%wildcard_free_LOWER Ha%wildcard_free_LOWER Hr Hu Hc.
  eexists. split; [apply searched_rows|].
  rewrite merge_sort_Permutation. apply list_elem_of_fmap. exists r.
  split; [done|]. apply list_elem_of_filter.
  split; [|by apply list_elem_of_filter].
  apply matches_searched. exists (ContactRow.name r). split; [left|].
  apply contains_chars in Hc as (a & b & Hc).
  rewrite LOWER_pattern. unfold Sql.LIKE. rewrite pattern_chars, Hc.
  rewrite !LOWER_app, !list_ascii_app.
  change (Sql.LOWER (String x after))
    with (String (Sql.lower_ascii x) (Sql.LOWER after)).
  change (Sql.LOWER "_") with "_"%string.
  cbn [String.list_ascii_of_string]. rewrite <- !app_assoc.
  apply like_percent_iff. eexists a, _. split; [reflexivity|].
  apply like_literals; [done|]. eexists. split; [reflexivity|].
  cbn [app]. rewrite like_underscore.
  apply like_literals; [done|]. exists b. split; [done | apply like_any].
Qed.

Lemma searchContacts_underscore_witness :
  exists l : list Contact.t,
    HybridStorageManager.searchContacts "u1"
      ("sa" +:+ "_" +:+ "ah")
      (Demo.after (HybridStorageManager.addContact (ext := Demo.externals)
                     "u1" Demo.sarah None) Demo.empty_world)
    = (Ok l, Demo.after (HybridStorageManager.addContact (ext := Demo.externals)
                           "u1" Demo.sarah None) Demo.empty_world)
    /\ DatabaseContactManager.mapRowToContact
         (DatabaseContactManager.values
            (DatabaseContactManager.new_contact "u1" Demo.sarah
               1700000000000 1700000000000)) ∈ l.
Proof.
  apply (searchContacts_underscore "u1" "sa" "ah" "r"%char).
  - repeat constructor; discriminate.
  - repeat constructor; discriminate.
  - left.
  - reflexivity.
  - exists "", " chen". reflexivity.
Defined.

(** ** What the digest covers *)

Section nested.
Context {ext : Externals}.
Import JS HybridStorageManager.

Lemma assoc_None {A : Type} (k : string) (o : list (string * A)) :
  k ∉ keys o -> assoc k o = None.
Proof.
  induction o as [|[k' v] o IH]; [done|]. cbn.
  intros [Hk Ho]%not_elem_of_cons. rewrite decide_False by done. by apply IH.
Qed.

Lemma members_none (K : list string) (ser : list (string * option string)) :
  (forall k, k ∈ K -> k ∉ keys ser) -> members K ser = [].
Proof.
  intros Hno. induction K as [|k K IH]; [done|].
  assert (E : assoc k ser = None) by (apply assoc_None, Hno; left).
  unfold members in *. cbn [omap list_omap]. rewrite E.
  apply IH. intros k' Hk'. apply Hno. by right.
Qed.

Lemma serialised_middle (K : list string) (before after : list (string * value))
    (k : string) (v : value) :
  serialised toISOString K (before ++ (k, v) :: after)
  = serialised toISOString K before
    ++ (k, SerializeJSONProperty toISOString K v)
    :: serialised toISOString K after.
Proof. unfold serialised. by rewrite fmap_app. Qed.

End nested.

(** The property list of [JSON.stringify] is applied at every depth, so
    the digest does not cover what a nested object holds under names that
    are not also top-level names: two records that differ only there have
    the same digest. *)
Theorem generateHash_ignores_nested {ext : Externals}
    (before after : list (string * JS.value)) (k : string)
    (inner1 inner2 : list (string * JS.value)) :
  (forall k', k' ∈ JS.keys inner1 ++ JS.keys inner2 ->
     k' <> k /\ (k' ∉ JS.keys before) /\ (k' ∉ JS.keys after)) ->
  HybridStorageManager.digest
    (JS.VObject (before ++ (k, JS.VObject inner1) :: after))
  = HybridStorageManager.digest
      (JS.VObject (before ++ (k, JS.VObject inner2) :: after)).
Proof.
  intros Hno. rewrite !digest_VObject.
  assert (Hk : forall v, JS.keys (before ++ (k, v) :: after)
                         = JS.keys before ++ k :: JS.keys after).
  { intros v. unfold JS.keys. by rewrite fmap_app. }
  rewrite !Hk. set (K := JS.sort_keys _).
  rewrite !serialised_middle.
  assert (Hin : forall inner,
            (forall k', k' ∈ JS.keys inner ->
               k' <> k /\ (k' ∉ JS.keys before) /\ (k' ∉ JS.keys after)) ->
            JS.SerializeJSONProperty toISOString K (JS.VObject inner)
            = Some ("{" +:+ JS.join "," [] +:+ "}")).
  { intros inner Hi. rewrite SerializeJSONProperty_object.
    rewrite members_none; [done|].
    intros k' Hk'. rewrite keys_serialised. intros Hk''.
    destruct (Hi k' Hk'') as (H1 & H2 & H3).
    unfold K, JS.sort_keys in Hk'. rewrite merge_sort_Permutation in Hk'.
    apply elem_of_app in Hk' as [?|[?|?]%elem_of_cons]; done. }
  rewrite !Hin; [done|..].
  - intros k' Hk'. apply Hno, elem_of_app. by right.
  - intros k' Hk'. apply Hno, elem_of_app. by left.
Qed.

Lemma generateHash_ignores_nested_witness :
  HybridStorageManager.digest (ext := Demo.externals)
    (JS.VObject ([("id", JS.VString "1")]
                 ++ ("profile", JS.VObject [("email", JS.VString "a@x.org")])
                 :: [("name", JS.VString "Ann")]))
  = HybridStorageManager.digest (ext := Demo.externals)
      (JS.VObject ([("id", JS.VString "1")]
                   ++ ("profile", JS.VObject [("email", JS.VString "b@y.org")])
                   :: [("name", JS.VString "Ann")])).
Proof.
  apply (generateHash_ignores_nested (ext := Demo.externals)
           [("id", JS.VString "1")] [("name", JS.VString "Ann")] "profile"
           [("email", JS.VString "a@x.org")] [("email", JS.VString "b@y.org")]).
  intros k' Hk'. cbn in Hk'.
  assert (k' = "email") as ->.
  { by repeat (apply elem_of_cons in Hk' as [?|Hk']; [done|]);
       apply elem_of_nil in Hk'. }
  split; [discriminate|]. cbn. split; intros Hin.
  - by repeat (apply elem_of_cons in Hin as [?|Hin]; [done|]);
       apply elem_of_nil in Hin.
  - by repeat (apply elem_of_cons in Hin as [?|Hin]; [done|]);
       apply elem_of_nil in Hin.
Defined.

(** ** Photos: failures and missing contacts *)

Section photo_edges.
Context {ext : Externals}.
Import HybridStorageManager.

Lemma uploadImageToIPFS_unconfigured (buffer : list Byte.byte)
    (filename : string) (w : World) :
  pinata w = false ->
  uploadImageToIPFS buffer filename w = (Throw PinataNotInitialized, w).
Proof. intros Hp. unfold uploadImageToIPFS, bind, get. by rewrite Hp. Qed.

Lemma UPDATE_none_selected (userId contactId : string)
    (f : ContactRow.t -> ContactRow.t) (rows : list ContactRow.t) :
  (forall r, r ∈ rows -> ~ DatabaseContactManager.selected userId contactId r) ->
  (fun r => if decide (DatabaseContactManager.selected userId contactId r)
            then f r else r) <$> rows = rows.
Proof.
  intros Hno. induction rows as [|r rows IH]; [done|]. cbn.
  rewrite decide_False by (apply Hno; left).
  f_equal. apply IH. intros r' Hr'. apply Hno. by right.
Qed.

(** Without a selected row the update reports no success and nothing is
    written. *)
Lemma addPhotoToContact_none_selected (userId contactId : string)
    (imageBuffer : list Byte.byte) (w w' : World) (o : Outcome bool) :
  (forall r, r ∈ contacts w ->
     ~ DatabaseContactManager.selected userId contactId r) ->
  addPhotoToContact userId contactId imageBuffer w = (o, w') ->
  o <> Ok true /\ stores w' = stores w.
Proof.
  intros Hno. unfold addPhotoToContact.
  unfold bind at 1. unfold photo_filename at 1.
  unfold bind at 1, Date_now at 1, ret at 1.
  unfold bind at 1.
  pose proof (silent_uploadImageToIPFS imageBuffer
    ("contact_" +:+ contactId +:+ "_" +:+ JS.Number_toString (clock w) +:+ ".jpg") w)
    as Hsilent.
  destruct (uploadImageToIPFS _ _ w) as [[res| |] w0];
    cbn [fst snd] in *; [|by intros [= <- <-]..].
  injection Hsilent as Hc Hb Hg.
  unfold bind at 1, Date_now at 1.
  unfold bind at 1.
  rewrite db_addPhotoToContact_unfold.
  rewrite Hc.
  destruct (filter_not_selected_id _ _ _ Hno) as [_ ->].
  rewrite UPDATE_none_selected by done.
  rewrite bool_decide_false by (cbn; lia).
  intros [= <- <-]. split; [done|].
  unfold stores. cbn. by rewrite Hb, Hg.
Qed.

(** A successful update has found a row of the owner. *)
Lemma addPhotoToContact_true_selected (userId contactId : string)
    (imageBuffer : list Byte.byte) (w w1 : World) :
  addPhotoToContact userId contactId imageBuffer w = (Ok true, w1) ->
  exists r, r ∈ contacts w /\ DatabaseContactManager.selected userId contactId r.
Proof.
  intros Hrun.
  destruct (decide (Exists (DatabaseContactManager.selected userId contactId)
                           (contacts w))) as [Hex|Hno].
  - by apply Exists_exists in Hex.
  - exfalso. rewrite Exists_exists in Hno.
    destruct (addPhotoToContact_none_selected _ _ _ _ _ _
                (fun r Hr Hs => Hno (ex_intro _ r (conj Hr Hs))) Hrun) as [Hne _].
    done.
Qed.

End photo_edges.

(** Without a Pinata client (no [PINATA_JWT] at start-up) every photo
    upload fails.  [addPhotoToContact] fails with "Pinata not initialized"
    and changes nothing; [addContact] with photo bytes, for a new
    identifier and a field set that fits the columns, fails with it after
    the contact row has been inserted, so the contact stays stored with no
    entry in the ledger. *)
Theorem photo_without_pinata {ext : Externals} (userId contactId : string)
    (contactData : ContactData.t) (imageBuffer : list Byte.byte) (w : World) :
  pinata w = false ->
  HybridStorageManager.addPhotoToContact userId contactId imageBuffer w
  = (Throw PinataNotInitialized, w)
  /\ (JS.Number_toString (clock w) ∉ ContactRow.id <$> contacts w ->
      DatabaseContactManager.fits
        (DatabaseContactManager.values
           (DatabaseContactManager.new_contact userId contactData
              (clock w) (clock w))) ->
      HybridStorageManager.addContact userId contactData (Some imageBuffer) w
      = (Throw PinataNotInitialized,
         set_contacts
           (contacts w ++
              [DatabaseContactManager.values
                 (DatabaseContactManager.new_contact userId contactData
                    (clock w) (clock w))]) w)).
Proof.
  intros Hp. split.
  - unfold HybridStorageManager.addPhotoToContact.
    unfold bind at 1. unfold HybridStorageManager.photo_filename at 1.
    unfold bind at 1, Date_now at 1, ret at 1.
    unfold bind at 1.
    by rewrite uploadImageToIPFS_unconfigured.
  - intros Hfresh _. unfold HybridStorageManager.addContact.
    unfold bind at 1. rewrite db_addContact_unfold.
    rewrite bool_decide_false by done.
    unfold bind at 1. unfold bind at 1.
    unfold HybridStorageManager.photo_filename at 1.
    unfold bind at 1, Date_now at 1, ret at 1.
    unfold bind at 1.
    by rewrite uploadImageToIPFS_unconfigured.
Qed.

Lemma photo_without_pinata_witness :
  let w := unconfigured_world in
  HybridStorageManager.addPhotoToContact (ext := Demo.externals)
    "u1" "1700000000000" Demo.small_photo w
  = (Throw PinataNotInitialized, w)
  /\ HybridStorageManager.addContact (ext := Demo.externals)
       "u1" Demo.sarah (Some Demo.small_photo) w
     = (Throw PinataNotInitialized,
        set_contacts
          (contacts w ++
             [DatabaseContactManager.values
                (DatabaseContactManager.new_contact "u1" Demo.sarah
                   (clock w) (clock w))]) w).
Proof.
  intros w.
  destruct (photo_without_pinata (ext := Demo.externals) "u1" "1700000000000"
              Demo.sarah Demo.small_photo w) as [Hphoto Hadd].
  - reflexivity.
  - split; [exact Hphoto|]. apply Hadd.
    + apply (bool_decide_unpack _). vm_compute. exact I.
    + apply (bool_decide_unpack _). vm_compute. exact I.
Defined.

(** A photo for a contact the owner does not have: whatever the upload
    does, [addPhotoToContact] does not return [true], and the contacts
    table (another owner's row with the same identifier included), the
    applications and the ledger are left as they were. *)
Theorem addPhotoToContact_unknown_contact {ext : Externals}
    (userId contactId : string) (imageBuffer : list Byte.byte) (w : World) :
  (forall r, r ∈ contacts w ->
     ~ DatabaseContactManager.selected userId contactId r) ->
  fst (HybridStorageManager.addPhotoToContact userId contactId imageBuffer w)
  <> Ok true
  /\ stores (snd (HybridStorageManager.addPhotoToContact
                    userId contactId imageBuffer w))
     = stores w.
Proof.
  intros Hno.
  destruct (HybridStorageManager.addPhotoToContact userId contactId imageBuffer w)
    as [o w'] eqn:Hrun.
  by apply (addPhotoToContact_none_selected userId contactId imageBuffer w).
Qed.

Lemma addPhotoToContact_unknown_contact_witness :
  let w := Demo.after (HybridStorageManager.addContact (ext := Demo.externals)
                         "u1" Demo.sarah None) Demo.empty_world in
  fst (HybridStorageManager.addPhotoToContact (ext := Demo.externals)
         "u2" "1700000000000" Demo.small_photo w)
  <> Ok true
  /\ stores (snd (HybridStorageManager.addPhotoToContact (ext := Demo.externals)
                    "u2" "1700000000000" Demo.small_photo w))
     = stores w.
Proof.
  intros w.
  apply (addPhotoToContact_unknown_contact (ext := Demo.externals)
           "u2" "1700000000000" Demo.small_photo w).
  intros r Hr [Hu _]. cbn in Hr.
  apply elem_of_cons in Hr as [->|Hr]; [discriminate|].
  by apply elem_of_nil in Hr.
Defined.

(** ** Applications *)

Section applications.
Context {ext : Externals}.
Import HybridStorageManager.

Lemma addBaseBuilder_rows (userId : string) (builderData : BuilderData.t)
    (w : World) :
  base_builders (snd (addBaseBuilder userId builderData w)) = base_builders w
  \/ exists b : BaseBuilder.t,
       BaseBuilder.userId b = userId
       /\ base_builders (snd (addBaseBuilder userId builderData w))
          = base_builders w ++ [b].
Proof.
  destruct (decide ("bb_" +:+ JS.Number_toString (clock w) +:+ "_"
                    +:+ String.substring 0 9 (Math_random_base36 (draws w))
                    ∈ BaseBuilder.id <$> base_builders w)) as [Hin|Hfresh].
  - left. unfold addBaseBuilder. unfold bind at 1.
    rewrite createBaseBuilder_unfold. cbv zeta.
    by rewrite bool_decide_true.
  - right. destruct (addBaseBuilder_fresh userId builderData w Hfresh)
      as (w' & e & -> & Hrows & _).
    eexists. split; [|exact Hrows]. done.
Qed.

Lemma head_filter_None {A : Type} (P : A -> Prop) `{!forall x, Decision (P x)}
    (l : list A) :
  head (filter P l) = None -> forall x, x ∈ l -> ~ P x.
Proof.
  intros Hh x Hx HP.
  assert (Hin : x ∈ filter P l) by by apply list_elem_of_filter.
  destruct (filter P l); [by apply elem_of_nil in Hin | done].
Qed.

End applications.

(** The [/base_builders_network] handler keeps the rule of one
    application per owner: if no two rows of the applications table have
    the same owner before the handler runs, none have after it, whatever
    it returns. *)
Theorem base_builders_network_one_per_owner {ext : Externals}
    (userId : string) (builderData : BuilderData.t) (w : World) :
  NoDup (BaseBuilder.userId <$> base_builders w) ->
  NoDup (BaseBuilder.userId <$>
           base_builders (snd (Bot.base_builders_network userId builderData w))).
Proof.
  intros Hnd. unfold Bot.base_builders_network. unfold bind at 1.
  rewrite getBaseBuilderByUserId_unfold.
  destruct (head _) as [existing|] eqn:Hhead; [done|].
  unfold bind.
  destruct (addBaseBuilder_rows userId builderData w) as [Hsame|(b & Hu & Hrows)].
  - destruct (HybridStorageManager.addBaseBuilder _ _ w) as [[b| |] w'];
      unfold ret; cbn [snd] in *; by rewrite Hsame.
  - assert (Hnew : NoDup (BaseBuilder.userId <$> base_builders w ++ [b])).
    { rewrite fmap_app. apply NoDup_app. split; [done|]. split; [|apply NoDup_singleton].
      intros u Hin [->|[]%elem_of_nil]%elem_of_cons.
      apply list_elem_of_fmap in Hin as (b' & Hb' & Hin).
      apply (head_filter_None _ _ Hhead b' Hin). by rewrite <- Hb', Hu. }
    destruct (HybridStorageManager.addBaseBuilder _ _ w) as [[b'| |] w'];
      unfold ret; cbn [snd] in *; by rewrite Hrows.
Qed.

Lemma base_builders_network_one_per_owner_witness :
  let w := Demo.after (HybridStorageManager.addBaseBuilder (ext := Demo.externals)
                         "u2" (Demo.application "Alice Johnson"))
                      Demo.empty_world in
  NoDup (BaseBuilder.userId <$>
           base_builders
             (snd (Bot.base_builders_network (ext := Demo.externals)
                     "u2" (Demo.application "Alice J.") (Demo.later 5 w)))).
Proof.
  intros w.
  apply (base_builders_network_one_per_owner (ext := Demo.externals)
           "u2" (Demo.application "Alice J.") (Demo.later 5 w)).
  cbn. apply NoDup_singleton.
Defined.

(** A photo that was attached is listed: when [addPhotoToContact] has
    returned [true], [getContactsWithPhotos] for the owner returns a
    contact with that identifier whose photo path and file reference are
    set and whose photo time is the time of the call. *)
Theorem addPhotoToContact_then_listed {ext : Externals}
    (userId contactId : string) (imageBuffer : list Byte.byte)
    (w w1 : World) :
  HybridStorageManager.addPhotoToContact userId contactId imageBuffer w
  = (Ok true, w1) ->
  exists (l : list Contact.t) (c : Contact.t),
    HybridStorageManager.getContactsWithPhotos userId w1 = (Ok l, w1)
    /\ c ∈ l
    /\ Contact.id c = contactId
    /\ Contact.userId c = userId
    /\ is_Some (Contact.photoPath c)
    /\ is_Some (Contact.photoFileId c)
    /\ Contact.photoTakenAt c = Some (clock w).
Proof.
  intros Hrun.
  destruct (addPhotoToContact_true_selected _ _ _ _ _ Hrun) as (r & Hr & Hsel).
  apply addPhotoToContact_true in Hrun as (path & file & e & Hrows & _).
  set (r' := DatabaseContactManager.UPDATE_photo (Some path) (Some file)
               (clock w) false r).
  assert (Hr' : r' ∈ contacts w1).
  { rewrite Hrows. apply list_elem_of_fmap. exists r. split; [|done].
    unfold attach. by rewrite decide_True. }
  destruct Hsel as [Hu Hi].
  eexists _, (DatabaseContactManager.mapRowToContact r').
  split; [reflexivity|]. split.
  - apply list_elem_of_fmap. exists r'. split; [done|].
    rewrite merge_sort_Permutation. apply list_elem_of_filter.
    split; [|done]. split; [done|]. left. by eexists.
  - repeat split; try done; by eexists.
Qed.

Lemma addPhotoToContact_then_listed_witness :
  let w := Demo.after (HybridStorageManager.addContact (ext := Demo.externals)
                         "u1" Demo.sarah None) Demo.empty_world in
  let w1 := Demo.after (HybridStorageManager.addPhotoToContact
                          (ext := Demo.externals) "u1" "1700000000000" [])
                       (Demo.later 1000 w) in
  exists (l : list Contact.t) (c : Contact.t),
    HybridStorageManager.getContactsWithPhotos "u1" w1 = (Ok l, w1)
    /\ c ∈ l
    /\ Contact.id c = "1700000000000"
    /\ Contact.userId c = "u1"
    /\ is_Some (Contact.photoPath c)
    /\ is_Some (Contact.photoFileId c)
    /\ Contact.photoTakenAt c = Some (clock (Demo.later 1000 w)).
Proof.
  intros w w1.
  apply (addPhotoToContact_then_listed (ext := Demo.externals)
           "u1" "1700000000000" [] (Demo.later 1000 w) w1).
  reflexivity.
Defined.

(** Anchoring round trip for applications.  For an owner without an
    application, the application [addBaseBuilder] returned verifies: if
    the ledger held no entity for that owner and identifier before, and
    the index shows only stored entities, then a later
    [verifyDataIntegrity] on the same table and ledger either answers
    [isValid = true] with equal digests, or, when the index has shown
    nothing in three attempts, fails with "hash not found". *)
Theorem addBaseBuilder_then_verify {ext : Externals} (fuel : nat)
    (userId : string) (builderData : BuilderData.t) (b : BaseBuilder.t)
    (w w1 w2 : World) :
  (3 <= fuel)%nat ->
  (forall t es e, e ∈ golem_indexed t es -> e ∈ es) ->
  HybridStorageManager.getBaseBuilderByUserId userId w = (Ok None, w) ->
  HybridStorageManager.addBaseBuilder userId builderData w = (Ok b, w1) ->
  (forall e, e ∈ golem w ->
     ~ HybridStorageManager.satisfies
         (HybridStorageManager.mkQuery DataType.base_builder userId
            (BaseBuilder.id b)) e) ->
  base_builders w2 = base_builders w1 ->
  golem w2 = golem w1 ->
  let r := HybridStorageManager.verifyDataIntegrity
             fuel userId DataType.base_builder (BaseBuilder.id b) w2 in
  fst r = Throw (HashNotFoundInGolemDB 3)
  \/ exists hex : string,
       HybridStorageManager.digest (HybridStorageManager.BaseBuilder_value b)
       = Some hex
       /\ fst r = Ok {| HybridStorageManager.isValid := true;
                        HybridStorageManager.storedHash := hex;
                        HybridStorageManager.currentHash := hex |}.
Proof.
  intros Hfuel Hsound Hnone Hadd Hstale Hrows Hgolem r.
  rewrite getBaseBuilderByUserId_unfold in Hnone. injection Hnone as Hnone.
  assert (Hfresh : "bb_" +:+ JS.Number_toString (clock w) +:+ "_"
                   +:+ String.substring 0 9 (Math_random_base36 (draws w))
                   ∉ BaseBuilder.id <$> base_builders w).
  { intros Hin. revert Hadd. unfold HybridStorageManager.addBaseBuilder.
    unfold bind at 1. rewrite createBaseBuilder_unfold. cbv zeta.
    by rewrite bool_decide_true. }
  destruct (addBaseBuilder_fresh userId builderData w Hfresh)
    as (w' & e & Hadd' & Hrows1 & Hg1 & Hdt & Ho & Hd).
  rewrite Hadd in Hadd'. injection Hadd' as Hb <-.
  rewrite <- Hb in Hrows1, Hd.
  assert (Hu : BaseBuilder.userId b = userId) by by rewrite Hb.
  clear Hb.
  assert (Hcur : HybridStorageManager.current_record userId DataType.base_builder
                   (BaseBuilder.id b) w2
                 = Some (HybridStorageManager.BaseBuilder_value b)).
  { unfold HybridStorageManager.current_record. rewrite Hrows, Hrows1, filter_app.
    destruct (filter _ (base_builders w)); [|discriminate].
    rewrite filter_cons, decide_True by done. done. }
  subst r. rewrite verifyDataIntegrity_unfold, Hcur, <- Hd.
  destruct (retry_loop_bounded fuel
              (HybridStorageManager.mkQuery DataType.base_builder userId
                 (BaseBuilder.id b)) w2)
    as (results & attempts & w3 & Hloop & _ & _ & _ & Hres & _); [done|].
  rewrite Hloop. cbn [fst].
  destruct results as [|e' rest]; [by left|]. right.
  exists (DataHash.sha256Hash (Entity.storageValue e)). split; [done|].
  assert (He' : e' ∈ HybridStorageManager.answer
                       (HybridStorageManager.mkQuery DataType.base_builder userId
                          (BaseBuilder.id b)) (clock w3) w2)
    by (rewrite <- Hres; left).
  apply list_elem_of_filter in He' as [Hq He'].
  apply Hsound in He'. rewrite Hgolem, Hg1 in He'.
  apply elem_of_app in He' as [He'|[->|[]%elem_of_nil]%elem_of_cons].
  - by destruct (Hstale e' He').
  - cbn [fst]. by rewrite bool_decide_true.
Qed.

Lemma addBaseBuilder_then_verify_witness :
  let w1 := Demo.after (HybridStorageManager.addBaseBuilder (ext := Demo.externals)
                          "u2" (Demo.application "Alice Johnson"))
                       Demo.empty_world in
  let b := BaseBuilder.mk
             ("bb_" +:+ JS.Number_toString (clock Demo.empty_world) +:+ "_"
              +:+ String.substring 0 9
                    (Math_random_base36 (Externals := Demo.externals)
                       (draws Demo.empty_world)))
             "u2" (Demo.application "Alice Johnson") (clock Demo.empty_world) in
  let r := HybridStorageManager.verifyDataIntegrity (ext := Demo.externals)
             3 "u2" DataType.base_builder (BaseBuilder.id b) (Demo.later 500 w1) in
  fst r = Throw (HashNotFoundInGolemDB 3)
  \/ exists hex : string,
       HybridStorageManager.digest (ext := Demo.externals)
         (HybridStorageManager.BaseBuilder_value b) = Some hex
       /\ fst r = Ok {| HybridStorageManager.isValid := true;
                        HybridStorageManager.storedHash := hex;
                        HybridStorageManager.currentHash := hex |}.
Proof.
  intros w1 b.
  apply (addBaseBuilder_then_verify (ext := Demo.externals) 3 "u2"
           (Demo.application "Alice Johnson") b
           Demo.empty_world w1 (Demo.later 500 w1)).
  - lia.
  - intros t es e He. exact He.
  - reflexivity.
  - reflexivity.
  - intros e He. inversion He.
  - reflexivity.
  - reflexivity.
Defined.

(** ** Statistics and photo lists *)

Section counting.
Import DatabaseContactManager.

Lemma COUNT_le_length (cond : ContactRow.t -> bool) (rows : list ContactRow.t) :
  (COUNT cond rows <= length rows)%nat.
Proof. unfold COUNT. apply length_filter. Qed.

Lemma COUNT_mono (c1 c2 : ContactRow.t -> bool) (rows : list ContactRow.t) :
  (forall r, c1 r = true -> c2 r = true) ->
  (COUNT c1 rows <= COUNT c2 rows)%nat.
Proof.
  intros Himp. unfold COUNT. induction rows as [|r rows IH]; [done|].
  rewrite !filter_cons. destruct (decide (c1 r = true)) as [H1|H1].
  - rewrite decide_True by auto. cbn. lia.
  - destruct (decide (c2 r = true)); cbn; lia.
Qed.

(** The decimal numeral determines the count. *)
Lemma bigint_inj (n m : nat) : bigint n = bigint m -> n = m.
Proof.
  unfold bigint, JS.Number_toString. intros H.
  assert (Hnn : forall z : Z, 0 <= z ->
            Z.to_int z <> Decimal.Pos Decimal.Nil
            /\ Z.to_int z <> Decimal.Neg Decimal.Nil).
  { intros z Hz. split; intros Hd.
    - assert (Hz0 : z = 0) by (by rewrite <- (DecimalZ.of_to z), Hd).
      subst z. discriminate.
    - destruct z; [discriminate|discriminate|lia]. }
  destruct (Hnn (Z.of_nat n)) as [? ?]; [lia|].
  destruct (Hnn (Z.of_nat m)) as [? ?]; [lia|].
  apply (f_equal NilZero.int_of_string) in H.
  rewrite !NilZero.isi in H by done.
  injection H as H. apply DecimalZ.to_int_inj in H. lia.
Qed.

End counting.

(** The statistics agree with the list: [total] is the decimal numeral of
    the number of contacts [getUserContacts] returns for the owner, and
    the contacts of the last week are among those of the last month, which
    are among all of them. *)
Theorem getStats_consistent (userId : string) (w : World) :
  exists (st : DatabaseContactManager.Stats) (l : list Contact.t)
         (week month : nat),
    HybridStorageManager.getStats userId w = (Ok st, w)
    /\ HybridStorageManager.getUserContacts userId w = (Ok l, w)
    /\ DatabaseContactManager.total st
       = DatabaseContactManager.bigint (length l)
    /\ DatabaseContactManager.recent_week st
       = DatabaseContactManager.bigint week
    /\ DatabaseContactManager.recent_month st
       = DatabaseContactManager.bigint month
    /\ (week <= month <= length l)%nat
    /\ (forall n : nat,
          DatabaseContactManager.total st = DatabaseContactManager.bigint n ->
          n = length l).
Proof.
  eexists _, _, _, _. split; [reflexivity|]. split; [reflexivity|].
  cbn [DatabaseContactManager.total DatabaseContactManager.recent_week
       DatabaseContactManager.recent_month].
  rewrite length_fmap, merge_sort_Permutation.
  split; [reflexivity|]. split; [reflexivity|]. split; [reflexivity|].
  split; [split|].
  - apply COUNT_mono. intros r. rewrite !bool_decide_eq_true.
    unfold DatabaseContactManager.days_ago. lia.
  - apply COUNT_le_length.
  - intros n Hn. rewrite merge_sort_Permutation. symmetry. by apply bigint_inj.
Qed.

(** ** The [/add] command and its parser *)

Section js_strings.
Import JSString.

Lemma append_cons (c : ascii) (a b : string) :
  String c a +:+ b = String c (a +:+ b).
Proof. reflexivity. Qed.

Lemma trimStart_app (k v : string) (c : ascii) :
  is_space c = false ->
  trimStart (k +:+ String c v) = trimStart k +:+ String c v.
Proof.
  intros Hc. induction k as [|x k IH].
  - change ("" +:+ String c v) with (String c v). cbn. by rewrite Hc.
  - rewrite append_cons. cbn [trimStart]. destruct (is_space x); [exact IH|done].
Qed.

Lemma trimEnd_cons (c : ascii) (v : string) :
  is_space c = false -> trimEnd (String c v) = String c (trimEnd v).
Proof. intros Hc. cbn. rewrite Hc. by destruct (trimEnd v). Qed.

Lemma trimEnd_app (k v : string) (c : ascii) :
  is_space c = false ->
  trimEnd (k +:+ String c v) = k +:+ String c (trimEnd v).
Proof.
  intros Hc. induction k as [|x k IH].
  - change ("" +:+ ?s) with s. by apply trimEnd_cons.
  - rewrite !append_cons. cbn [trimEnd]. rewrite IH.
    by destruct k.
Qed.

Lemma trimEnd_idem (s : string) : trimEnd (trimEnd s) = trimEnd s.
Proof.
  induction s as [|c s IH]; [done|]. cbn [trimEnd].
  destruct (trimEnd s) as [|y t] eqn:E.
  - destruct (is_space c) eqn:Hc; [done|]. cbn. by rewrite Hc.
  - cbn [trimEnd] in *. by rewrite IH.
Qed.

Lemma trimStart_no_lead (s : string) : no_lead (trimStart s).
Proof.
  induction s as [|c s IH]; [done|]. cbn.
  by destruct (is_space c) eqn:Hc.
Qed.

Lemma no_lead_trimStart (s : string) : no_lead s -> trimStart s = s.
Proof. destruct s as [|c s]; [done|]. cbn. by intros ->. Qed.

Lemma no_lead_trimEnd (s : string) : no_lead s -> no_lead (trimEnd s).
Proof.
  destruct s as [|c s]; [done|]. intros Hc. cbn in Hc.
  by rewrite trimEnd_cons.
Qed.

Lemma trim_no_lead (s : string) : no_lead (trim s).
Proof. apply no_lead_trimEnd, trimStart_no_lead. Qed.

Lemma trim_idem (s : string) : trim (trim s) = trim s.
Proof.
  unfold trim at 1. rewrite (no_lead_trimStart (trim s)) by apply trim_no_lead.
  apply trimEnd_idem.
Qed.

Lemma trimStart_trimEnd (s : string) : trimStart (trimEnd s) = trimEnd (trimStart s).
Proof.
  induction s as [|c s IH]; [done|].
  destruct (is_space c) eqn:Hc.
  - cbn [trimStart trimEnd]. rewrite Hc, <- IH.
    destruct (trimEnd s) as [|y t]; [done|]. cbn [trimStart]. by rewrite Hc.
  - rewrite trimEnd_cons by done. cbn [trimStart]. rewrite Hc.
    by rewrite trimEnd_cons.
Qed.

Lemma trim_trimEnd (s : string) : trim (trimEnd s) = trim s.
Proof. unfold trim. by rewrite trimStart_trimEnd, trimEnd_idem. Qed.

Lemma trim_trimStart (s : string) : trim (trimStart s) = trim s.
Proof.
  unfold trim. by rewrite (no_lead_trimStart (trimStart s))
    by apply trimStart_no_lead.
Qed.

Lemma is_space_lower_unit (c : ascii) : is_space (lower_unit c) = is_space c.
Proof. by destruct c as [[] [] [] [] [] [] [] []]. Qed.

Lemma toLowerCase_trimStart (s : string) :
  toLowerCase (trimStart s) = trimStart (toLowerCase s).
Proof.
  induction s as [|c s IH]; [done|]. cbn [trimStart toLowerCase].
  rewrite is_space_lower_unit. by destruct (is_space c).
Qed.

Lemma chars_trimStart (s : string) (c : ascii) :
  c ∈ chars (trimStart s) -> c ∈ chars s.
Proof.
  induction s as [|x s IH]; [done|]. cbn [trimStart].
  destruct (is_space x); [|done]. intros H. cbn. right. by apply IH.
Qed.

Lemma chars_trimEnd (s : string) (c : ascii) :
  c ∈ chars (trimEnd s) -> c ∈ chars s.
Proof.
  induction s as [|x s IH]; [done|]. cbn [trimEnd].
  destruct (trimEnd s) as [|y t].
  - destruct (is_space x); cbn; [by intros ?%elem_of_nil|].
    intros [->|?%elem_of_nil]%elem_of_cons; [left|done].
  - cbn. intros [->|H]%elem_of_cons; [left|right]. by apply IH.
Qed.

Lemma chars_trim (s : string) (c : ascii) : c ∈ chars (trim s) -> c ∈ chars s.
Proof. intros H. by apply chars_trimStart, chars_trimEnd. Qed.

Lemma split_nonempty (sep : ascii) (s : string) : split sep s <> [].
Proof.
  induction s as [|c s IH]; [done|]. cbn.
  destruct (decide (c = sep)); [done|]. by destruct (split sep s).
Qed.

(** Splitting at the first separator. *)
Lemma split_first (sep : ascii) (k v : string) :
  sep ∉ chars k -> split sep (k +:+ String sep v) = k :: split sep v.
Proof.
  induction k as [|x k IH]; intros Hk.
  - change ("" +:+ ?s) with s. cbn. by rewrite decide_True.
  - rewrite append_cons. cbn [split]. cbn in Hk.
    apply not_elem_of_cons in Hk as [Hx Hk].
    rewrite decide_False by done. by rewrite IH.
Qed.

Lemma split_app (sep : ascii) (a b : string) :
  split sep (a +:+ String sep b) = split sep a ++ split sep b.
Proof.
  induction a as [|x a IH].
  - change ("" +:+ ?s) with s. cbn. by rewrite decide_True.
  - rewrite append_cons. cbn [split]. destruct (decide (x = sep)).
    + by rewrite IH.
    + rewrite IH. pose proof (split_nonempty sep a).
      by destruct (split sep a).
Qed.

Lemma split_whole (sep : ascii) (s : string) :
  sep ∉ chars s -> split sep s = [s].
Proof.
  induction s as [|x s IH]; [done|]. cbn.
  intros [Hx Hs]%not_elem_of_cons.
  rewrite decide_False by done. by rewrite IH.
Qed.

(** No piece contains the separator. *)
Lemma split_pieces (sep : ascii) (s x : string) :
  x ∈ split sep s -> sep ∉ chars x.
Proof.
  revert x. induction s as [|c s IH]; intros x; cbn.
  - intros [->|?%elem_of_nil]%elem_of_cons; [|done]. by intros ?%elem_of_nil.
  - destruct (decide (c = sep)).
    + intros [->|H]%elem_of_cons; [by intros ?%elem_of_nil | by apply IH].
    + pose proof (split_nonempty sep s) as Hne.
      destruct (split sep s) as [|y l]; [done|].
      intros [->|H]%elem_of_cons.
      * cbn. apply not_elem_of_cons. split; [done|]. apply IH. left.
      * apply IH. by right.
Qed.

(** Joining the pieces with the separator gives the string back. *)
Lemma join_split (sep : ascii) (s : string) :
  JS.join (String sep "") (split sep s) = s.
Proof.
  induction s as [|c s IH]; [done|]. cbn [split].
  pose proof (split_nonempty sep s) as Hne.
  destruct (decide (c = sep)) as [->|Hc].
  - destruct (split sep s) as [|y l] eqn:E; [done|].
    change (JS.join (String sep "") ("" :: y :: l))
      with ("" +:+ String sep "" +:+ JS.join (String sep "") (y :: l)).
    by rewrite IH.
  - destruct (split sep s) as [|y l] eqn:E; [done|].
    destruct l as [|z l].
    + cbn in *. by rewrite IH.
    + change (JS.join (String sep "") (String c y :: z :: l))
        with (String c (y +:+ String sep "" +:+ JS.join (String sep "") (z :: l))).
      change (JS.join (String sep "") (y :: z :: l))
        with (y +:+ String sep "" +:+ JS.join (String sep "") (z :: l)) in IH.
      by rewrite IH.
Qed.

End js_strings.

Section parsing.
Import JSString Bot.

Lemma lines_app (a b : string) :
  lines (a +:+ String LF b) = lines a ++ lines b.
Proof. unfold lines. by rewrite split_app, fmap_app, filter_app. Qed.

Lemma trim_field (k v : string) :
  trim (k +:+ String ":" v) = trimStart k +:+ String ":" (trimEnd v).
Proof. unfold trim. by rewrite trimStart_app, trimEnd_app. Qed.

Lemma append_not_empty (k v : string) (c : ascii) : k +:+ String c v <> "".
Proof. by destruct k. Qed.

Lemma lines_field (k v : string) :
  LF ∉ chars k -> LF ∉ chars v ->
  lines (k +:+ String ":" v) = [trimStart k +:+ String ":" (trimEnd v)].
Proof.
  intros Hk Hv. unfold lines. rewrite split_whole.
  - cbn [fmap list_fmap]. rewrite trim_field, filter_cons, filter_nil.
    rewrite decide_True; [done|]. apply append_not_empty.
  - rewrite list_ascii_app. cbn. intros [H|[H|H]%elem_of_cons]%elem_of_app; done.
Qed.

Lemma trimStart_empty (k : string) : trimStart k = "" -> trim k = "".
Proof. unfold trim. by intros ->. Qed.

(** One line [key:value]. *)
Lemma parse_line_field (k v : string) (contact : ContactData.t) :
  ":"%char ∉ chars k -> trim k <> "" ->
  parse_line contact (trimStart k +:+ String ":" (trimEnd v))
  = assign (trim (toLowerCase k)) (trim v) contact.
Proof.
  intros Hk Hne. unfold parse_line. rewrite split_first.
  2: { intros H. by apply Hk, chars_trimStart. }
  pose proof (split_nonempty ":" (trimEnd v)) as Hparts.
  rewrite bool_decide_true by (intros H; by apply Hne, trimStart_empty).
  rewrite bool_decide_true by (destruct (split ":" (trimEnd v)); [done|cbn; lia]).
  cbn [andb]. cbv zeta.
  change ":"%string with (String ":" "") at 1. rewrite join_split, trim_trimEnd.
  by rewrite toLowerCase_trimStart, trim_trimStart.
Qed.

(** What [assign] leaves alone. *)
Lemma assign_name_other (lowerKey value : string) (contact : ContactData.t) :
  lowerKey <> "name" ->
  ContactData.name (assign lowerKey value contact) = ContactData.name contact.
Proof.
  intros Hk. unfold assign. rewrite bool_decide_false by done.
  destruct contact.
  repeat (case_bool_decide; [reflexivity|]).
  case_bool_decide; [by destruct (parse_priority value)|].
  by case_bool_decide.
Qed.

Lemma assign_name (value : string) (contact : ContactData.t) :
  ContactData.name (assign "name" value contact) = Some value.
Proof. by destruct contact. Qed.

(** The name field after a line: the one before or the value of a line
    whose key is [name]. *)
Lemma parse_line_name (contact : ContactData.t) (line : string) :
  ContactData.name (parse_line contact line) = ContactData.name contact
  \/ exists key rest,
       split ":" line = key :: rest
       /\ trim (toLowerCase key) = "name"
       /\ ContactData.name (parse_line contact line)
          = Some (trim (JS.join ":" rest)).
Proof.
  unfold parse_line. destruct (split ":" line) as [|key rest]; [by left|].
  destruct (bool_decide (key <> "") && bool_decide (0 < length rest)%nat);
    [|by left].
  cbv zeta. destruct (decide (trim (toLowerCase key) = "name")) as [E|E].
  - right. exists key, rest. split; [done|]. split; [done|].
    by rewrite E, assign_name.
  - left. by apply assign_name_other.
Qed.

End parsing.

Section adding.
Context {ext : Externals}.
Import JSString Bot.

(** [addContact] without a photo either inserts and anchors, or is
    refused by the primary key and changes nothing. *)
Lemma addContact_None_cases (userId : string) (contactData : ContactData.t)
    (w : World) :
  (exists w1,
     HybridStorageManager.addContact userId contactData None w
     = (Ok (DatabaseContactManager.new_contact userId contactData
              (clock w) (clock w)), w1)
     /\ contacts w1
        = contacts w ++
            [DatabaseContactManager.values
               (DatabaseContactManager.new_contact userId contactData
                  (clock w) (clock w))])
  \/ HybridStorageManager.addContact userId contactData None w
     = (Throw (UniqueViolation "contacts_pkey"), w).
Proof.
  destruct (decide (JS.Number_toString (clock w) ∈ ContactRow.id <$> contacts w))
    as [Hin|Hfresh].
  - right. unfold HybridStorageManager.addContact.
    unfold bind at 1. rewrite db_addContact_unfold. cbv zeta.
    by rewrite bool_decide_true.
  - left. unfold HybridStorageManager.addContact.
    unfold bind at 1. rewrite db_addContact_unfold. cbv zeta.
    rewrite bool_decide_false by done.
    set (c := DatabaseContactManager.new_contact _ _ _ _).
    destruct (digest_object
      (match HybridStorageManager.Contact_value c with
       | JS.VObject props => props | _ => [] end)) as [hex Hhex].
    unfold bind, ret at 1.
    erewrite generateHash_Some by exact Hhex.
    cbn. eexists. split; reflexivity.
Qed.

Lemma or_string_default (a : option string) (b : string) :
  b <> "" -> or_string a b <> "".
Proof. intros Hb. unfold or_string. destruct a as [s|]; [|done]. by case_decide. Qed.

Lemma new_contact_name (userId : string) (contactData : ContactData.t)
    (id createdAt : Z) :
  Contact.name (DatabaseContactManager.new_contact userId contactData id createdAt)
  = or_string (ContactData.name contactData) "Unknown".
Proof. reflexivity. Qed.

End adding.

(** The [/add] command never stores a contact with an empty name: if
    every row of the contacts table has a name before the handler runs,
    every row has one after it, whatever the input and whatever the
    reply. *)
Theorem add_keeps_names {ext : Externals} (userId input : string) (w : World) :
  Forall (fun r => ContactRow.name r <> "") (contacts w) ->
  Forall (fun r => ContactRow.name r <> "")
         (contacts (snd (Bot.add userId input w))).
Proof.
  intros Hall. unfold Bot.add.
  case_bool_decide; [done|].
  assert (Hadd : forall (d : ContactData.t) (k : Contact.t -> Bot.AddReply),
            Forall (fun r => ContactRow.name r <> "")
              (contacts (snd (Bot.catch
                 (contact <- HybridStorageManager.addContact userId d None ;;
                  ret (k contact))
                 (fun _ => ret Bot.AddError) w)))).
  { intros d k. unfold Bot.catch, bind.
    destruct (addContact_None_cases userId d w) as [(w1 & -> & Hrows)| ->].
    - cbn. rewrite Hrows. apply Forall_app. split; [done|].
      repeat constructor. cbn. by apply or_string_default.
    - done. }
  destruct (_ && _); [apply Hadd|].
  case_bool_decide; [done|]. apply Hadd.
Qed.

Lemma add_keeps_names_witness :
  Forall (fun r => ContactRow.name r <> "")
         (contacts (snd (Bot.add (ext := Demo.externals) "u1" ", Acme"
                           Demo.empty_world))).
Proof.
  apply (add_keeps_names (ext := Demo.externals) "u1" ", Acme" Demo.empty_world).
  constructor.
Defined.

(** The template format requires a name.  When the input is not blank
    and not in the quick format, and every line whose key is [name]
    (whatever its case and the white space around it) has an empty value,
    or there is no such line, the handler replies that the name is
    required and stores nothing. *)
Theorem add_template_requires_name {ext : Externals} (userId input : string)
    (w : World) :
  JSString.trim input <> "" ->
  HybridStorageManager.includes input ","
  && negb (HybridStorageManager.includes input ":") = false ->
  (forall line key rest,
     line ∈ Bot.lines input ->
     JSString.split ":" line = key :: rest ->
     JSString.trim (JSString.toLowerCase key) = "name" ->
     JSString.trim (JS.join ":" rest) = "") ->
  Bot.add userId input w = (Ok Bot.NameRequired, w).
Proof.
  intros Hblank Hquick Hnone. unfold Bot.add.
  rewrite bool_decide_false by done. rewrite Hquick.
  assert (Hname : or_string (ContactData.name (Bot.parseContactData input)) ""
                  = "").
  { unfold Bot.parseContactData.
    assert (Hinv : forall ls c,
              (forall line, line ∈ ls -> line ∈ Bot.lines input) ->
              or_string (ContactData.name c) "" = "" ->
              or_string (ContactData.name (fold_left Bot.parse_line ls c)) ""
              = "").
    { induction ls as [|l ls IH]; intros c Hin Hc; [done|]. cbn [fold_left].
      apply IH; [intros line Hl; apply Hin; by right|].
      destruct (parse_line_name c l) as [->|(key & rest & Hs & Hk & ->)]; [done|].
      rewrite (Hnone l key rest); [done| |done|done]. apply Hin. left. }
    by apply Hinv. }
  unfold Bot.catch. by rewrite bool_decide_true.
Qed.

Lemma add_template_requires_name_witness :
  Bot.add (ext := Demo.externals) "u1" "Company: Acme" Demo.empty_world
  = (Ok Bot.NameRequired, Demo.empty_world).
Proof.
  apply (add_template_requires_name (ext := Demo.externals)
           "u1" "Company: Acme" Demo.empty_world).
  - discriminate.
  - reflexivity.
  - intros line key rest Hline Hsplit Hkey. exfalso.
    change (Bot.lines "Company: Acme") with ["Company: Acme"] in Hline.
    apply elem_of_cons in Hline as [->|Hline]; [|by apply elem_of_nil in Hline].
    injection Hsplit as <- _. discriminate Hkey.
Defined.

(** [parseContactData] reads line by line and the last line wins.  A
    final line [key:value] sets the field that [key] names, whatever its
    case and the white space around it, to the trimmed [value], colons
    included, over what the lines before it gave. *)
Theorem parseContactData_last_line (text key value : string) :
  JSString.LF ∉ String.list_ascii_of_string key ->
  JSString.LF ∉ String.list_ascii_of_string value ->
  ":"%char ∉ String.list_ascii_of_string key ->
  JSString.trim key <> "" ->
  Bot.parseContactData (text +:+ String JSString.LF (key +:+ String ":" value))
  = Bot.assign (JSString.trim (JSString.toLowerCase key)) (JSString.trim value)
           (Bot.parseContactData text).
Proof.
  intros Hk Hv Hc Hne. unfold Bot.parseContactData.
  rewrite lines_app, lines_field by done.
  rewrite fold_left_app. cbn [fold_left].
  by apply parse_line_field.
Qed.

Lemma parseContactData_last_line_witness :
  Bot.parseContactData
    ("Name: Ann" +:+ String JSString.LF
       (" LinkedIn " +:+ String ":" " https://linkedin.com/in/ann "))
  = Bot.assign "linkedin" "https://linkedin.com/in/ann"
      (Bot.parseContactData "Name: Ann").
Proof.
  apply (parseContactData_last_line "Name: Ann" " LinkedIn "
           " https://linkedin.com/in/ann ").
  - apply (bool_decide_unpack _). vm_compute. exact I.
  - apply (bool_decide_unpack _). vm_compute. exact I.
  - apply (bool_decide_unpack _). vm_compute. exact I.
  - discriminate.
Defined.

Section normalising.
Import JSString Bot.

Lemma parse_tags_pieces (value t : string) :
  t ∈ parse_tags value ->
  t <> "" /\ trim t = t /\ ","%char ∉ chars t.
Proof.
  unfold parse_tags. intros [Hne Ht]%list_elem_of_filter.
  apply list_elem_of_fmap in Ht as (x & -> & Hx).
  split; [done|]. split; [apply trim_idem|].
  intros Hc. by apply (split_pieces "," value x Hx), chars_trim.
Qed.

Lemma at_prefixed (value : string) :
  startsWith (if startsWith value "@" then value else "@" +:+ value) "@" = true.
Proof.
  destruct (startsWith value "@") eqn:E; [exact E|]. by destruct value.
Qed.

Lemma assign_normalised (lowerKey value : string) (contact : ContactData.t) :
  normalised contact -> normalised (assign lowerKey value contact).
Proof.
  intros (H1 & H2 & H3 & H4 & H5). unfold assign.
  pose proof (at_prefixed value) as Hat.
  pose proof (parse_tags_pieces value) as Htags.
  destruct contact; cbn in *.
  repeat case_bool_decide;
    try match goal with
        | |- context [parse_priority value] => destruct (parse_priority value)
        end;
    (refine (conj _ (conj _ (conj _ (conj _ _)))); cbn; try done;
     intros ? ?; simplify_eq; try done).
  - destruct (startsWith value "http") eqn:E; [exact E|reflexivity].
  - destruct (startsWith value "http") eqn:E; [exact E|reflexivity].
  - intros [= <-] ?. by apply Htags.
Qed.

Lemma parse_line_normalised (contact : ContactData.t) (line : string) :
  normalised contact -> normalised (parse_line contact line).
Proof.
  intros H. unfold parse_line. destruct (split ":" line); [done|].
  destruct (_ && _); [|done]. by apply assign_normalised.
Qed.

End normalising.

(** Whatever the text, the parser returns normalised handles and tags:
    a Telegram or Farcaster handle begins with [@], a LinkedIn or GitHub
    entry begins with [http], and every tag is non-empty, trimmed and
    free of commas. *)
Theorem parseContactData_normalised (text : string) :
  Bot.normalised (Bot.parseContactData text).
Proof.
  unfold Bot.parseContactData.
  assert (Hinv : forall ls c,
            Bot.normalised c -> Bot.normalised (fold_left Bot.parse_line ls c)).
  { induction ls as [|l ls IH]; intros c Hc; [done|].
    cbn [fold_left]. by apply IH, parse_line_normalised. }
  apply Hinv. by repeat split.
Qed.

(** ** From the command to the table and back *)

(** A contact added through the template is found by its name.  When
    the last line of the input gives the name and the handler replies
    that the contact was added, the contact carries that name, trimmed,
    and a search of the same owner for it, if it has no pattern
    character, returns the contact. *)
Theorem add_then_search {ext : Externals} (userId text key value : string)
    (c : Contact.t) (w w1 : World) :
  JSString.LF ∉ String.list_ascii_of_string key ->
  JSString.LF ∉ String.list_ascii_of_string value ->
  ":"%char ∉ String.list_ascii_of_string key ->
  JSString.trim (JSString.toLowerCase key) = "name" ->
  wildcard_free (JSString.trim value) ->
  Bot.add userId (text +:+ String JSString.LF (key +:+ String ":" value)) w
  = (Ok (Bot.Added c), w1) ->
  Contact.name c = JSString.trim value
  /\ exists l : list Contact.t,
       HybridStorageManager.searchContacts userId (JSString.trim value) w1
       = (Ok l, w1)
       /\ c ∈ l.
Proof.
  intros Hk Hv Hc Hname Hfree. unfold Bot.add.
  case_bool_decide; [discriminate|].
  assert (Hkey : JSString.trim key <> "").
  { intros Hempty. unfold JSString.trim in Hempty, Hname.
    rewrite <- toLowerCase_trimStart in Hname.
    assert (Hs : JSString.trimStart key = "").
    { pose proof (trimStart_no_lead key) as Hlead.
      destruct (JSString.trimStart key) as [|x s]; [done|].
      rewrite trimEnd_cons in Hempty by done. done. }
    rewrite Hs in Hname. cbn in Hname. discriminate. }
  unfold Bot.parseContactData.
  rewrite lines_app, lines_field, fold_left_app by done. cbn [fold_left].
  rewrite parse_line_field by done.
  fold (Bot.parseContactData text). rewrite Hname.
  unfold Bot.catch.
  destruct (_ && _); [intros H'; exfalso; revert H'|].
  { unfold bind. by destruct (HybridStorageManager.addContact _ _ _ w)
      as [[?| |] ?]. }
  rewrite assign_name. case_bool_decide as Hval; [discriminate|].
  assert (Hvalue : JSString.trim value <> "").
  { intros E. apply Hval. by rewrite E. }
  unfold bind.
  destruct (HybridStorageManager.addContact userId _ None w) as [[c'| |] w']
    eqn:Hadd; [|discriminate..].
  intros [= <- <-].
  apply addContact_plain in Hadd as (Hc' & _ & Hrows & _).
  assert (Hn : Contact.name c' = JSString.trim value).
  { rewrite Hc', new_contact_name, assign_name. unfold or_string.
    by rewrite decide_False. }
  split; [done|].
  eexists. split; [apply searched_rows|].
  rewrite merge_sort_Permutation. apply list_elem_of_fmap.
  exists (DatabaseContactManager.values c'). split; [symmetry; apply mapRowToContact_values|].
  apply list_elem_of_filter. split.
  - apply matches_searched. exists (Contact.name c'). split; [left|].
    apply LIKE_substring; [done|]. rewrite Hn. exists "", "".
    change ("" +:+ ?s) with s. by rewrite string_app_nil_r.
  - apply list_elem_of_filter. split; [by rewrite Hc'|].
    rewrite Hrows. apply elem_of_app. right. left.
Qed.

Lemma add_then_search_witness :
  let input := "Company: Acme" +:+ String JSString.LF ("Name" +:+ String ":" " Ann Lee ") in
  let c := DatabaseContactManager.new_contact "u1" (Bot.parseContactData input)
             1700000000000 1700000000000 in
  let w1 := Demo.after (Bot.add (ext := Demo.externals) "u1" input)
                       Demo.empty_world in
  Contact.name c = JSString.trim " Ann Lee "
  /\ exists l : list Contact.t,
       HybridStorageManager.searchContacts "u1" (JSString.trim " Ann Lee ") w1
       = (Ok l, w1)
       /\ c ∈ l.
Proof.
  intros input c w1.
  apply (add_then_search (ext := Demo.externals) "u1" "Company: Acme" "Name"
           " Ann Lee " c Demo.empty_world w1).
  - apply (bool_decide_unpack _). vm_compute. exact I.
  - apply (bool_decide_unpack _). vm_compute. exact I.
  - apply (bool_decide_unpack _). vm_compute. exact I.
  - reflexivity.
  - unfold wildcard_free. apply (bool_decide_unpack _). vm_compute. exact I.
  - reflexivity.
Defined.

(** ** Owner isolation of photos and statistics *)

Section photo_isolation.
Context {ext : Externals}.
Import HybridStorageManager.

(** The contacts table after [addPhotoToContact], whatever its outcome:
    untouched, or with the photo fields of the selected rows replaced. *)
Lemma addPhotoToContact_rows (userId contactId : string)
    (imageBuffer : list Byte.byte) (w : World) :
  contacts (snd (addPhotoToContact userId contactId imageBuffer w)) = contacts w
  \/ exists path file taken,
       contacts (snd (addPhotoToContact userId contactId imageBuffer w))
       = attach userId contactId path file taken <$> contacts w.
Proof.
  destruct (addPhotoToContact userId contactId imageBuffer w) as [o w'] eqn:Hrun.
  cbn [snd]. revert Hrun. unfold addPhotoToContact.
  unfold bind at 1. unfold photo_filename at 1.
  unfold bind at 1, Date_now at 1, ret at 1.
  unfold bind at 1.
  pose proof (silent_uploadImageToIPFS imageBuffer
    ("contact_" +:+ contactId +:+ "_" +:+ JS.Number_toString (clock w) +:+ ".jpg") w)
    as Hsilent.
  destruct (uploadImageToIPFS _ _ w) as [[res| |] w0];
    cbn [fst snd] in *; injection Hsilent as Hc Hb Hg;
    [|intros [= <- <-]; by left..].
  unfold bind at 1, Date_now at 1.
  unfold bind at 1.
  rewrite db_addPhotoToContact_unfold.
  cbn [PhotoData.photoPath PhotoData.photoFileId PhotoData.photoTakenAt
       PhotoData.hasFacialData default].
  intros Hrun. right.
  exists (Some (IPFSUploadResult.pinataUrl res)),
         (Some (IPFSUploadResult.ipfsHash res)), (clock w0).
  rewrite <- Hc. revert Hrun. case_bool_decide.
  - unfold bind.
    match goal with
    | |- context [store_image_hash ?u ?i ?h ?w'] =>
        destruct (store_image_hash_Ok u i h w') as (w2 & -> & Hc2)
    end.
    intros [= _ <-]. by rewrite Hc2.
  - by intros [= _ <-].
Qed.

Lemma attach_other (userId other contactId : string) (path file : option string)
    (taken : Z) (rows : list ContactRow.t) :
  userId <> other ->
  filter (fun r => ContactRow.user_id r = other)
         (attach userId contactId path file taken <$> rows)
  = filter (fun r => ContactRow.user_id r = other) rows.
Proof.
  intros Hne. induction rows as [|r rows IH]; [done|].
  cbn [fmap list_fmap].
  assert (Hu : ContactRow.user_id (attach userId contactId path file taken r)
               = ContactRow.user_id r).
  { unfold attach. by case_decide. }
  rewrite !filter_cons, IH, Hu.
  case_decide as Ho; [|done]. f_equal.
  unfold attach. rewrite decide_False; [done|].
  intros [Hr _]. congruence.
Qed.

End photo_isolation.

(** Owner isolation of the photo list, the statistics and the photo
    update.  Replace the [contacts] table by any table with the same rows
    for [owner]: what [owner] gets from [getStats] and
    [getContactsWithPhotos] is the same; and [addPhotoToContact] by
    [owner], whatever identifier it names and whatever its outcome, leaves
    the rows of any [other] owner as they were. *)
Theorem photo_and_stats_isolation {ext : Externals}
    (owner other contactId : string) (imageBuffer : list Byte.byte)
    (w : World) (rows : list ContactRow.t) :
  owner <> other ->
  filter (fun r => ContactRow.user_id r = owner) rows
  = filter (fun r => ContactRow.user_id r = owner) (contacts w) ->
  fst (HybridStorageManager.getStats owner (set_contacts rows w))
  = fst (HybridStorageManager.getStats owner w)
  /\ fst (HybridStorageManager.getContactsWithPhotos owner (set_contacts rows w))
     = fst (HybridStorageManager.getContactsWithPhotos owner w)
  /\ filter (fun r => ContactRow.user_id r = other)
       (contacts (snd (HybridStorageManager.addPhotoToContact
                         owner contactId imageBuffer w)))
     = filter (fun r => ContactRow.user_id r = other) (contacts w).
Proof.
  intros Hne Hrows. split; [|split].
  - unfold HybridStorageManager.getStats, DatabaseContactManager.getStats,
      bind, Date_now, get, ret.
    cbn [fst contacts set_contacts clock]. by rewrite Hrows.
  - unfold HybridStorageManager.getContactsWithPhotos,
      DatabaseContactManager.getContactsWithPhotos, bind, get, ret.
    cbn [fst contacts set_contacts]. do 3 f_equal.
    assert (Hsplit : forall l : list ContactRow.t,
              filter (fun r => ContactRow.user_id r = owner
                               /\ DatabaseContactManager.has_photo r) l
              = filter DatabaseContactManager.has_photo
                  (filter (fun r => ContactRow.user_id r = owner) l)).
    { intros l. rewrite list_filter_filter. apply list_filter_iff. intros r. tauto. }
    by rewrite !Hsplit, Hrows.
  - destruct (addPhotoToContact_rows owner contactId imageBuffer w)
      as [->|(path & file & taken & ->)]; [done|].
    by apply attach_other.
Qed.

Lemma photo_and_stats_isolation_witness :
  let w := Demo.after (HybridStorageManager.addContact (ext := Demo.externals)
                         "u1" Demo.sarah None) Demo.empty_world in
  let rows := contacts w ++
                [DatabaseContactManager.values
                   (DatabaseContactManager.new_contact "u2" Demo.sarah 5 5)] in
  fst (HybridStorageManager.getStats "u1" (set_contacts rows w))
  = fst (HybridStorageManager.getStats "u1" w)
  /\ fst (HybridStorageManager.getContactsWithPhotos "u1" (set_contacts rows w))
     = fst (HybridStorageManager.getContactsWithPhotos "u1" w)
  /\ filter (fun r => ContactRow.user_id r = "u2")
       (contacts (snd (HybridStorageManager.addPhotoToContact
                         (ext := Demo.externals) "u1" "1700000000000" [] w)))
     = filter (fun r => ContactRow.user_id r = "u2") (contacts w).
Proof.
  intros w rows.
  apply (photo_and_stats_isolation (ext := Demo.externals)
           "u1" "u2" "1700000000000" [] w rows).
  - discriminate.
  - reflexivity.
Defined.
